(** * speedclaw: the agent orchestration engine, embedded and verified

    A shallow embedding of the TypeScript sources of the orchestration core:
    the intent router ([src/lib/router.ts]), the stream decoder
    ([callOpenRouterStream]), the capability registry ([executeTool]), the
    streaming agent loop ([runAgentLoopStreaming]), the plan parser
    ([parseTimeline]), the plan runner of the chat route, the task store
    ([getDueTasks], [updateTask]) and the scheduler ([processTask]).

    JavaScript strings are modelled as [string], sequences of character
    codes below 256; a character above that range (two in the message
    texts of the sources, and those a JSON escape may name) is written as
    its UTF-8 bytes.  Exceptions are
    modelled by the [completion] type, asynchronous calls by their
    results. *)

From Stdlib Require Import String Ascii List Bool Arith ZArith Lia DecimalString.
Import ListNotations.
Set Warnings "-register-all".
Open Scope string_scope.
Open Scope list_scope.
Open Scope nat_scope.

Infix "+++" := String.append (right associativity, at level 60).

(* ================================================================== *)
(** ** JavaScript string primitives used by the sources *)
(* ================================================================== *)

Module JsString.

Definition code (c : ascii) : nat := nat_of_ascii c.

(** [String.prototype.toLowerCase]: the capital letters below 256 are A-Z
    and the accented capitals 192-222 (215, the multiplication sign, is no
    letter); each has its small letter 32 places above. *)
Definition is_upper (c : ascii) : bool :=
  ((65 <=? code c) && (code c <=? 90))
  || ((192 <=? code c) && (code c <=? 222) && negb (code c =? 215)).

Definition lower_char (c : ascii) : ascii :=
  if is_upper c then ascii_of_nat (code c + 32) else c.

Fixpoint toLowerCase (s : string) : string :=
  match s with
  | EmptyString => EmptyString
  | String c s' => String (lower_char c) (toLowerCase s')
  end.

(** White space, as [String.prototype.trim] and the regular expression
    class [\s] see it below 256: TAB, LF, VT, FF, CR, SP and NBSP. *)
Definition is_ws (c : ascii) : bool :=
  ((9 <=? code c) && (code c <=? 13)) || (code c =? 32) || (code c =? 160).

Fixpoint trimStart (s : string) : string :=
  match s with
  | EmptyString => EmptyString
  | String c s' => if is_ws c then trimStart s' else s
  end.

Definition is_empty (s : string) : bool :=
  match s with EmptyString => true | _ => false end.

Fixpoint trimEnd (s : string) : string :=
  match s with
  | EmptyString => EmptyString
  | String c s' =>
      let t := trimEnd s' in
      if is_ws c && is_empty t then EmptyString else String c t
  end.

Definition trim (s : string) : string := trimEnd (trimStart s).

(** [s.startsWith(p)] *)
Fixpoint startsWith (s p : string) {struct p} : bool :=
  match p, s with
  | EmptyString, _ => true
  | String _ _, EmptyString => false
  | String a p', String b s' => Ascii.eqb a b && startsWith s' p'
  end.

(** [s.indexOf(p)], [None] standing for -1. *)
Fixpoint indexOf (s p : string) : option nat :=
  if startsWith s p then Some 0
  else match s with
       | EmptyString => None
       | String _ s' => option_map S (indexOf s' p)
       end.

(** [s.includes(p)] *)
Definition includes (s p : string) : bool :=
  match indexOf s p with Some _ => true | None => false end.

Fixpoint take (n : nat) (s : string) : string :=
  match n, s with
  | S n', String c s' => String c (take n' s')
  | _, _ => EmptyString
  end.

Fixpoint drop (n : nat) (s : string) : string :=
  match n, s with
  | S n', String _ s' => drop n' s'
  | _, _ => s
  end.

(** [s.endsWith(p)] *)
Definition endsWith (s p : string) : bool :=
  (String.length p <=? String.length s)
  && String.eqb (drop (String.length s - String.length p) s) p.

(** [s.replace(p, r)] with a string pattern: the first occurrence only. *)
Definition replace (s p r : string) : string :=
  match indexOf s p with
  | None => s
  | Some i => take i s +++ r +++ drop (i + String.length p) s
  end.

(** [s.split(sep)] for a non-empty separator.  The fuel bounds the number of
    cuts; [String.length s] is always enough. *)
Fixpoint split_fuel (fuel : nat) (s sep : string) : list string :=
  match fuel with
  | O => [s]
  | S fuel' =>
      match indexOf s sep with
      | None => [s]
      | Some i =>
          take i s :: split_fuel fuel' (drop (i + String.length sep) s) sep
      end
  end.

Definition split (s sep : string) : list string :=
  split_fuel (String.length s) s sep.

(** [parts.join(sep)] *)
Fixpoint join (parts : list string) (sep : string) : string :=
  match parts with
  | [] => EmptyString
  | [p] => p
  | p :: rest => p +++ sep +++ join rest sep
  end.

(** JavaScript truthiness of a string: non-empty. *)
Definition truthy (s : string) : bool := negb (is_empty s).

(** [a || b] on strings. *)
Definition or_else (a b : string) : string := if truthy a then a else b.

End JsString.

(* ================================================================== *)
(** ** Router: [classifyIntent] (src/lib/router.ts) *)
(* ================================================================== *)

Module Router.
Import JsString.

Inductive TaskType :=
| SIMPLE_QA | TOOL_TASK | RESEARCH_TASK | COMPLEX_REASONING | LONG_RUNNING.

Definition TOOL_KEYWORDS : list string :=
  [ "send"; "schedule"; "post"; "create task"; "remind"; "telegram";
    "discord"; "slack"; "webhook"; "http request"; "api call";
    "set a reminder"; "cancel task"; "pause task"; "resume task";
    "remember"; "save to memory" ].

Definition RESEARCH_KEYWORDS : list string :=
  [ "search"; "find"; "latest"; "news"; "price"; "look up"; "browse";
    "open the page"; "go to"; "visit"; "what is the current"; "who won";
    "trending" ].

Definition LONG_RUNNING_KEYWORDS : list string :=
  [ "monitor"; "every day"; "every hour"; "every minute"; "recurring";
    "keep checking"; "daily"; "weekly"; "cron" ].

(** [for (const keyword of ks) if (lower.includes(keyword)) return ...] *)
Definition any_keyword (lower : string) (ks : list string) : bool :=
  existsb (fun keyword => includes lower keyword) ks.

Definition isQuestion (lower : string) : bool :=
  endsWith lower "?"
  || startsWith lower "what"
  || startsWith lower "who"
  || startsWith lower "how"
  || startsWith lower "why"
  || startsWith lower "when"
  || startsWith lower "where"
  || startsWith lower "is "
  || startsWith lower "are "
  || startsWith lower "can "
  || startsWith lower "does "
  || startsWith lower "do ".

Definition classifyIntent (message : string) : TaskType :=
  let lower := trim (toLowerCase message) in
  if any_keyword lower LONG_RUNNING_KEYWORDS then LONG_RUNNING
  else if any_keyword lower TOOL_KEYWORDS then TOOL_TASK
  else if any_keyword lower RESEARCH_KEYWORDS then RESEARCH_TASK
  else if (String.length message <? 120) && isQuestion lower then SIMPLE_QA
  else COMPLEX_REASONING.

End Router.

(* ================================================================== *)
(** ** Stream decoder: [callOpenRouterStream] (src/lib/router.ts)

    The embedding starts at the parsed chunks of one model call: the
    transport (line splitting, the [data: ] prefix, [JSON.parse] of each
    event line) hands the decoder a list of [OpenRouterStreamChunk]. *)
(* ================================================================== *)

Module Decoder.
Import JsString.

Record ToolCallFunction := { fn_name : string; fn_arguments : string }.

Record ToolCall :=
  { tc_id : string; tc_type : string; tc_function : ToolCallFunction }.

(** One element of [delta.tool_calls]; optional fields as [option]. *)
Record ToolCallDelta :=
  { d_index : nat;
    d_id : option string;
    d_type : option string;
    d_name : option string;        (* tc.function?.name *)
    d_arguments : option string }. (* tc.function?.arguments *)

Record OpenRouterStreamDelta :=
  { reasoning : option string;
    content : option string;
    tool_calls : option (list ToolCallDelta) }.

Record Choice := { delta : OpenRouterStreamDelta; finish_reason : option string }.

Record OpenRouterStreamChunk := { choices : list Choice }.

Record AssistantMessage :=
  { msg_content : option string; msg_tool_calls : option (list ToolCall) }.

(** The calls made on [params.callbacks], in order. *)
Inductive Callback :=
| onToken (token : string)
| onReasoning (token : string)
| onToolCall (toolCall : ToolCall)
| onDone (message : AssistantMessage)
| onError (error : string).

(** A value of [toolCallsMap]. *)
Record Pending :=
  { p_id : string; p_type : string; p_name : string; p_arguments : string }.

(** The locals of the read loop.  [toolCallsMap] is a JavaScript [Map]: it
    iterates in insertion order, hence an association list. *)
Record State :=
  { fullContent : string;
    insideThinkTag : bool;
    toolCallsMap : list (nat * Pending) }.

Definition initial : State :=
  {| fullContent := ""; insideThinkTag := false; toolCallsMap := [] |}.

(** [o || d] for an optional string. *)
Definition opt_or (o : option string) (d : string) : string :=
  match o with Some s => or_else s d | None => d end.

(** [if (o) ...]: the value when it is a non-empty string. *)
Definition opt_truthy (o : option string) : option string :=
  match o with
  | Some s => if truthy s then Some s else None
  | None => None
  end.

Fixpoint map_has (m : list (nat * Pending)) (idx : nat) : bool :=
  match m with
  | [] => false
  | (k, _) :: m' => (k =? idx) || map_has m' idx
  end.

Fixpoint map_get (m : list (nat * Pending)) (idx : nat) : option Pending :=
  match m with
  | [] => None
  | (k, v) :: m' => if k =? idx then Some v else map_get m' idx
  end.

(** [toolCallsMap.set(idx, v)] for a key that is absent: a new last entry. *)
Definition map_set_new (m : list (nat * Pending)) (idx : nat) (v : Pending) :=
  m ++ [(idx, v)].

(** In-place mutation of the object stored under [idx]. *)
Fixpoint map_update (m : list (nat * Pending)) (idx : nat)
         (f : Pending -> Pending) : list (nat * Pending) :=
  match m with
  | [] => []
  | (k, v) :: m' =>
      if k =? idx then (k, f v) :: m' else (k, v) :: map_update m' idx f
  end.

(** The three conditional assignments on [existing]. *)
Definition absorb (tc : ToolCallDelta) (existing : Pending) : Pending :=
  let e1 := match opt_truthy (d_id tc) with
            | Some i => {| p_id := i; p_type := p_type existing;
                           p_name := p_name existing;
                           p_arguments := p_arguments existing |}
            | None => existing
            end in
  let e2 := match opt_truthy (d_name tc) with
            | Some n => {| p_id := p_id e1; p_type := p_type e1;
                           p_name := n; p_arguments := p_arguments e1 |}
            | None => e1
            end in
  match opt_truthy (d_arguments tc) with
  | Some a => {| p_id := p_id e2; p_type := p_type e2; p_name := p_name e2;
                 p_arguments := p_arguments e2 +++ a |}
  | None => e2
  end.

(** Body of [for (const tc of delta.tool_calls)]. *)
Definition handle_tool_call (m : list (nat * Pending)) (tc : ToolCallDelta)
  : list (nat * Pending) :=
  let idx := d_index tc in
  let m1 :=
    if map_has m idx then m
    else map_set_new m idx
           {| p_id := opt_or (d_id tc) "";
              p_type := opt_or (d_type tc) "function";
              p_name := opt_or (d_name tc) "";
              p_arguments := "" |} in
  map_update m1 idx (absorb tc).

Definition handle_tool_calls (m : list (nat * Pending))
           (tcs : list ToolCallDelta) : list (nat * Pending) :=
  fold_left handle_tool_call tcs m.

Definition OPEN_TAG : string := "<think>".
Definition CLOSE_TAG : string := "</think>".

(** The [if (delta.content)] block for a non-empty fragment.  The boolean
    tells whether the block ended in [continue], which skips the rest of
    the loop body for this chunk. *)
Definition handle_content (st : State) (fragment : string)
  : State * list Callback * bool :=
  let opened := includes fragment OPEN_TAG in
  let inside := if opened then true else insideThinkTag st in
  let text := if opened then replace fragment OPEN_TAG "" else fragment in
  if includes text CLOSE_TAG then
    let parts := split text CLOSE_TAG in
    let before := hd "" parts in
    let afterThink := join (tl parts) CLOSE_TAG in
    let ev1 := if truthy before then [onReasoning before] else [] in
    let ev2 := if truthy afterThink then [onToken afterThink] else [] in
    ({| fullContent :=
          if truthy afterThink then fullContent st +++ afterThink
          else fullContent st;
        insideThinkTag := false;
        toolCallsMap := toolCallsMap st |},
     ev1 ++ ev2, true)
  else if inside then
    ({| fullContent := fullContent st; insideThinkTag := inside;
        toolCallsMap := toolCallsMap st |},
     [onReasoning text], false)
  else
    ({| fullContent := fullContent st +++ text; insideThinkTag := inside;
        toolCallsMap := toolCallsMap st |},
     [onToken text], false).

(** One iteration of [for (const line of lines)] on a parsed delta. *)
Definition process_delta (st : State) (d : OpenRouterStreamDelta)
  : State * list Callback :=
  let ev_r := match opt_truthy (reasoning d) with
              | Some r => [onReasoning r]
              | None => []
              end in
  let '(st1, ev_c, skipped) :=
    match opt_truthy (content d) with
    | Some c => handle_content st c
    | None => (st, [], false)
    end in
  if skipped then (st1, ev_r ++ ev_c)
  else
    let m := match tool_calls d with
             | Some tcs => handle_tool_calls (toolCallsMap st1) tcs
             | None => toolCallsMap st1
             end in
    ({| fullContent := fullContent st1;
        insideThinkTag := insideThinkTag st1;
        toolCallsMap := m |},
     ev_r ++ ev_c).

(** [const choice = chunk.choices?.[0]; if (!choice) continue;] *)
Definition process_chunk (st : State) (chunk : OpenRouterStreamChunk)
  : State * list Callback :=
  match choices chunk with
  | [] => (st, [])
  | choice :: _ => process_delta st (delta choice)
  end.

Fixpoint process_chunks (st : State) (chunks : list OpenRouterStreamChunk)
  : State * list Callback :=
  match chunks with
  | [] => (st, [])
  | chunk :: rest =>
      let '(st1, ev1) := process_chunk st chunk in
      let '(st2, ev2) := process_chunks st1 rest in
      (st2, ev1 ++ ev2)
  end.

(** [// Build final tool calls array] *)
Definition build_tool_calls (m : list (nat * Pending)) : list ToolCall :=
  map (fun kv =>
         {| tc_id := p_id (snd kv);
            tc_type := "function";
            tc_function := {| fn_name := p_name (snd kv);
                              fn_arguments := p_arguments (snd kv) |} |}) m.

Definition final_message (st : State) : AssistantMessage :=
  let toolCalls := build_tool_calls (toolCallsMap st) in
  {| msg_content := if truthy (fullContent st) then Some (fullContent st)
                    else None;
     msg_tool_calls := match toolCalls with [] => None | _ => Some toolCalls end |}.

(** The decoder on a stream that closes normally: the callbacks made
    before [onDone], and the message [onDone] receives. *)
Definition run_decoder (chunks : list OpenRouterStreamChunk)
  : list Callback * AssistantMessage :=
  let '(st, evs) := process_chunks initial chunks in
  (evs ++ map onToolCall (build_tool_calls (toolCallsMap st)),
   final_message st).

(** Every callback made, in order. *)
Definition decode (chunks : list OpenRouterStreamChunk) : list Callback :=
  let '(evs, message) := run_decoder chunks in
  evs ++ [onDone message].

(** A stream whose reading fails after [chunks]: the [catch] around the
    read loop reports the error and returns without [onDone]. *)
Definition decode_broken (chunks : list OpenRouterStreamChunk) (err : string)
  : list Callback :=
  let '(_, evs) := process_chunks initial chunks in
  evs ++ [onError err].

(** A chunk that carries only a content fragment. *)
Definition content_chunk (s : string) : OpenRouterStreamChunk :=
  {| choices := [ {| delta := {| reasoning := None; content := Some s;
                                 tool_calls := None |};
                     finish_reason := None |} ] |}.

(** A chunk that carries only tool-call fragments. *)
Definition tool_chunk (tcs : list ToolCallDelta) : OpenRouterStreamChunk :=
  {| choices := [ {| delta := {| reasoning := None; content := None;
                                 tool_calls := Some tcs |};
                     finish_reason := None |} ] |}.

(** Concatenation of the reasoning events, and of the content events. *)
Fixpoint reasoning_text (evs : list Callback) : string :=
  match evs with
  | [] => ""
  | onReasoning t :: rest => t +++ reasoning_text rest
  | _ :: rest => reasoning_text rest
  end.

Fixpoint content_text (evs : list Callback) : string :=
  match evs with
  | [] => ""
  | onToken t :: rest => t +++ content_text rest
  | _ :: rest => content_text rest
  end.

(** The reference reading of the tags, on the whole stream text: a
    two-state scan that leaves content mode at an opening tag and
    reasoning mode at the next closing tag.  [skip] counts the characters
    of a tag still to be passed over.  Returns (reasoning, content). *)
Fixpoint ref_scan (inside : bool) (skip : nat) (s : string) : string * string :=
  match s with
  | EmptyString => ("", "")
  | String c s' =>
      match skip with
      | S k => ref_scan inside k s'
      | O =>
          if inside then
            if startsWith s CLOSE_TAG
            then ref_scan false (String.length CLOSE_TAG - 1) s'
            else let '(r, t) := ref_scan inside 0 s' in (String c r, t)
          else
            if startsWith s OPEN_TAG
            then ref_scan true (String.length OPEN_TAG - 1) s'
            else let '(r, t) := ref_scan inside 0 s' in (r, String c t)
      end
  end.

Definition ref_split (s : string) : string * string := ref_scan false 0 s.

(** The mode the reference scan ends in. *)
Fixpoint ref_mode (inside : bool) (skip : nat) (s : string) : bool :=
  match s with
  | EmptyString => inside
  | String c s' =>
      match skip with
      | S k => ref_mode inside k s'
      | O =>
          if inside then
            if startsWith s CLOSE_TAG
            then ref_mode false (String.length CLOSE_TAG - 1) s'
            else ref_mode inside 0 s'
          else
            if startsWith s OPEN_TAG
            then ref_mode true (String.length OPEN_TAG - 1) s'
            else ref_mode inside 0 s'
      end
  end.

(** *** Streams whose tags arrive whole *)

(** The text of a stream of content fragments. *)
Fixpoint stream (fs : list string) : string :=
  match fs with
  | [] => ""
  | f :: rest => f +++ stream rest
  end.

(** The tag that ends a mode: the closing tag while reasoning, the opening
    tag otherwise. *)
Definition awaited (inside : bool) : string :=
  if inside then CLOSE_TAG else OPEN_TAG.

(** [tag] is cut between the fragment [f] and the text [rest] that follows
    it: [f] ends with the first [i] characters of the tag and [rest] begins
    with the others, for some [i] strictly between 0 and the length of the
    tag. *)
Definition cut (tag f rest : string) : bool :=
  existsb (fun i => endsWith f (take i tag) && startsWith rest (drop i tag))
          (seq 1 (String.length tag - 1)).

(** How a fragment may hold its tags, by the mode it is read in.  Read in
    reasoning mode, it holds no opening tag.  Read in content mode, if it
    holds an opening tag it begins with it, and no second opening tag
    follows the closing tag that comes after it; if it holds no opening
    tag it holds no closing tag either. *)
Definition fits (inside : bool) (f : string) : bool :=
  if inside then negb (includes f OPEN_TAG)
  else
    match indexOf f OPEN_TAG with
    | None => negb (includes f CLOSE_TAG)
    | Some i =>
        (i =? 0)
        && let r := drop (String.length OPEN_TAG) f in
           match indexOf r CLOSE_TAG with
           | None => true
           | Some j =>
               negb (includes (drop (j + String.length CLOSE_TAG) r) OPEN_TAG)
           end
    end.

(** Every tag of the stream arrives whole and in place: each fragment
    [fits] the mode the reference is in when it begins, and the tag that
    would end the mode the reference is in when it ends is not cut between
    it and the rest of the stream. *)
Fixpoint tags_whole (inside : bool) (fs : list string) : bool :=
  match fs with
  | [] => true
  | f :: rest =>
      let after := ref_mode inside 0 f in
      fits inside f
      && negb (cut (awaited after) f (stream rest))
      && tags_whole after rest
  end.

(** *** What the tool-call fragments of a stream should assemble to *)


(** Whether the content block of a chunk ends in [continue]: its content,
    the opening tag taken out, holds a closing tag. *)
Definition closes_think (chunk : OpenRouterStreamChunk) : bool :=
  match choices chunk with
  | [] => false
  | choice :: _ =>
      match opt_truthy (content (delta choice)) with
      | Some fragment =>
          includes (if includes fragment OPEN_TAG
                    then replace fragment OPEN_TAG "" else fragment) CLOSE_TAG
      | None => false
      end
  end.














(** The callbacks that report tool calls. *)
Fixpoint reported_tool_calls (evs : list Callback) : list ToolCall :=
  match evs with
  | [] => []
  | onToolCall t :: rest => t :: reported_tool_calls rest
  | _ :: rest => reported_tool_calls rest
  end.

(** A fragment, written field by field. *)
Definition fragment (idx : nat) (i n a : string) : ToolCallDelta :=
  {| d_index := idx; d_id := Some i; d_type := None;
     d_name := Some n; d_arguments := Some a |}.

(** The events of the closing branch for [p </think> q]. *)
Definition closing_events (p q : string) : list Callback :=
  (if truthy p then [onReasoning p] else [])
  ++ (if truthy q then [onToken q] else []).

End Decoder.

(* ================================================================== *)
(** ** Exceptions and JSON values *)
(* ================================================================== *)

Module Js.

(** A thrown value: an [Error] with its message, or anything else, kept as
    the text [String(v)] gives for it. *)
Inductive exn :=
| JsError (message : string)
| JsThrown (rendered : string).

(** The result of evaluating code that may throw. *)
Inductive completion (A : Type) :=
| Normal (a : A)
| Throw (e : exn).
Arguments Normal {A} a.
Arguments Throw {A} e.

Definition bind {A B} (c : completion A) (k : A -> completion B) : completion B :=
  match c with
  | Normal a => k a
  | Throw e => Throw e
  end.

(** [try { c } catch (e) { h e }] *)
Definition try_catch {A} (c : completion A) (h : exn -> completion A) : completion A :=
  match c with
  | Normal a => Normal a
  | Throw e => h e
  end.

(** [err instanceof Error ? err.message : String(err)] *)
Definition message_or_string (e : exn) : string :=
  match e with JsError m => m | JsThrown r => r end.

(** [err instanceof Error ? err.message : "Unknown error"] *)
Definition message_or_unknown (e : exn) : string :=
  match e with JsError m => m | JsThrown _ => "Unknown error" end.

End Js.

Notation "x <- c ;; k" := (Js.bind c (fun x => k))
  (at level 61, c at next level, right associativity).

Module Json.
Import JsString Js.

(** A value built by [JSON.parse].  A number is [mantissa * 10 ^ exponent];
    an object keeps its members in source order. *)
Inductive json :=
| JNull
| JBool (b : bool)
| JNum (mantissa : Z) (exponent : Z)
| JStr (s : string)
| JArr (items : list json)
| JObj (members : list (string * json)).

Definition chr (n : nat) : ascii := ascii_of_nat n.
Definition is_chr (c : ascii) (n : nat) : bool := code c =? n.

(** The quotation mark, and a way to write JSON text in this file: every
    apostrophe of [s] stands for a quotation mark. *)
Definition QUOTE : ascii := chr 34.

Fixpoint jtext (s : string) : string :=
  match s with
  | EmptyString => EmptyString
  | String c s' => String (if is_chr c 39 then QUOTE else c) (jtext s')
  end.

(** JSON white space: SP, TAB, LF, CR. *)
Definition is_json_ws (c : ascii) : bool :=
  is_chr c 32 || is_chr c 9 || is_chr c 10 || is_chr c 13.

Fixpoint skip_ws (s : string) : string :=
  match s with
  | String c s' => if is_json_ws c then skip_ws s' else s
  | EmptyString => EmptyString
  end.

Definition is_digit (c : ascii) : bool := (48 <=? code c) && (code c <=? 57).
Definition digit_val (c : ascii) : Z := Z.of_nat (code c - 48).

(** Reads a run of digits: the value, the number of digits, the rest. *)
Fixpoint digits (s : string) (acc : Z) (n : nat) : Z * nat * string :=
  match s with
  | String c s' =>
      if is_digit c then digits s' (acc * 10 + digit_val c)%Z (S n)
      else (acc, n, s)
  | EmptyString => (acc, n, s)
  end.

Definition hex_val (c : ascii) : option nat :=
  let n := code c in
  if (48 <=? n) && (n <=? 57) then Some (n - 48)
  else if (97 <=? n) && (n <=? 102) then Some (n - 87)
  else if (65 <=? n) && (n <=? 70) then Some (n - 55)
  else None.

(** The number grammar: an optional minus sign; a zero, or a digit from 1
    to 9 and any digits; optionally a point and at least one digit;
    optionally e or E, a sign and at least one digit. *)
Definition parse_number (s : string) : option (json * string) :=
  let '(neg, s1) :=
    match s with
    | String c r => if is_chr c 45 then (true, r) else (false, s)
    | EmptyString => (false, s)
    end in
  let int_part :=
    match s1 with
    | String c r =>
        if is_chr c 48 then Some (0%Z, r)
        else if is_digit c then
          let '(v, _, r') := digits s1 0%Z 0 in Some (v, r')
        else None
    | EmptyString => None
    end in
  match int_part with
  | None => None
  | Some (i, s2) =>
      let frac :=
        match s2 with
        | String c r =>
            if is_chr c 46 then
              let '(v, n, r') := digits r i 0 in
              match n with O => None | _ => Some (v, Z.of_nat n, r') end
            else Some (i, 0%Z, s2)
        | EmptyString => Some (i, 0%Z, s2)
        end in
      match frac with
      | None => None
      | Some (m, scale, s3) =>
          let expo :=
            match s3 with
            | String c r =>
                if is_chr c 101 || is_chr c 69 then
                  let '(eneg, r1) :=
                    match r with
                    | String d r' =>
                        if is_chr d 45 then (true, r')
                        else if is_chr d 43 then (false, r')
                        else (false, r)
                    | EmptyString => (false, r)
                    end in
                  let '(v, n, r2) := digits r1 0%Z 0 in
                  match n with
                  | O => None
                  | _ => Some (if eneg then (- v)%Z else v, r2)
                  end
                else Some (0%Z, s3)
            | EmptyString => Some (0%Z, s3)
            end in
          match expo with
          | None => None
          | Some (e, s4) =>
              Some (JNum (if neg then (- m)%Z else m) (e - scale)%Z, s4)
          end
      end
  end.

(** The character an escape [\uXXXX] stands for: itself when its code is
    below 256, and its UTF-8 bytes above that range. *)
Definition escaped (n : nat) : string :=
  if n <? 256 then String (chr n) EmptyString
  else if n <? 2048 then
    String (chr (192 + n / 64)) (String (chr (128 + n mod 64)) EmptyString)
  else
    String (chr (224 + n / 4096))
      (String (chr (128 + (n / 64) mod 64))
         (String (chr (128 + n mod 64)) EmptyString)).

(** The body of a string literal, after its opening quotation mark. *)
Fixpoint parse_string_body (s : string) : option (string * string) :=
  match s with
  | EmptyString => None
  | String c r =>
      if is_chr c 34 then Some (EmptyString, r)
      else if code c <? 32 then None
      else if is_chr c 92 then
        match r with
        | String e r1 =>
            let simple (x : nat) :=
              match parse_string_body r1 with
              | Some (t, r') => Some (String (chr x) t, r')
              | None => None
              end in
            if is_chr e 34 then simple 34
            else if is_chr e 92 then simple 92
            else if is_chr e 47 then simple 47
            else if is_chr e 98 then simple 8
            else if is_chr e 102 then simple 12
            else if is_chr e 110 then simple 10
            else if is_chr e 114 then simple 13
            else if is_chr e 116 then simple 9
            else if is_chr e 117 then
              match r1 with
              | String h1 (String h2 (String h3 (String h4 r2))) =>
                  match hex_val h1, hex_val h2, hex_val h3, hex_val h4 with
                  | Some a, Some b, Some c0, Some d =>
                      match parse_string_body r2 with
                      | Some (t, r') =>
                          Some (escaped (4096 * a + 256 * b + 16 * c0 + d)
                                +++ t, r')
                      | None => None
                      end
                  | _, _, _, _ => None
                  end
              | _ => None
              end
            else None
        | EmptyString => None
        end
      else
        match parse_string_body r with
        | Some (t, r') => Some (String c t, r')
        | None => None
        end
  end.

Fixpoint parse_value (fuel : nat) (s : string) : option (json * string) :=
  match fuel with
  | O => None
  | S fuel' =>
      match skip_ws s with
      | EmptyString => None
      | String c r as s0 =>
          if is_chr c 123 then
            match skip_ws r with
            | String c1 r1 as r0 =>
                if is_chr c1 125 then Some (JObj [], r1)
                else parse_members fuel' r0 []
            | EmptyString => None
            end
          else if is_chr c 91 then
            match skip_ws r with
            | String c1 r1 as r0 =>
                if is_chr c1 93 then Some (JArr [], r1)
                else parse_elements fuel' r0 []
            | EmptyString => None
            end
          else if is_chr c 34 then
            match parse_string_body r with
            | Some (t, r') => Some (JStr t, r')
            | None => None
            end
          else if startsWith s0 "true" then Some (JBool true, drop 4 s0)
          else if startsWith s0 "false" then Some (JBool false, drop 5 s0)
          else if startsWith s0 "null" then Some (JNull, drop 4 s0)
          else parse_number s0
      end
  end
with parse_elements (fuel : nat) (s : string) (acc : list json)
  : option (json * string) :=
  match fuel with
  | O => None
  | S fuel' =>
      match parse_value fuel' s with
      | None => None
      | Some (v, r) =>
          match skip_ws r with
          | String c r1 =>
              if is_chr c 44 then parse_elements fuel' r1 (v :: acc)
              else if is_chr c 93 then Some (JArr (rev (v :: acc)), r1)
              else None
          | EmptyString => None
          end
      end
  end
with parse_members (fuel : nat) (s : string) (acc : list (string * json))
  : option (json * string) :=
  match fuel with
  | O => None
  | S fuel' =>
      match skip_ws s with
      | String q r =>
          if is_chr q 34 then
            match parse_string_body r with
            | None => None
            | Some (k, r1) =>
                match skip_ws r1 with
                | String c r2 =>
                    if is_chr c 58 then
                      match parse_value fuel' r2 with
                      | None => None
                      | Some (v, r3) =>
                          match skip_ws r3 with
                          | String d r4 =>
                              if is_chr d 44
                              then parse_members fuel' r4 ((k, v) :: acc)
                              else if is_chr d 125
                              then Some (JObj (rev ((k, v) :: acc)), r4)
                              else None
                          | EmptyString => None
                          end
                      end
                    else None
                | EmptyString => None
                end
            end
          else None
      | EmptyString => None
      end
  end.

(** [JSON.parse(text)]: one value, white space around it, nothing else;
    a [SyntaxError] otherwise.  Every level of nesting and every further
    element takes one or two units of fuel and at least two characters, so
    the fuel given here is never used up. *)
Definition JSON_parse (text : string) : completion json :=
  match parse_value (2 * String.length text + 2) text with
  | Some (v, r) =>
      if is_empty (skip_ws r) then Normal v
      else Throw (JsError "Unexpected non-whitespace character after JSON")
  | None => Throw (JsError "Unexpected token in JSON")
  end.

(** [v[key]] for an object: the last member of that name wins. *)
Fixpoint lookup (members : list (string * json)) (key : string) : option json :=
  match members with
  | [] => None
  | (k, v) :: rest =>
      match lookup rest key with
      | Some v' => Some v'
      | None => if String.eqb k key then Some v else None
      end
  end.

(** [v.key] for a key that is no built-in property: a [TypeError] on
    [null], [undefined] ([None]) on anything that is no object. *)
Definition get_prop (v : json) (key : string) : completion (option json) :=
  match v with
  | JNull => Throw (JsError "Cannot read properties of null")
  | JObj members => Normal (lookup members key)
  | _ => Normal None
  end.

(** Whether the number written [m] times ten to the [e] is read as zero:
    a double is zero when the number is, or when it is at most half the
    smallest positive double, two to the -1074. *)
Definition is_zero (m e : Z) : bool :=
  (m =? 0)%Z
  || ((e <? 0)%Z && (Z.abs m * 2 ^ 1075 <=? 10 ^ (- e))%Z).

(** Truthiness of a value; [None] is [undefined]. *)
Definition truthy_value (o : option json) : bool :=
  match o with
  | None => false
  | Some JNull => false
  | Some (JBool b) => b
  | Some (JNum m e) => negb (is_zero m e)
  | Some (JStr s) => truthy s
  | Some (JArr _) => true
  | Some (JObj _) => true
  end.

Definition typeof_number (o : option json) : bool :=
  match o with Some (JNum _ _) => true | _ => false end.

Definition typeof_string (o : option json) : bool :=
  match o with Some (JStr _) => true | _ => false end.

End Json.

(* ================================================================== *)
(** ** Planner: [parseTimeline] (src/lib/planner.ts) *)
(* ================================================================== *)

Module Planner.
Import JsString Js Json.

(** The pieces the two regular expressions are made of: a literal text,
    the greedy [[\s\S]*] and the greedy [\s*]. *)
Inductive re_item :=
| Lit (text : string)
| StarAny
| StarWs.

Definition star_class (i : re_item) (c : ascii) : bool :=
  match i with
  | StarAny => true
  | StarWs => is_ws c
  | Lit _ => false
  end.

(** Backtracking match of a sequence of pieces at the start of [s]; the
    answer is what is left of [s] after the match.  A star takes as many
    characters as it can and gives them back one by one. *)
Fixpoint match_here (re : list re_item) (s : string) : option string :=
  match re with
  | [] => Some s
  | Lit text :: re' =>
      if startsWith s text then match_here re' (drop (String.length text) s)
      else None
  | star :: re' =>
      (fix greedy (t : string) : option string :=
         match t with
         | EmptyString => match_here re' t
         | String c t' =>
             if star_class star c then
               match greedy t' with
               | Some rest => Some rest
               | None => match_here re' t
               end
             else match_here re' t
         end) s
  end.

(** [content.match(re)] without the [g] flag: the leftmost match, as the
    matched text ([jsonMatch[0]]); [None] for [null]. *)
Fixpoint regex_match (re : list re_item) (s : string) : option string :=
  match match_here re s with
  | Some rest => Some (take (String.length s - String.length rest) s)
  | None =>
      match s with
      | EmptyString => None
      | String _ s' => regex_match re s'
      end
  end.

(** [/\{[\s\S]*"steps"\s*:\s*\[[\s\S]*\]\s*\}/] *)
Definition STEPS_RE : list re_item :=
  [ Lit "{"; StarAny; Lit (jtext "'steps'"); StarWs; Lit ":"; StarWs;
    Lit "["; StarAny; Lit "]"; StarWs; Lit "}" ].

(** [/\[[\s\S]*\]/] *)
Definition ARRAY_RE : list re_item := [ Lit "["; StarAny; Lit "]" ].

(** A plan as [parseTimeline] returns it: the step objects as parsed. *)
Record PlannerTimeline := { steps : list json }.

(** The callback of [parsed.steps.filter]. *)
Definition step_is_valid (s : json) : completion bool :=
  id <- get_prop s "id" ;;
  if negb (typeof_number id) then Normal false else
  title <- get_prop s "title" ;;
  if negb (typeof_string title) then Normal false else
  action <- get_prop s "action" ;;
  if negb (typeof_string action) then Normal false else
  description <- get_prop s "description" ;;
  Normal (typeof_string description).

Fixpoint filter_steps (l : list json) : completion (list json) :=
  match l with
  | [] => Normal []
  | s :: rest =>
      keep <- step_is_valid s ;;
      kept <- filter_steps rest ;;
      Normal (if keep then s :: kept else kept)
  end.

(** The body of the first [try]: [Normal (Some t)] is [return t],
    [Normal None] is falling out of the block. *)
Definition primary (content : string) : completion (option PlannerTimeline) :=
  match regex_match STEPS_RE content with
  | None => Normal None
  | Some jsonMatch =>
      parsed <- JSON_parse jsonMatch ;;
      parsed_steps <- get_prop parsed "steps" ;;
      match parsed_steps with
      | Some (JArr items) =>
          if 0 <? List.length items then
            validSteps <- filter_steps items ;;
            if 0 <? List.length validSteps
            then Normal (Some {| steps := validSteps |})
            else Normal None
          else Normal None
      | _ => Normal None
      end
  end.

(** The body of the second [try]. *)
Definition fallback (content : string) : completion (option PlannerTimeline) :=
  match regex_match ARRAY_RE content with
  | None => Normal None
  | Some arrayMatch =>
      arr <- JSON_parse arrayMatch ;;
      match arr with
      | JArr (first :: rest) =>
          id <- get_prop first "id" ;;
          if truthy_value id then
            title <- get_prop first "title" ;;
            if truthy_value title
            then Normal (Some {| steps := first :: rest |})
            else Normal None
          else Normal None
      | _ => Normal None
      end
  end.

(** Both [catch] blocks are empty: an exception ends its [try] only. *)
Definition parseTimeline (content : string) : completion (option PlannerTimeline) :=
  r1 <- try_catch (primary content) (fun _ => Normal None) ;;
  match r1 with
  | Some t => Normal (Some t)
  | None =>
      r2 <- try_catch (fallback content) (fun _ => Normal None) ;;
      match r2 with
      | Some t => Normal (Some t)
      | None => Normal None
      end
  end.

(** A step that has the four fields with their types. *)
Definition well_typed_step (s : json) : bool :=
  match s with
  | JObj members =>
      typeof_number (lookup members "id")
      && typeof_string (lookup members "title")
      && typeof_string (lookup members "action")
      && typeof_string (lookup members "description")
  | _ => false
  end.

End Planner.

(* ================================================================== *)
(** ** The record store (the database module) *)
(* ================================================================== *)

Module Db.
Import JsString Js.

Inductive schedule_kind := cron | once | interval.
Inductive task_status := active | paused | completed | error.

Definition status_eqb (a b : task_status) : bool :=
  match a, b with
  | active, active | paused, paused | completed, completed | error, error => true
  | _, _ => false
  end.

(** A row of [scheduled_tasks]; [notify] is stored as an INTEGER. *)
Record TaskRow :=
  { row_id : nat;
    row_conversation_id : option string;
    row_prompt : string;
    row_schedule_type : schedule_kind;
    row_schedule_value : string;
    row_status : task_status;
    row_notify : Z;
    row_next_run : option string;
    row_last_run : option string;
    row_last_result : option string }.

Record ScheduledTask :=
  { id : nat;
    conversation_id : option string;
    prompt : string;
    schedule_type : schedule_kind;
    schedule_value : string;
    status : task_status;
    notify : bool;
    next_run : option string;
    last_run : option string;
    last_result : option string }.

(** [{ ...row, notify: Boolean(row.notify) }] *)
Definition task_of_row (r : TaskRow) : ScheduledTask :=
  {| id := row_id r;
     conversation_id := row_conversation_id r;
     prompt := row_prompt r;
     schedule_type := row_schedule_type r;
     schedule_value := row_schedule_value r;
     status := row_status r;
     notify := negb (row_notify r =? 0)%Z;
     next_run := row_next_run r;
     last_run := row_last_run r;
     last_result := row_last_result r |}.

Inductive run_status := success | failure.

Record TaskRunLog :=
  { log_task_id : nat;
    log_run_at : string;
    log_duration_ms : Z;
    log_status : run_status;
    log_result : option string;
    log_error : option string }.

Record MessageRow :=
  { m_conversation_id : string;
    m_role : string;
    m_content : option string;
    m_tool_calls : option (list Decoder.ToolCall);
    m_tool_call_id : option string }.

Record t :=
  { conversations : list (string * string);
    messages : list MessageRow;
    scheduled_tasks : list TaskRow;
    task_run_logs : list TaskRunLog }.

Definition getConversation (db : t) (cid : string) : option (string * string) :=
  find (fun c => String.eqb (fst c) cid) (conversations db).

Definition createConversation (db : t) (cid title : string) : t :=
  {| conversations := conversations db ++ [(cid, title)];
     messages := messages db;
     scheduled_tasks := scheduled_tasks db;
     task_run_logs := task_run_logs db |}.

(** [addMessage(...)] for a conversation that has its row: the row is
    added at the end.  The streaming loop is modelled with it: there the
    conversation was created by the loop or by the route before the first
    insert, and no registered tool deletes one. *)
Definition addMessage (db : t) (conversationId role : string)
           (content : option string)
           (toolCalls : option (list Decoder.ToolCall))
           (toolCallId : option string) : t :=
  {| conversations := conversations db;
     messages := messages db ++
       [ {| m_conversation_id := conversationId; m_role := role;
            m_content := content; m_tool_calls := toolCalls;
            m_tool_call_id := Decoder.opt_truthy toolCallId |} ];
     scheduled_tasks := scheduled_tasks db;
     task_run_logs := task_run_logs db |}.

(** The error of an INSERT that breaks a [REFERENCES] clause; the
    connection runs with [foreign_keys = ON]. *)
Definition FOREIGN_KEY : exn := JsError "FOREIGN KEY constraint failed".

(** [addMessage] with the foreign key of [messages.conversation_id]
    checked: the INSERT fails when the conversation has no row. *)
Definition addMessage_checked (db : t) (conversationId role : string)
           (content : option string)
           (toolCalls : option (list Decoder.ToolCall))
           (toolCallId : option string) : completion t :=
  match getConversation db conversationId with
  | Some _ =>
      Normal (addMessage db conversationId role content toolCalls toolCallId)
  | None => Throw FOREIGN_KEY
  end.

Definition getMessages (db : t) (conversationId : string) : list MessageRow :=
  filter (fun m => String.eqb (m_conversation_id m) conversationId) (messages db).

Definition task_stored (db : t) (tid : nat) : bool :=
  existsb (fun r => row_id r =? tid) (scheduled_tasks db).

(** [logTaskRun(log)]: [task_id] references [scheduled_tasks(id)], so the
    INSERT fails when the task has no row. *)
Definition logTaskRun (db : t) (log : TaskRunLog) : completion t :=
  if task_stored db (log_task_id log) then
    Normal {| conversations := conversations db;
              messages := messages db;
              scheduled_tasks := scheduled_tasks db;
              task_run_logs := task_run_logs db ++ [log] |}
  else Throw FOREIGN_KEY.

Definition getTask (db : t) (tid : nat) : option ScheduledTask :=
  option_map task_of_row (find (fun r => row_id r =? tid) (scheduled_tasks db)).

(** [Partial<ScheduledTask>] as [updateTask] reads it: [None] is
    [undefined], [Some None] is [null]. *)
Record TaskUpdates :=
  { u_status : option task_status;
    u_next_run : option (option string);
    u_last_run : option (option string);
    u_last_result : option (option string) }.

Definition or_keep {A} (u : option A) (old : A) : A :=
  match u with Some v => v | None => old end.

(** The [UPDATE ... SET ... WHERE id = ?] that [updateTask] builds: only
    the fields that are not [undefined] are set. *)
Definition apply_updates (u : TaskUpdates) (r : TaskRow) : TaskRow :=
  {| row_id := row_id r;
     row_conversation_id := row_conversation_id r;
     row_prompt := row_prompt r;
     row_schedule_type := row_schedule_type r;
     row_schedule_value := row_schedule_value r;
     row_status := or_keep (u_status u) (row_status r);
     row_notify := row_notify r;
     row_next_run := or_keep (u_next_run u) (row_next_run r);
     row_last_run := or_keep (u_last_run u) (row_last_run r);
     row_last_result := or_keep (u_last_result u) (row_last_result r) |}.

Definition updateTask (db : t) (tid : nat) (updates : TaskUpdates) : t :=
  {| conversations := conversations db;
     messages := messages db;
     scheduled_tasks :=
       map (fun r => if row_id r =? tid then apply_updates updates r else r)
           (scheduled_tasks db);
     task_run_logs := task_run_logs db |}.

Section DueTasks.
(** SQLite's [datetime(text)]: the instant in whole seconds, [None] for
    NULL (a text that is no date); and [datetime('now')]. *)
Variable datetime : string -> option Z.
Variable datetime_now : Z.

(** [WHERE status = 'active' AND next_run IS NOT NULL
     AND datetime(next_run) <= datetime('now')] *)
Definition is_due (r : TaskRow) : bool :=
  status_eqb (row_status r) active
  && match row_next_run r with
     | None => false
     | Some text =>
         match datetime text with
         | None => false
         | Some instant => (instant <=? datetime_now)%Z
         end
     end.

Definition getDueTasks (db : t) : list ScheduledTask :=
  map task_of_row (filter is_due (scheduled_tasks db)).
End DueTasks.

End Db.

(* ================================================================== *)
(** ** Capability registry: [executeTool] (the tools index module) *)
(* ================================================================== *)

Module Registry.
Import JsString Js Json.

Record ToolExecutionResult := { success : bool; result : string }.

Section WithEnv.
(** Everything an executor can read and change. *)
Variable Env : Type.

Definition ToolExecutor : Type :=
  json -> Env -> Env * completion ToolExecutionResult.

Record RegisteredTool :=
  { definition_name : string; executor : ToolExecutor }.

(** [toolRegistry], a [Map] from names to tools. *)
Definition registry : Type := list (string * RegisteredTool).

Fixpoint registry_get (reg : registry) (name : string) : option RegisteredTool :=
  match reg with
  | [] => None
  | (k, v) :: rest => if String.eqb k name then Some v else registry_get rest name
  end.

Fixpoint registry_set (reg : registry) (name : string) (v : RegisteredTool)
  : registry :=
  match reg with
  | [] => [(name, v)]
  | (k, w) :: rest =>
      if String.eqb k name then (k, v) :: rest
      else (k, w) :: registry_set rest name v
  end.

Definition register (reg : registry) (name : string) (e : ToolExecutor)
  : registry :=
  registry_set reg name {| definition_name := name; executor := e |}.

Definition failed (text : string) : ToolExecutionResult :=
  {| success := false; result := text |}.

Definition executeTool (reg : registry) (name argsJson : string) (env : Env)
  : Env * completion ToolExecutionResult :=
  match registry_get reg name with
  | None => (env, Normal (failed ("Unknown tool: " +++ name)))
  | Some tool =>
      match JSON_parse (or_else argsJson "{}") with
      | Throw _ =>
          (env, Normal (failed ("Invalid tool arguments JSON: " +++ argsJson)))
      | Normal args =>
          let '(env1, r) := executor tool args env in
          (env1,
           try_catch r
             (fun error =>
                Normal (failed ("Tool execution error: "
                                +++ message_or_string error))))
      end
  end.
End WithEnv.

Arguments registry_get {Env}.
Arguments registry_set {Env}.
Arguments register {Env}.
Arguments executeTool {Env}.
Arguments executor {Env}.
Arguments definition_name {Env}.

End Registry.

(* ================================================================== *)
(** ** Step executor: [runAgentLoopStreaming] (the agent module) *)
(* ================================================================== *)

Module Agent.
Import JsString Js Json Decoder Registry.

Definition MAX_TOOL_LOOPS : nat := 15.

Record StepExecutionOptions :=
  { stepId : option nat;
    stepTitle : option string;
    stepContext : option string;
    modelOverride : option string }.

(** An element of the [messages] array sent to the model. *)
Record Message :=
  { role : string;
    content : option string;
    tool_calls : option (list ToolCall);
    tool_call_id : option string }.

(** The argument of [onEvent]. *)
Record StreamEvent :=
  { etype : string;
    data : string;
    toolName : option string;
    toolArgs : option string }.

Definition event (ty d : string) : StreamEvent :=
  {| etype := ty; data := d; toolName := None; toolArgs := None |}.

(** What one call of [callOpenRouterStream] meets: a stream that closes
    after its chunks, or a failure (no key, a transport or provider error,
    a read error) after the chunks read so far. *)
Inductive ModelReply :=
| Completed (chunks : list OpenRouterStreamChunk)
| Failed (chunks : list OpenRouterStreamChunk) (err : string).

Definition LIMIT_NOTICE : string :=
  String (chr 10) (String (chr 10)
    "[Reached maximum tool call limit. Stopping here.]").

(** [userMessage.slice(0, 50) + (userMessage.length > 50 ? "..." : "")] *)
Definition auto_title (userMessage : string) : string :=
  take 50 userMessage +++ (if 50 <? String.length userMessage then "..." else "").

(** [arr.slice(-n)] *)
Definition last_n {A} (n : nat) (l : list A) : list A :=
  skipn (List.length l - n) l.

Definition message_of_row (msg : Db.MessageRow) : Message :=
  {| role := Db.m_role msg;
     content := Db.m_content msg;
     tool_calls := Db.m_tool_calls msg;
     tool_call_id := opt_truthy (Db.m_tool_call_id msg) |}.

Section Loop.
(** The world outside the store: the provider, the network, the clock. *)
Variable World : Type.
Definition Env : Type := (World * Db.t)%type.

(** The provider, as one call of [callOpenRouterStream] sees it. *)
Variable callModel : string -> list Message -> World -> World * ModelReply.
Variable toolRegistry : registry Env.
Variable buildSystemPrompt : option StepExecutionOptions -> string.
Variable getModel : string.

(** The locals of [runAgentLoopStreaming], with the events sent so far
    and the number of model calls made. *)
Record LoopState :=
  { env : Env;
    messages : list Message;
    events : list StreamEvent;
    finalResponse : string;
    loopCount : nat;
    modelCalls : nat }.

Definition emit (s : LoopState) (evs : list StreamEvent) : LoopState :=
  {| env := env s; messages := messages s; events := events s ++ evs;
     finalResponse := finalResponse s; loopCount := loopCount s;
     modelCalls := modelCalls s |}.

Definition push (s : LoopState) (m : Message) : LoopState :=
  {| env := env s; messages := messages s ++ [m]; events := events s;
     finalResponse := finalResponse s; loopCount := loopCount s;
     modelCalls := modelCalls s |}.

Definition with_env (s : LoopState) (e : Env) : LoopState :=
  {| env := e; messages := messages s; events := events s;
     finalResponse := finalResponse s; loopCount := loopCount s;
     modelCalls := modelCalls s |}.

Definition save (s : LoopState) (conversationId r : string)
           (c : option string) (tcs : option (list ToolCall))
           (tcid : option string) : LoopState :=
  with_env s (fst (env s), Db.addMessage (snd (env s)) conversationId r c tcs tcid).

(** The callbacks given to the decoder, [onDone] and [onError] apart. *)
Definition event_of_callback (cb : Callback) : list StreamEvent :=
  match cb with
  | onToken token => [event "token" token]
  | onReasoning token => [event "reasoning" token]
  | onToolCall toolCall =>
      [ {| etype := "tool_start";
           data := fn_name (tc_function toolCall);
           toolName := Some (fn_name (tc_function toolCall));
           toolArgs := Some (fn_arguments (tc_function toolCall)) |} ]
  | onDone _ => []
  | onError _ => []
  end.

(** [for (const toolCall of assistantMessage.tool_calls)] *)
Fixpoint run_tools (conversationId : string) (calls : list ToolCall)
         (s : LoopState) : LoopState * completion unit :=
  match calls with
  | [] => (s, Normal tt)
  | toolCall :: rest =>
      let '(env1, r) :=
        executeTool toolRegistry (fn_name (tc_function toolCall))
                    (fn_arguments (tc_function toolCall)) (env s) in
      let s1 := with_env s env1 in
      match r with
      | Throw e => (s1, Throw e)
      | Normal res =>
          let s2 := emit s1 [ {| etype := "tool_end"; data := result res;
                                 toolName := Some (fn_name (tc_function toolCall));
                                 toolArgs := None |} ] in
          let s3 := save s2 conversationId "tool" (Some (result res)) None
                         (Some (tc_id toolCall)) in
          let s4 := push s3 {| role := "tool"; content := Some (result res);
                               tool_calls := None;
                               tool_call_id := Some (tc_id toolCall) |} in
          run_tools conversationId rest s4
      end
  end.

(** One pass through the body of [while (loopCount < MAX_TOOL_LOOPS)]:
    [Normal true] is [continue], [Normal false] is [break]. *)
Definition iteration (conversationId model : string) (s : LoopState)
  : LoopState * completion bool :=
  let s0 := {| env := env s; messages := messages s; events := events s;
               finalResponse := finalResponse s;
               loopCount := S (loopCount s);
               modelCalls := S (modelCalls s) |} in
  let '(w1, reply) := callModel model (messages s0) (fst (env s0)) in
  let s1 := with_env s0 (w1, snd (env s0)) in
  match reply with
  | Failed chunks err =>
      let '(_, cbs) := process_chunks initial chunks in
      (emit s1 (flat_map event_of_callback cbs), Throw (JsError err))
  | Completed chunks =>
      let '(cbs, assistantMessage) := run_decoder chunks in
      let s2 := emit s1 (flat_map event_of_callback cbs) in
      let s3 := save s2 conversationId "assistant"
                     (msg_content assistantMessage)
                     (msg_tool_calls assistantMessage) None in
      let s4 := push s3 {| role := "assistant";
                           content := msg_content assistantMessage;
                           tool_calls := msg_tool_calls assistantMessage;
                           tool_call_id := None |} in
      match msg_tool_calls assistantMessage with
      | Some (tc :: tcs) =>
          let '(s5, r) := run_tools conversationId (tc :: tcs) s4 in
          (s5, _ <- r ;; Normal true)
      | _ =>
          ({| env := env s4; messages := messages s4; events := events s4;
              finalResponse := opt_or (msg_content assistantMessage) "";
              loopCount := loopCount s4; modelCalls := modelCalls s4 |},
           Normal false)
      end
  end.

(** The [while] loop; [fuel] bounds the number of passes. *)
Fixpoint while_loop (fuel : nat) (conversationId model : string)
         (s : LoopState) : LoopState * completion unit :=
  match fuel with
  | O => (s, Normal tt)
  | S fuel' =>
      if loopCount s <? MAX_TOOL_LOOPS then
        let '(s1, r) := iteration conversationId model s in
        match r with
        | Throw e => (s1, Throw e)
        | Normal true => while_loop fuel' conversationId model s1
        | Normal false => (s1, Normal tt)
        end
      else (s, Normal tt)
  end.

Definition step_mode (options : option StepExecutionOptions) : bool :=
  match options with
  | Some o => match opt_truthy (stepContext o) with Some _ => true | None => false end
  | None => false
  end.

(** The state the loop starts from. *)
Definition prepare (conversationId userMessage : string)
           (options : option StepExecutionOptions) (e : Env) : LoopState :=
  let db0 := snd e in
  let db1 :=
    if step_mode options then db0
    else
      let db' := match Db.getConversation db0 conversationId with
                 | Some _ => db0
                 | None => Db.createConversation db0 conversationId
                             (auto_title userMessage)
                 end in
      Db.addMessage db' conversationId "user" (Some userMessage) None None in
  let systemPrompt := buildSystemPrompt options in
  let dbMessages := Db.getMessages db1 conversationId in
  {| env := (fst e, db1);
     messages := {| role := "system"; content := Some systemPrompt;
                    tool_calls := None; tool_call_id := None |}
                 :: map message_of_row (last_n 50 dbMessages);
     events := [];
     finalResponse := "";
     loopCount := 0;
     modelCalls := 0 |}.

Definition chosen_model (options : option StepExecutionOptions) : string :=
  match options with
  | Some o => opt_or (modelOverride o) getModel
  | None => getModel
  end.

(** The code after the loop. *)
Definition finish (s : LoopState) : LoopState :=
  let s1 :=
    if MAX_TOOL_LOOPS <=? loopCount s then
      let s' := emit s [event "token" LIMIT_NOTICE] in
      {| env := env s'; messages := messages s'; events := events s';
         finalResponse := finalResponse s' +++ LIMIT_NOTICE;
         loopCount := loopCount s'; modelCalls := modelCalls s' |}
    else s in
  emit s1 [event "done" (finalResponse s1)].

(** The loop with a given fuel: the final state, and the answer returned
    or the exception thrown. *)
Definition run_with_fuel (fuel : nat) (conversationId userMessage : string)
           (options : option StepExecutionOptions) (e : Env)
  : LoopState * completion string :=
  let s0 := prepare conversationId userMessage options e in
  let '(s1, r) := while_loop fuel conversationId (chosen_model options) s0 in
  match r with
  | Throw ex => (s1, Throw ex)
  | Normal _ => let s2 := finish s1 in (s2, Normal (finalResponse s2))
  end.

Definition runAgentLoopStreaming := run_with_fuel MAX_TOOL_LOOPS.

(** A provider whose every reply is a stream that closes with at least
    one tool call. *)
Definition always_requests : Prop :=
  forall (model : string) (history : list Message) (w : World),
  exists w' chunks tc tcs,
    callModel model history w = (w', Completed chunks)
    /\ msg_tool_calls (snd (run_decoder chunks)) = Some (tc :: tcs).

(** The last message of the history is an assistant message without tool
    calls, and its content is the answer. *)
Definition answered (s : LoopState) : Prop :=
  exists (c : option string) (tcs : option (list ToolCall)),
    last (messages s) {| role := ""; content := None; tool_calls := None;
                         tool_call_id := None |}
    = {| role := "assistant"; content := c; tool_calls := tcs;
         tool_call_id := None |}
    /\ (tcs = None \/ tcs = Some [])
    /\ finalResponse s = opt_or c "".

End Loop.

Arguments env {World}.
Arguments messages {World}.
Arguments events {World}.
Arguments finalResponse {World}.
Arguments loopCount {World}.
Arguments modelCalls {World}.

End Agent.

(* ================================================================== *)
(** ** Plan runner: the step loop of the chat route's [POST] *)
(* ================================================================== *)

Module Pipeline.
Import JsString Js Json Agent.

Definition MAX_RETRIES : nat := 1.

Record PlannerStep :=
  { id : nat; title : string; action : string; description : string }.

(** [String(n)] for a natural number. *)
Definition show_nat (n : nat) : string :=
  DecimalString.NilEmpty.string_of_uint (Nat.to_uint n).

Definition quoted (s : string) : string :=
  String QUOTE (s +++ String QUOTE "").

Definition stepMessage (message : string) (step : PlannerStep) : string :=
  if String.eqb (action step) "final_answer" then
    "Based on the information gathered above, provide a comprehensive final answer to the user's original request: "
    +++ quoted message
  else
    "Execute step " +++ show_nat (id step) +++ ": " +++ title step
    +++ " — " +++ description step.

Definition step_options (executorModel : option string) (step : PlannerStep)
  : StepExecutionOptions :=
  {| stepId := Some (id step);
     stepTitle := Some (title step);
     stepContext := Some (description step);
     modelOverride := executorModel |}.

Definition step_start_event (step : PlannerStep) : StreamEvent :=
  event "step_start" (title step).

Definition step_failed_event (step : PlannerStep) (err : exn) : StreamEvent :=
  event "error"
    ("Step " +++ show_nat (id step) +++ " (" +++ quoted (title step)
     +++ ") failed: " +++ message_or_unknown err +++ ". Continuing...").

(** The stream controller of the response, as the handler sees it:
    whether the stream still takes chunks, and the events enqueued so
    far.  The client closes it by going away. *)
Record Controller := { readable : bool; enqueued : list StreamEvent }.

Section Runner.
Variable Env : Type.

(** The [TypeError] of [controller.enqueue] on a stream that no longer
    takes chunks. *)
Variable enqueue_error : exn.

(** [emitSSE(controller, encoder, event)] *)
Definition emitSSE (c : Controller) (ev : StreamEvent)
  : Controller * completion unit :=
  if readable c then
    ({| readable := true; enqueued := enqueued c ++ [ev] |}, Normal tt)
  else (c, Throw enqueue_error).

Definition State : Type := (Env * Controller)%type.

(** One run of the step executor, with [emitSSE] on the controller as
    its [onEvent]: the state it leaves (the stream may have been closed
    meanwhile), and its answer or the exception it threw. *)
Variable runAgentLoopStreaming :
  string -> string -> option StepExecutionOptions -> State ->
  State * completion string.

(** [while (retryCount <= MAX_RETRIES)] with its [try] and [catch]: the
    state left, for the proofs the outcome of every run in order ([true]
    for a run that threw), and how the loop ended.  The write of the
    error event is made in the [catch] block: when it throws, the loop
    is left with that exception. *)
Fixpoint retry_loop (fuel : nat) (retryCount : nat)
         (convId message : string) (executorModel : option string)
         (step : PlannerStep) (s : State)
  : State * list bool * completion unit :=
  match fuel with
  | O => (s, [], Normal tt)
  | S fuel' =>
      if retryCount <=? MAX_RETRIES then
        let '(s1, r) :=
          runAgentLoopStreaming convId (stepMessage message step)
            (Some (step_options executorModel step)) s in
        match r with
        | Normal _ => (s1, [false], Normal tt)
        | Throw err =>
            let retryCount1 := S retryCount in
            if MAX_RETRIES <? retryCount1 then
              let '(c2, w) := emitSSE (snd s1) (step_failed_event step err) in
              ((fst s1, c2), [true], w)
            else
              let '(s2, runs, w) :=
                retry_loop fuel' retryCount1 convId message
                           executorModel step s1 in
              (s2, true :: runs, w)
        end
      else (s, [], Normal tt)
  end.

(** The body of [for (const step of timeline.steps)]: the [step_start]
    event is written before the [try]. *)
Definition run_step (convId message : string) (executorModel : option string)
           (step : PlannerStep) (s : State)
  : State * list bool * completion unit :=
  let '(c1, w) := emitSSE (snd s) (step_start_event step) in
  match w with
  | Throw ex => ((fst s, c1), [], Throw ex)
  | Normal _ =>
      retry_loop (S MAX_RETRIES) 0 convId message executorModel step
                 (fst s, c1)
  end.

(** The [for] loop: the final state, the steps visited with the runs
    made for each, in order, and how the loop ended; an exception leaves
    the loop. *)
Fixpoint run_steps (convId message : string) (executorModel : option string)
         (plan : list PlannerStep) (s : State)
  : State * list (PlannerStep * list bool) * completion unit :=
  match plan with
  | [] => (s, [], Normal tt)
  | step :: rest =>
      let '(s1, runs, w) := run_step convId message executorModel step s in
      match w with
      | Throw ex => (s1, [(step, runs)], Throw ex)
      | Normal _ =>
          let '(s2, reports, w2) :=
            run_steps convId message executorModel rest s1 in
          (s2, (step, runs) :: reports, w2)
      end
  end.
End Runner.

End Pipeline.

(* ================================================================== *)
(** ** Task scheduler: [processTask] (src/lib/scheduler.ts) *)
(* ================================================================== *)

Module Scheduler.
Import JsString Js Json.

(** [parseInt(text, 10)]: leading white space, a sign, digits; [None] is
    [NaN]. *)
Definition parseInt (text : string) : option Z :=
  let s := trimStart text in
  let '(neg, s1) :=
    match s with
    | String c r =>
        if is_chr c 45 then (true, r)
        else if is_chr c 43 then (false, r)
        else (false, s)
    | EmptyString => (false, s)
    end in
  let '(v, n, _) := digits s1 0%Z 0 in
  match n with
  | O => None
  | _ => Some (if neg then (- v)%Z else v)
  end.

(** The largest time value a [Date] holds, in milliseconds. *)
Definition MAX_TIME : Z := 8640000000000000%Z.

Section WithWorld.
Variable World : Type.
Definition Env : Type := (World * Db.t)%type.

(** The non-streaming agent loop, [runAgentLoop(convId, prompt)]. *)
Variable runAgentLoop : string -> string -> Env -> Env * completion string.
Variable uuidv4 : World -> string.
(** [Date.now()] and [new Date()]: the time read and the world after the
    read; time passes from one read to the next. *)
Variable now : World -> Z * World.
(** [new Date(ms).toISOString()] for a time value in range. *)
Variable toISOString : Z -> string.
(** [cron.validate] of node-cron. *)
Variable cron_validate : string -> bool.

(** [new Date(ms).toISOString()] for a computed time value: a [RangeError]
    when it is [NaN] or out of range.  ([new Date().toISOString()], the
    current time, is always valid.) *)
Definition iso_of (ms : option Z) : completion string :=
  match ms with
  | Some v =>
      if (Z.abs v <=? MAX_TIME)%Z then Normal (toISOString v)
      else Throw (JsError "Invalid time value")
  | None => Throw (JsError "Invalid time value")
  end.

(** The clock is read only for a valid expression; the [catch] turns an
    exception into [null]. *)
Definition computeNextCronRun (w : World) (cronExpression : string)
  : World * option string :=
  if negb (cron_validate cronExpression) then (w, None)
  else
    let '(t, w1) := now w in
    (w1, match iso_of (Some (t + 60000)%Z) with
         | Normal text => Some text
         | Throw _ => None
         end).

(** The conversation a task runs in, and the run [processTask] makes: it
    begins after the clock is read for [startTime]. *)
Definition run_conversation (task : Db.ScheduledTask) (w : World) : string :=
  match Decoder.opt_truthy (Db.conversation_id task) with
  | Some c => c
  | None => uuidv4 w
  end.

Definition the_run (task : Db.ScheduledTask) (e : Env) : Env * completion string :=
  let '(_, w0) := now (fst e) in
  runAgentLoop (run_conversation task w0) (Db.prompt task) (w0, snd e).

(** The clock as it is read after the run, one read after the other:
    for [durationMs], for [run_at], for [last_run] and, for an interval
    task, for [next_run]. *)
Definition read_after (w : World) : (Z * Z * Z * Z) :=
  let '(t1, w1) := now w in
  let '(t2, w2) := now w1 in
  let '(t3, w3) := now w2 in
  let '(t4, _) := now w3 in
  (t1, t2, t3, t4).

(** A notification handed to [notifyClients]. *)
Definition Notification : Type := (string * string)%type.

Definition processTask (task : Db.ScheduledTask) (e : Env)
  : Env * list Notification * completion unit :=
  let '(startTime, w0) := now (fst e) in
  let convId := match Decoder.opt_truthy (Db.conversation_id task) with
                | Some c => c
                | None => uuidv4 w0
                end in
  let '(e1, r) := runAgentLoop convId (Db.prompt task) (w0, snd e) in
  let '(status, result, error) :=
    match r with
    | Normal res => (Db.success, res, None)
    | Throw err =>
        (Db.failure, "Error: " +++ message_or_string err,
         Some (message_or_string err))
    end in
  let '(t1, w1) := now (fst e1) in
  let durationMs := (t1 - startTime)%Z in
  let '(t2, w2) := now w1 in
  match Db.logTaskRun (snd e1)
          {| Db.log_task_id := Db.id task;
             Db.log_run_at := toISOString t2;
             Db.log_duration_ms := durationMs;
             Db.log_status := status;
             Db.log_result := Some (take 5000 result);
             Db.log_error := error |} with
  | Throw ex => ((w2, snd e1), [], Throw ex)
  | Normal db1 =>
      let '(t3, w3) := now w2 in
      let updates0 :=
        {| Db.u_status := None; Db.u_next_run := None;
           Db.u_last_run := Some (Some (toISOString t3));
           Db.u_last_result := Some (Some (take 2000 result)) |} in
      let '(w4, updates1) :=
        match Db.schedule_type task with
        | Db.once =>
            (w3,
             Normal {| Db.u_status := Some Db.completed;
                       Db.u_next_run := Some None;
                       Db.u_last_run := Db.u_last_run updates0;
                       Db.u_last_result := Db.u_last_result updates0 |})
        | Db.interval =>
            let ms := parseInt (Db.schedule_value task) in
            let '(t4, w4) := now w3 in
            (w4,
             next <- iso_of (option_map (fun m => (t4 + m)%Z) ms) ;;
             Normal {| Db.u_status := Db.u_status updates0;
                       Db.u_next_run := Some (Some next);
                       Db.u_last_run := Db.u_last_run updates0;
                       Db.u_last_result := Db.u_last_result updates0 |})
        | Db.cron =>
            let '(w4, next) := computeNextCronRun w3 (Db.schedule_value task) in
            (w4,
             Normal {| Db.u_status := Db.u_status updates0;
                       Db.u_next_run := Some next;
                       Db.u_last_run := Db.u_last_run updates0;
                       Db.u_last_result := Db.u_last_result updates0 |})
        end in
      match updates1 with
      | Throw ex => ((w4, db1), [], Throw ex)
      | Normal u1 =>
          let updates :=
            match status with
            | Db.failure =>
                {| Db.u_status := Some Db.error;
                   Db.u_next_run := Db.u_next_run u1;
                   Db.u_last_run := Db.u_last_run u1;
                   Db.u_last_result := Db.u_last_result u1 |}
            | Db.success => u1
            end in
          let db2 := Db.updateTask db1 (Db.id task) updates in
          let notes :=
            match Db.notify task,
                  Decoder.opt_truthy (Db.conversation_id task) with
            | true, Some c =>
                [ (c, "⏰ Scheduled task #" +++ Pipeline.show_nat (Db.id task)
                      +++ " completed:" +++ String (chr 10) (String (chr 10)
                      (take 1000 result))) ]
            | _, _ => []
            end in
          ((w4, db2), notes, Normal tt)
      end
  end.

Section Tick.
Variable datetime : string -> option Z.
Variable datetime_now : World -> Z.

(** [for (const task of dueTasks) await processTask(task)], inside the
    [try] of [schedulerTick]: an exception ends the tick. *)
Fixpoint process_all (due : list Db.ScheduledTask) (e : Env)
  : Env * list Notification :=
  match due with
  | [] => (e, [])
  | task :: rest =>
      let '(e1, notes, r) := processTask task e in
      match r with
      | Throw _ => (e1, notes)
      | Normal _ =>
          let '(e2, notes2) := process_all rest e1 in
          (e2, notes ++ notes2)
      end
  end.

Definition schedulerTick (isRunning : bool) (e : Env) : Env * list Notification :=
  if isRunning then (e, [])
  else process_all (Db.getDueTasks datetime (datetime_now (fst e)) (snd e)) e.
End Tick.
End WithWorld.

End Scheduler.

(* ================================================================== *)
(** ** Concrete situations used by the examples below *)
(* ================================================================== *)

Module Scenario.
Import JsString Js Json Decoder Registry.

(** A registry with two capabilities over a world that has no state: one
    answers, one throws. *)
Definition echo : ToolExecutor unit :=
  fun _ env => (env, Normal {| success := true; result := "ok" |}).

Definition boom : ToolExecutor unit :=
  fun _ env => (env, Throw (JsError "kaput")).

Definition two_tools : registry unit :=
  register (register [] "echo" echo) "boom" boom.

(** A provider that asks for a capability on its first [k] calls and gives
    a plain answer from then on.  The world counts the calls made. *)
Definition scripted (k : nat) (model : string) (history : list Agent.Message)
           (w : nat) : nat * Agent.ModelReply :=
  (S w,
   if w <? k
   then Agent.Completed [tool_chunk [fragment 0 "call" "lookup" "{}"]]
   else Agent.Completed [content_chunk "All done."]).

Definition empty_db : Db.t :=
  {| Db.conversations := []; Db.messages := [];
     Db.scheduled_tasks := []; Db.task_run_logs := [] |}.

Definition no_tools : registry (nat * Db.t) := [].

Definition scripted_run (k : nat) :=
  Agent.runAgentLoopStreaming nat (scripted k) no_tools
    (fun _ => "You are an assistant.") "some/model"
    "conversation-1" "What is new?" None (0, empty_db).

(** The planner output of the specification's example. *)
Definition two_step_output : string :=
  jtext "Let me think. {'steps':[{'id':1,'title':'Search','action':'search','description':'find X'},{'id':2,'title':'Answer','action':'final_answer','description':'reply'}]}".

Definition two_step_plan : list json :=
  [ JObj [("id", JNum 1 0); ("title", JStr "Search");
          ("action", JStr "search"); ("description", JStr "find X")];
    JObj [("id", JNum 2 0); ("title", JStr "Answer");
          ("action", JStr "final_answer"); ("description", JStr "reply")] ].


Definition system_prompt (options : option Agent.StepExecutionOptions) : string :=
  "You are an assistant.".

(** A task row, written field by field. *)
Definition task_row (i : nat) (kind : Db.schedule_kind) (st : Db.task_status)
           (next : option string) : Db.TaskRow :=
  {| Db.row_id := i; Db.row_conversation_id := Some "conversation-1";
     Db.row_prompt := "check the weather"; Db.row_schedule_type := kind;
     Db.row_schedule_value := "60000"; Db.row_status := st;
     Db.row_notify := 1%Z; Db.row_next_run := next;
     Db.row_last_run := None; Db.row_last_result := None |}.

(** A store with one task of each status, all with a time in the past, and
    an active task without a time. *)
Definition four_statuses : Db.t :=
  {| Db.conversations := []; Db.messages := [];
     Db.scheduled_tasks :=
       [ task_row 1 Db.once Db.active (Some "past");
         task_row 2 Db.interval Db.paused (Some "past");
         task_row 3 Db.once Db.completed (Some "past");
         task_row 4 Db.cron Db.error (Some "past");
         task_row 5 Db.once Db.active None;
         task_row 6 Db.once Db.active (Some "future") ];
     Db.task_run_logs := [] |}.

(** A reading of the stored times: the instant 100 is in the past of the
    instant 200, the instant 300 in its future. *)
Definition toy_datetime (text : string) : option Z :=
  if String.eqb text "past" then Some 100%Z
  else if String.eqb text "future" then Some 300%Z
  else None.

(** An agent loop that fails, and one that answers; the world is the clock. *)
Definition failing_loop (convId prompt : string) (e : Z * Db.t)
  : (Z * Db.t) * completion string :=
  (e, Throw (JsError "provider unreachable")).

(** A run whose [cancel_task] call deletes the task with id 1 and its run
    logs, and which then answers. *)
Definition cancelling_loop (convId prompt : string) (e : Z * Db.t)
  : (Z * Db.t) * completion string :=
  ((fst e,
    {| Db.conversations := Db.conversations (snd e);
       Db.messages := Db.messages (snd e);
       Db.scheduled_tasks :=
         filter (fun r => negb (Db.row_id r =? 1)) (Db.scheduled_tasks (snd e));
       Db.task_run_logs :=
         filter (fun l => negb (Db.log_task_id l =? 1))
                (Db.task_run_logs (snd e)) |}),
   Normal "Task #1 has been cancelled.").

Definition answering_loop (convId prompt : string) (e : Z * Db.t)
  : (Z * Db.t) * completion string :=
  (e, Normal "Sunny.").

(** A clock that advances by one millisecond at each read. *)
Definition tick (w : Z) : Z * Z := (w, (w + 1)%Z).

Definition toy_process (loop : string -> string -> Z * Db.t ->
                               (Z * Db.t) * completion string) :=
  Scheduler.processTask Z loop (fun _ => "fresh-id") tick
    (fun _ => "timestamp") (fun _ => true).

(** A step executor that fails on its first [k] runs; the world counts the
    runs made.  A successful run sends its [done] event. *)
Definition flaky (k : nat) (convId message : string)
           (options : option Agent.StepExecutionOptions)
           (s : nat * Pipeline.Controller)
  : (nat * Pipeline.Controller) * completion string :=
  if fst s <? k then ((S (fst s), snd s), Throw (JsError "stream broke"))
  else
    ((S (fst s),
      {| Pipeline.readable := Pipeline.readable (snd s);
         Pipeline.enqueued :=
           Pipeline.enqueued (snd s) ++ [Agent.event "done" "fine"] |}),
     Normal "fine").


Definition open_stream : Pipeline.Controller :=
  {| Pipeline.readable := true; Pipeline.enqueued := [] |}.

(** [TypeError: Invalid state: Controller is already closed] *)
Definition closed_stream_error : exn :=
  JsError "Invalid state: Controller is already closed".

Definition two_steps : list Pipeline.PlannerStep :=
  [ {| Pipeline.id := 1; Pipeline.title := "Search";
       Pipeline.action := "search"; Pipeline.description := "find X" |};
    {| Pipeline.id := 2; Pipeline.title := "Answer";
       Pipeline.action := "final_answer"; Pipeline.description := "reply" |} ].


End Scenario.


(* ================================================================== *)
(** * Further parts of the sources

    The line framing of the provider's response, the background executor
    ([runAgentLoop]), the listing of the capability registry, the
    scheduler tools and the tasks route, [runPlannerStreaming] and the
    HTTP tool. *)
(* ================================================================== *)

(* ================================================================== *)
(** ** Shapes of messages and events, for stating properties *)
(* ================================================================== *)

Module Views.
Import JsString Js Decoder Agent.

Definition system_message (prompt : string) : Message :=
  {| role := "system"; content := Some prompt;
     tool_calls := None; tool_call_id := None |}.

Definition user_message (text : string) : Message :=
  {| role := "user"; content := Some text;
     tool_calls := None; tool_call_id := None |}.

Definition assistant_message (c : option string)
           (calls : option (list ToolCall)) : Message :=
  {| role := "assistant"; content := c; tool_calls := calls;
     tool_call_id := None |}.

(** The tool-result message that answers [call] with the text [r]. *)
Definition tool_message (answer : ToolCall * string) : Message :=
  {| role := "tool"; content := Some (snd answer); tool_calls := None;
     tool_call_id := Some (tc_id (fst answer)) |}.

Definition is_done (ev : StreamEvent) : bool := String.eqb (etype ev) "done".

Definition no_done (evs : list StreamEvent) : Prop :=
  forallb (fun ev => negb (is_done ev)) evs = true.

End Views.

(* ================================================================== *)
(** ** Capability registry: registration and listing (the tools index) *)
(* ================================================================== *)

Module ToolIndex.
Import JsString Js Json Registry.

Section WithEnv.
Variable Env : Type.

(** [Array.from(toolRegistry.values()).map(t => t.definition)]; a
    definition is kept by its function name. *)
Definition getAllToolDefinitions (reg : registry Env) : list string :=
  map (fun entry => definition_name (snd entry)) reg.

(** The [register(definition, executor)] statements of the module, run in
    order on a map that starts out as [start]. *)
Definition register_all (start : registry Env)
           (tools : list (string * ToolExecutor Env)) : registry Env :=
  fold_left (fun reg tool => register reg (fst tool) (snd tool)) tools start.
(** The keys of the map name the definitions stored under them, and no key
    occurs twice. *)
Definition well_keyed (reg : registry Env) : Prop :=
  NoDup (map fst reg)
  /\ Forall (fun entry => definition_name (snd entry) = fst entry) reg.

End WithEnv.

Arguments getAllToolDefinitions {Env}.
Arguments well_keyed {Env}.
Arguments register_all {Env}.

End ToolIndex.

(* ================================================================== *)
(** ** Transport: the line framing of [callOpenRouterStream]
       (src/lib/router.ts) *)
(* ================================================================== *)

Module Transport.
Import JsString Js Json.








End Transport.

(* ================================================================== *)
(** ** Background executor: [runAgentLoop] (the agent module) *)
(* ================================================================== *)

Module AgentTask.
Import JsString Js Json Decoder Registry Agent.

Section Loop.
Variable World : Type.
Definition Env : Type := (World * Db.t)%type.

(** The provider, as one call of [callOpenRouter] sees it: the assistant
    message returned, or the error thrown. *)
Variable callOpenRouter :
  string -> list Message -> World -> World * completion AssistantMessage.
Variable toolRegistry : registry Env.
Variable buildSystemPrompt : option StepExecutionOptions -> string.
Variable getModel : string.

(** The locals of [runAgentLoop] and, for the proofs, [replies]: what
    each call of [callOpenRouter] made so far returned or threw, in
    order. *)
Record TaskState :=
  { env : Env;
    messages : list Message;
    finalResponse : string;
    loopCount : nat;
    replies : list (completion AssistantMessage) }.

Definition push (s : TaskState) (m : Message) : TaskState :=
  {| env := env s; messages := messages s ++ [m];
     finalResponse := finalResponse s; loopCount := loopCount s;
     replies := replies s |}.

Definition with_env (s : TaskState) (e : Env) : TaskState :=
  {| env := e; messages := messages s;
     finalResponse := finalResponse s; loopCount := loopCount s;
     replies := replies s |}.

(** [db.addMessage(...)], outside any [try]: its exception leaves
    [runAgentLoop]. *)
Definition save (s : TaskState) (conversationId r : string)
           (c : option string) (tcs : option (list ToolCall))
           (tcid : option string) : completion TaskState :=
  db <- Db.addMessage_checked (snd (env s)) conversationId r c tcs tcid ;;
  Normal (with_env s (fst (env s), db)).

(** [for (const toolCall of assistantMessage.tool_calls)] *)
Fixpoint run_tools (conversationId : string) (calls : list ToolCall)
         (s : TaskState) : TaskState * completion unit :=
  match calls with
  | [] => (s, Normal tt)
  | toolCall :: rest =>
      let '(env1, r) :=
        executeTool toolRegistry (fn_name (tc_function toolCall))
                    (fn_arguments (tc_function toolCall)) (env s) in
      let s1 := with_env s env1 in
      match r with
      | Throw e => (s1, Throw e)
      | Normal res =>
          match save s1 conversationId "tool" (Some (result res)) None
                     (Some (tc_id toolCall)) with
          | Throw e => (s1, Throw e)
          | Normal s2 =>
              let s3 := push s2 {| role := "tool";
                                   content := Some (result res);
                                   tool_calls := None;
                                   tool_call_id := Some (tc_id toolCall) |} in
              run_tools conversationId rest s3
          end
      end
  end.

(** One pass through the body of [while (loopCount < MAX_TOOL_LOOPS)]:
    [Normal true] is [continue], [Normal false] is [break]. *)
Definition iteration (conversationId : string) (s : TaskState)
  : TaskState * completion bool :=
  let '(w1, reply) := callOpenRouter getModel (messages s) (fst (env s)) in
  let s1 := {| env := (w1, snd (env s)); messages := messages s;
               finalResponse := finalResponse s;
               loopCount := S (loopCount s);
               replies := replies s ++ [reply] |} in
  match reply with
  | Throw ex => (s1, Throw ex)
  | Normal assistantMessage =>
      match save s1 conversationId "assistant"
                 (msg_content assistantMessage)
                 (msg_tool_calls assistantMessage) None with
      | Throw ex => (s1, Throw ex)
      | Normal s2 =>
          let s3 := push s2 {| role := "assistant";
                               content := msg_content assistantMessage;
                               tool_calls := msg_tool_calls assistantMessage;
                               tool_call_id := None |} in
          match msg_tool_calls assistantMessage with
          | Some (tc :: tcs) =>
              let '(s4, r) := run_tools conversationId (tc :: tcs) s3 in
              (s4, _ <- r ;; Normal true)
          | _ =>
              ({| env := env s3; messages := messages s3;
                  finalResponse := opt_or (msg_content assistantMessage) "";
                  loopCount := loopCount s3;
                  replies := replies s3 |},
               Normal false)
          end
      end
  end.

(** The [while] loop; [fuel] bounds the number of passes. *)
Fixpoint while_loop (fuel : nat) (conversationId : string) (s : TaskState)
  : TaskState * completion unit :=
  match fuel with
  | O => (s, Normal tt)
  | S fuel' =>
      if loopCount s <? MAX_TOOL_LOOPS then
        let '(s1, r) := iteration conversationId s in
        match r with
        | Throw e => (s1, Throw e)
        | Normal true => while_loop fuel' conversationId s1
        | Normal false => (s1, Normal tt)
        end
      else (s, Normal tt)
  end.

(** The store once the conversation is sure to have its row. *)
Definition ensure_conversation (conversationId prompt : string) (db : Db.t)
  : Db.t :=
  match Db.getConversation db conversationId with
  | Some _ => db
  | None => Db.createConversation db conversationId
              ("Task: " +++ take 40 prompt)
  end.

(** The state the loop starts from. *)
Definition prepare (conversationId prompt : string) (e : Env)
  : TaskState * completion unit :=
  let db1 := ensure_conversation conversationId prompt (snd e) in
  match Db.addMessage_checked db1 conversationId "user" (Some prompt)
                              None None with
  | Throw ex =>
      ({| env := (fst e, db1); messages := []; finalResponse := "";
          loopCount := 0; replies := [] |},
       Throw ex)
  | Normal db2 =>
      let systemPrompt := buildSystemPrompt None in
      let dbMessages := Db.getMessages db2 conversationId in
      ({| env := (fst e, db2);
          messages := {| role := "system"; content := Some systemPrompt;
                         tool_calls := None; tool_call_id := None |}
                      :: map message_of_row (last_n 50 dbMessages);
          finalResponse := "";
          loopCount := 0;
          replies := [] |},
       Normal tt)
  end.

Definition run_with_fuel (fuel : nat) (conversationId prompt : string) (e : Env)
  : TaskState * completion string :=
  let '(s0, p) := prepare conversationId prompt e in
  match p with
  | Throw ex => (s0, Throw ex)
  | Normal _ =>
      let '(s1, r) := while_loop fuel conversationId s0 in
      match r with
      | Throw ex => (s1, Throw ex)
      | Normal _ => (s1, Normal (finalResponse s1))
      end
  end.

(** [runAgentLoop(conversationId, prompt)]: the environment it leaves, and
    the answer returned or the exception thrown. *)
Definition runAgentLoop (conversationId prompt : string) (e : Env)
  : Env * completion string :=
  let '(s, r) := run_with_fuel MAX_TOOL_LOOPS conversationId prompt e in
  (env s, r).

(** A provider whose every reply asks for at least one tool call. *)
Definition always_requests : Prop :=
  forall (model : string) (history : list Message) (w : World),
  exists w' assistantMessage tc tcs,
    callOpenRouter model history w = (w', Normal assistantMessage)
    /\ msg_tool_calls assistantMessage = Some (tc :: tcs).

(** Tools that leave the row of a conversation in place. *)
Definition keeps_conversation (conversationId : string) : Prop :=
  forall (name args : string) (e : Env),
    Db.getConversation (snd e) conversationId <> None ->
    Db.getConversation
      (snd (fst (executeTool toolRegistry name args e))) conversationId
    <> None.

End Loop.

Arguments env {World}.
Arguments messages {World}.
Arguments finalResponse {World}.
Arguments loopCount {World}.
Arguments replies {World}.

End AgentTask.

(* ================================================================== *)
(** ** Task store: creating and deleting tasks (the db module) *)
(* ================================================================== *)

Module TaskStore.
Import JsString Js Json Db.

(** The tables together with the entry of [sqlite_sequence] for
    [scheduled_tasks], whose [id] is [INTEGER PRIMARY KEY AUTOINCREMENT]:
    the largest id ever given out. *)
Record Store := { tables : Db.t; task_sequence : nat }.

Definition max_id (rows : list TaskRow) : nat :=
  fold_right (fun r m => Nat.max (row_id r) m) 0 rows.

Definition with_tables (st : Store) (db : Db.t) : Store :=
  {| tables := db; task_sequence := task_sequence st |}.

(** [createTask(task)]: the INSERT, then [getTask(result.lastInsertRowid)]. *)
Definition createTask (st : Store) (conversationId : option string)
           (taskPrompt : string) (kind : schedule_kind) (value : string)
           (st0 : task_status) (notifyFlag : bool) (nextRun : option string)
  : Store * option ScheduledTask :=
  let db := tables st in
  let lastInsertRowid :=
    S (Nat.max (task_sequence st) (max_id (scheduled_tasks db))) in
  let row :=
    {| row_id := lastInsertRowid;
       row_conversation_id := conversationId;
       row_prompt := taskPrompt;
       row_schedule_type := kind;
       row_schedule_value := value;
       row_status := st0;
       row_notify := if notifyFlag then 1%Z else 0%Z;
       row_next_run := nextRun;
       row_last_run := None;
       row_last_result := None |} in
  let db1 :=
    {| conversations := conversations db;
       messages := messages db;
       scheduled_tasks := scheduled_tasks db ++ [row];
       task_run_logs := task_run_logs db |} in
  ({| tables := db1; task_sequence := lastInsertRowid |},
   getTask db1 lastInsertRowid).

(** [deleteTask(id)]: the run logs of the task, then the task. *)
Definition deleteTask (db : Db.t) (tid : nat) : Db.t :=
  {| conversations := conversations db;
     messages := messages db;
     scheduled_tasks :=
       filter (fun r => negb (row_id r =? tid)) (scheduled_tasks db);
     task_run_logs :=
       filter (fun l => negb (log_task_id l =? tid)) (task_run_logs db) |}.

End TaskStore.

(* ================================================================== *)
(** ** Scheduler tools: [scheduleTask], [cancelTask], [pauseTask],
       [resumeTask] (the tools/scheduler module) *)
(* ================================================================== *)

Module TaskTools.
Import JsString Js Json Db Registry TaskStore.

Definition NL : string := String (chr 10) EmptyString.
Definition QQ : string := String QUOTE EmptyString.

(** The arguments of [schedule_task], each of the declared type [string]
    or absent. *)
Record ScheduleArgs :=
  { a_prompt : option string;
    a_schedule_type : option string;
    a_schedule_value : option string;
    a_notify : option string }.

Definition kind_of_name (name : string) : option schedule_kind :=
  if String.eqb name "cron" then Some cron
  else if String.eqb name "once" then Some once
  else if String.eqb name "interval" then Some interval
  else None.

Definition name_of_kind (k : schedule_kind) : string :=
  match k with cron => "cron" | once => "once" | interval => "interval" end.

(** [`${nextRun}`] *)
Definition show_option (o : option string) : string :=
  match o with Some s => s | None => "null" end.

Section WithWorld.
Variable World : Type.
Definition Env : Type := (World * Store)%type.

(** [Date.now()] *)
Variable now : World -> Z.
(** [new Date(ms).toISOString()] for a time value in range. *)
Variable toISOString : Z -> string.
(** [new Date(text).getTime()], [None] for [NaN]. *)
Variable date_parse : string -> option Z.
(** [cron.validate] of node-cron. *)
Variable cron_validate : string -> bool.

Definition computeNextRun (w : World) (scheduleType scheduleValue : string)
  : completion (option string) :=
  if String.eqb scheduleType "once" then
    match date_parse scheduleValue with
    | None => Normal None
    | Some target => Normal (Some (toISOString target))
    end
  else if String.eqb scheduleType "interval" then
    match Scheduler.parseInt scheduleValue with
    | None => Normal None
    | Some ms =>
        text <- Scheduler.iso_of toISOString (Some (now w + ms)%Z) ;;
        Normal (Some text)
    end
  else if String.eqb scheduleType "cron" then
    if negb (cron_validate scheduleValue) then Normal None
    else
      text <- Scheduler.iso_of toISOString (Some (now w + 60000)%Z) ;;
      Normal (Some text)
  else Normal None.

Definition scheduleTask (args : ScheduleArgs) (e : Env)
  : Env * completion ToolExecutionResult :=
  let notifyFlag :=
    match a_notify args with
    | Some text => negb (String.eqb text "false")
    | None => true
    end in
  match Decoder.opt_truthy (a_prompt args),
        Decoder.opt_truthy (a_schedule_type args),
        Decoder.opt_truthy (a_schedule_value args) with
  | Some taskPrompt, Some scheduleType, Some scheduleValue =>
      match kind_of_name scheduleType with
      | None =>
          (e, Normal (failed
                "schedule_type must be 'cron', 'once', or 'interval'"))
      | Some kind =>
          if String.eqb scheduleType "cron"
             && negb (cron_validate scheduleValue)
          then (e, Normal (failed ("Invalid cron expression: "
                                   +++ scheduleValue)))
          else
            match computeNextRun (fst e) scheduleType scheduleValue with
            | Throw ex => (e, Throw ex)
            | Normal nextRun =>
                match Decoder.opt_truthy nextRun with
                | None =>
                    (e, Normal (failed
                          ("Could not compute next run time for "
                           +++ scheduleType +++ ": " +++ scheduleValue)))
                | Some next =>
                    let '(st1, created) :=
                      createTask (snd e) None taskPrompt kind scheduleValue
                                 active notifyFlag (Some next) in
                    match created with
                    | None =>
                        ((fst e, st1),
                         Throw (JsError
                           "Cannot read properties of null (reading 'id')"))
                    | Some task =>
                        ((fst e, st1),
                         Normal
                           {| success := true;
                              result :=
                                "Task scheduled successfully!" +++ NL
                                +++ "- ID: " +++ Pipeline.show_nat (id task)
                                +++ NL +++ "- Type: " +++ scheduleType
                                +++ NL +++ "- Schedule: " +++ scheduleValue
                                +++ NL +++ "- Next run: " +++ next
                                +++ NL +++ "- Prompt: " +++ QQ
                                +++ taskPrompt +++ QQ |})
                    end
                end
            end
      end
  | _, _, _ =>
      (e, Normal (failed
            "prompt, schedule_type, and schedule_value are required"))
  end.

Definition not_found (taskId : nat) : ToolExecutionResult :=
  failed ("Task #" +++ Pipeline.show_nat taskId +++ " not found").

(** The three tools below take [task_id], of the declared type [number];
    the ids of stored tasks are natural numbers. *)
Definition cancelTask (taskId : nat) (e : Env)
  : Env * completion ToolExecutionResult :=
  match getTask (tables (snd e)) taskId with
  | None => (e, Normal (not_found taskId))
  | Some _ =>
      ((fst e, with_tables (snd e) (deleteTask (tables (snd e)) taskId)),
       Normal {| success := true;
                 result := "Task #" +++ Pipeline.show_nat taskId
                           +++ " has been cancelled and deleted." |})
  end.

Definition pauseTask (taskId : nat) (e : Env)
  : Env * completion ToolExecutionResult :=
  match getTask (tables (snd e)) taskId with
  | None => (e, Normal (not_found taskId))
  | Some _ =>
      ((fst e,
        with_tables (snd e)
          (updateTask (tables (snd e)) taskId
             {| u_status := Some paused; u_next_run := None;
                u_last_run := None; u_last_result := None |})),
       Normal {| success := true;
                 result := "Task #" +++ Pipeline.show_nat taskId
                           +++ " has been paused." |})
  end.

Definition resumeTask (taskId : nat) (e : Env)
  : Env * completion ToolExecutionResult :=
  match getTask (tables (snd e)) taskId with
  | None => (e, Normal (not_found taskId))
  | Some task =>
      match computeNextRun (fst e) (name_of_kind (schedule_type task))
                           (schedule_value task) with
      | Throw ex => (e, Throw ex)
      | Normal nextRun =>
          ((fst e,
            with_tables (snd e)
              (updateTask (tables (snd e)) taskId
                 {| u_status := Some active;
                    u_next_run := option_map Some (Decoder.opt_truthy nextRun);
                    u_last_run := None; u_last_result := None |})),
           Normal {| success := true;
                     result := "Task #" +++ Pipeline.show_nat taskId
                               +++ " has been resumed. Next run: "
                               +++ show_option nextRun |})
      end
  end.
End WithWorld.

End TaskTools.

(* ================================================================== *)
(** ** Tasks route: [PATCH] (src/app/api/tasks/route.ts) *)
(* ================================================================== *)

Module TasksRoute.
Import JsString Js Json Db.

(** The fields read from the request body: [id], a number, and
    [action], a string, each possibly absent. *)
Record PatchBody := { b_id : option nat; b_action : option string }.

(** [NextResponse.json(body, { status })] *)
Record Response := { http_status : nat; body : json }.

Definition error_response (code : nat) (text : string) : Response :=
  {| http_status := code; body := JObj [("error", JStr text)] |}.

Definition ok_response : Response :=
  {| http_status := 200; body := JObj [("success", JBool true)] |}.

Section WithWorld.
Variable World : Type.
Definition Env : Type := (World * Db.t)%type.

Variable runAgentLoop : string -> string -> Env -> Env * completion string.
Variable uuidv4 : World -> string.
(** [Date.now()] and [new Date()]: the time read and the world after the
    read. *)
Variable now : World -> Z * World.
Variable toISOString : Z -> string.

(** The [run] action.  Nothing catches the failure of the log insert: the
    handler then ends with that exception. *)
Definition run_now (taskId : nat) (task : ScheduledTask) (e : Env)
  : Env * completion Response :=
  let convId := match Decoder.opt_truthy (conversation_id task) with
                | Some c => c
                | None => uuidv4 (fst e)
                end in
  let '(startTime, w0) := now (fst e) in
  let '(e1, r) := runAgentLoop convId (prompt task) (w0, snd e) in
  let '(runStatus, result, runError) :=
    match r with
    | Normal res => (success, res, None)
    | Throw err =>
        (failure, "Error: " +++ message_or_string err,
         Some (message_or_string err))
    end in
  let '(t1, w1) := now (fst e1) in
  let durationMs := (t1 - startTime)%Z in
  let '(t2, w2) := now w1 in
  match logTaskRun (snd e1)
          {| log_task_id := taskId;
             log_run_at := toISOString t2;
             log_duration_ms := durationMs;
             log_status := runStatus;
             log_result := Some (take 5000 result);
             log_error := runError |} with
  | Throw ex => ((w2, snd e1), Throw ex)
  | Normal db1 =>
      let '(t3, w3) := now w2 in
      let db2 := updateTask db1 taskId
                   {| u_status := None; u_next_run := None;
                      u_last_run := Some (Some (toISOString t3));
                      u_last_result := Some (Some (take 2000 result)) |} in
      ((w3, db2),
       Normal {| http_status := 200;
                 body := JObj [("success", JBool true);
                               ("result", JStr (take 2000 result))] |})
  end.

Definition PATCH (request : PatchBody) (e : Env) : Env * completion Response :=
  match b_id request, Decoder.opt_truthy (b_action request) with
  | Some (S n), Some action =>
      let taskId := S n in
      match getTask (snd e) taskId with
      | None => (e, Normal (error_response 404 "Task not found"))
      | Some task =>
          if String.eqb action "pause" then
            ((fst e,
              updateTask (snd e) taskId
                {| u_status := Some paused; u_next_run := None;
                   u_last_run := None; u_last_result := None |}),
             Normal ok_response)
          else if String.eqb action "resume" then
            ((fst e,
              updateTask (snd e) taskId
                {| u_status := Some active; u_next_run := None;
                   u_last_run := None; u_last_result := None |}),
             Normal ok_response)
          else if String.eqb action "cancel" || String.eqb action "delete" then
            ((fst e, TaskStore.deleteTask (snd e) taskId), Normal ok_response)
          else if String.eqb action "run" then run_now taskId task e
          else (e, Normal (error_response 400 "Invalid action"))
      end
  | _, _ => (e, Normal (error_response 400 "id and action are required"))
  end.
End WithWorld.

End TasksRoute.

(* ================================================================== *)
(** ** Planner: [runPlannerStreaming] (src/lib/planner.ts) *)
(* ================================================================== *)

Module PlannerStream.
Import JsString Js Json Decoder Agent Planner.

(** The calls made to the two callbacks of [runPlannerStreaming]. *)
Inductive PlannerEvent :=
| Reasoning (text : string)
| Timeline (timeline : PlannerTimeline).

Definition taskType_name (t : Router.TaskType) : string :=
  match t with
  | Router.SIMPLE_QA => "SIMPLE_QA"
  | Router.TOOL_TASK => "TOOL_TASK"
  | Router.RESEARCH_TASK => "RESEARCH_TASK"
  | Router.COMPLEX_REASONING => "COMPLEX_REASONING"
  | Router.LONG_RUNNING => "LONG_RUNNING"
  end.

Definition NL : string := String (chr 10) EmptyString.

Definition userPrompt (message : string) (taskType : Router.TaskType) : string :=
  "Task type classified as: " +++ taskType_name taskType +++ NL +++ NL
  +++ "User message: " +++ String QUOTE (message +++ String QUOTE EmptyString)
  +++ NL +++ NL +++ "Think step-by-step, then output a JSON timeline.".

Section WithWorld.
Variable World : Type.
Variable callModel : string -> list Message -> World -> World * ModelReply.
Variable getPlannerModel : string.
Variable PLANNER_SYSTEM_PROMPT : string.

(** The two callbacks the caller hands to [runPlannerStreaming], the
    arguments [onReasoning] and [onTimeline]: each acts on the caller's
    state and may throw. *)
Variable Sink : Type.
Variable notifyReasoning : string -> Sink -> Sink * completion unit.
Variable notifyTimeline : PlannerTimeline -> Sink -> Sink * completion unit.

(** A run of the planner: the world and the caller's state it leaves,
    for the proofs the calls made to the two callbacks, in order, and
    the timeline returned or the exception thrown. *)
Record PlannerRun :=
  { world : World;
    sink : Sink;
    calls : list PlannerEvent;
    outcome : completion (option PlannerTimeline) }.

(** The callbacks handed to [callOpenRouterStream], called from its read
    loop: [onToken] adds to [fullContent], [onReasoning] calls the
    caller's callback, [onToolCall] does nothing.  An exception of the
    caller's callback ends the read loop. *)
Fixpoint planner_callbacks (cbs : list Callback) (fullContent : string)
         (k : Sink) : Sink * list PlannerEvent * completion string :=
  match cbs with
  | [] => (k, [], Normal fullContent)
  | onToken token :: rest =>
      planner_callbacks rest (fullContent +++ token) k
  | onReasoning token :: rest =>
      let '(k1, r) := notifyReasoning token k in
      match r with
      | Throw ex => (k1, [Reasoning token], Throw ex)
      | Normal _ =>
          let '(k2, evs, content) := planner_callbacks rest fullContent k1 in
          (k2, Reasoning token :: evs, content)
      end
  | _ :: rest => planner_callbacks rest fullContent k
  end.

(** For the statements: the fragments handed to the caller's reasoning
    callback, one after the other until it throws, with the state left
    and the exception, if any. *)
Fixpoint deliver (tokens : list string) (k : Sink)
  : Sink * list string * option exn :=
  match tokens with
  | [] => (k, [], None)
  | token :: rest =>
      let '(k1, r) := notifyReasoning token k in
      match r with
      | Throw ex => (k1, [token], Some ex)
      | Normal _ =>
          let '(k2, handed, failure) := deliver rest k1 in
          (k2, token :: handed, failure)
      end
  end.

(** The read loop's [catch] reports a callback's exception through
    [onError], which rejects the promise as a failed stream does: the
    [catch] of [runPlannerStreaming] returns [null].  The call of
    [onTimeline] is outside that [try]. *)
Definition runPlannerStreaming (message : string) (taskType : Router.TaskType)
           (w : World) (k : Sink) : PlannerRun :=
  let model := getPlannerModel in
  let '(w1, reply) :=
    callModel model
      [ {| role := "system"; content := Some PLANNER_SYSTEM_PROMPT;
           tool_calls := None; tool_call_id := None |};
        {| role := "user"; content := Some (userPrompt message taskType);
           tool_calls := None; tool_call_id := None |} ] w in
  match reply with
  | Failed chunks err =>
      let '(_, cbs) := process_chunks initial chunks in
      let '(k1, evs, _) := planner_callbacks cbs "" k in
      {| world := w1; sink := k1; calls := evs; outcome := Normal None |}
  | Completed chunks =>
      let '(cbs, _) := run_decoder chunks in
      let '(k1, evs, r) := planner_callbacks cbs "" k in
      match r with
      | Throw _ =>
          {| world := w1; sink := k1; calls := evs; outcome := Normal None |}
      | Normal fullContent =>
          match parseTimeline fullContent with
          | Throw ex =>
              {| world := w1; sink := k1; calls := evs; outcome := Throw ex |}
          | Normal None =>
              {| world := w1; sink := k1; calls := evs;
                 outcome := Normal None |}
          | Normal (Some timeline) =>
              let '(k2, r2) := notifyTimeline timeline k1 in
              {| world := w1; sink := k2;
                 calls := evs ++ [Timeline timeline];
                 outcome := match r2 with
                            | Throw ex => Throw ex
                            | Normal _ => Normal (Some timeline)
                            end |}
          end
      end
  end.
End WithWorld.

Arguments world {World Sink}.
Arguments sink {World Sink}.
Arguments calls {World Sink}.
Arguments outcome {World Sink}.

(** The reasoning fragments among the callbacks of the decoder. *)
Definition reasoning_tokens (cbs : list Callback) : list string :=
  flat_map (fun cb => match cb with onReasoning t => [t] | _ => [] end) cbs.

End PlannerStream.

(* ================================================================== *)
(** ** HTTP tool: [httpRequest] (the tools/http module) *)
(* ================================================================== *)

Module Http.
Import JsString Js Json Registry.

#[local] Set Warnings "-abstract-large-number".

(** The arguments of [http_request], each of the declared type [string]
    or absent. *)
Record HttpArgs :=
  { a_url : option string;
    a_method : option string;
    a_headers : option string;
    a_body : option string }.

(** What [fetch] is called with; the timeout signal is left out. *)
Record FetchOptions :=
  { f_url : string;
    f_method : string;
    f_headers : json;
    f_body : option string }.

(** The response, with the outcome of [await response.text()]. *)
Record FetchResponse :=
  { ok : bool;
    status : nat;
    statusText : string;
    text : completion string }.

Definition TRUNCATED : string := String (chr 10) "... (truncated)".

Definition NL : string := String (chr 10) EmptyString.

Definition status_line (response : FetchResponse) : string :=
  "HTTP " +++ Pipeline.show_nat (status response) +++ " "
  +++ statusText response +++ NL +++ NL.

Section WithWorld.
Variable World : Type.
Variable fetch : FetchOptions -> World -> World * completion FetchResponse.
(** [String.prototype.toUpperCase] *)
Variable toUpperCase : string -> string.

(** From [fetch] on, with the headers parsed. *)
Definition send (url method : string) (headers : json) (body : option string)
           (w : World)
  : World * list FetchOptions * completion ToolExecutionResult :=
  let fetchOptions :=
    {| f_url := url;
       f_method := method;
       f_headers := headers;
       f_body :=
         match Decoder.opt_truthy body with
         | Some b =>
             if negb (String.eqb method "GET")
                && negb (String.eqb method "HEAD")
             then Some b else None
         | None => None
         end |} in
  let '(w1, fetched) := fetch fetchOptions w in
  let outcome : completion ToolExecutionResult :=
    response <- fetched ;;
    responseText <- text response ;;
    let truncated :=
      if 10000 <? String.length responseText
      then take 10000 responseText +++ TRUNCATED
      else responseText in
    Normal {| success := ok response;
              result := status_line response +++ truncated |} in
  (w1, [fetchOptions],
   try_catch outcome
     (fun error =>
        Normal (failed ("HTTP request failed: "
                        +++ message_or_string error)))).

(** The world after the call, the requests sent, and the result. *)
Definition httpRequest (args : HttpArgs) (w : World)
  : World * list FetchOptions * completion ToolExecutionResult :=
  let method :=
    toUpperCase (match Decoder.opt_truthy (a_method args) with
                 | Some m => m
                 | None => "GET"
                 end) in
  match Decoder.opt_truthy (a_url args) with
  | None => (w, [], Normal (failed "URL is required"))
  | Some url =>
      match Decoder.opt_truthy (a_headers args) with
      | None => send url method (JObj []) (a_body args) w
      | Some headersStr =>
          match JSON_parse headersStr with
          | Throw _ =>
              (w, [],
               Normal (failed ("Invalid headers JSON: " +++ headersStr)))
          | Normal headers => send url method headers (a_body args) w
          end
      end
  end.
End WithWorld.

End Http.

(* ================================================================== *)
(** ** Further concrete situations *)
(* ================================================================== *)

Module Situations.
Import JsString Js Json Decoder Registry.

#[local] Set Warnings "-abstract-large-number".

(** The scheduler over the clock [Scenario.tick], with times shown as
    their number of milliseconds. *)
Definition show_time (t : Z) : string := Pipeline.show_nat (Z.to_nat t).

Definition dated_process (loop : string -> string -> Z * Db.t ->
                                 (Z * Db.t) * completion string) :=
  Scheduler.processTask Z loop (fun _ => "fresh-id") Scenario.tick
    show_time (fun _ => true).

(** The scheduler of [Scenario.toy_process], complete with its tick. *)
Definition toy_tick (loop : string -> string -> Z * Db.t ->
                            (Z * Db.t) * completion string) :=
  Scheduler.schedulerTick Z loop (fun _ => "fresh-id") Scenario.tick
    (fun _ => "timestamp") (fun _ => true) Scenario.toy_datetime (fun w => w).

(** A provider for the background executor that asks for a capability on
    every call, one that answers, and one that cannot be reached. *)
Definition insistent_provider (model : string) (history : list Agent.Message)
           (w : Z) : Z * completion AssistantMessage :=
  (w, Normal {| msg_content := None;
                msg_tool_calls :=
                  Some [ {| tc_id := "call_1"; tc_type := "function";
                            tc_function := {| fn_name := "lookup";
                                              fn_arguments := "{}" |} |} ] |}).

Definition answering_provider (model : string) (history : list Agent.Message)
           (w : Z) : Z * completion AssistantMessage :=
  (w, Normal {| msg_content := Some "Sunny."; msg_tool_calls := None |}).

Definition unreachable_provider (model : string)
           (history : list Agent.Message) (w : Z)
  : Z * completion AssistantMessage :=
  (w, Throw (JsError "OpenRouter API key not configured")).

Definition no_tools : registry (Z * Db.t) := [].

Definition background_loop
           (provider : string -> list Agent.Message -> Z ->
                       Z * completion AssistantMessage) :=
  AgentTask.runAgentLoop Z provider no_tools Scenario.system_prompt
                         "some/model".

(** The scheduler tools over a clock that stands at 200, with a reading of
    dates that knows one date. *)
Definition toy_date (text : string) : option Z :=
  if String.eqb text "2026-02-09T18:31:00.000Z" then Some 500%Z else None.

Definition toy_schedule :=
  TaskTools.scheduleTask Z (fun w => w) (fun _ => "timestamp") toy_date
                         (fun _ => true).

Definition remind_me : TaskTools.ScheduleArgs :=
  {| TaskTools.a_prompt := Some "check the weather";
     TaskTools.a_schedule_type := Some "once";
     TaskTools.a_schedule_value := Some "2026-02-09T18:31:00.000Z";
     TaskTools.a_notify := None |}.

Definition four_statuses_store : TaskStore.Store :=
  {| TaskStore.tables := Scenario.four_statuses;
     TaskStore.task_sequence := 6 |}.

(** A planner stream whose tags arrive whole: the reasoning, which itself
    shows a plan, and then the answer with the plan of
    [Scenario.two_step_output]. *)
Definition planner_fragments : list string :=
  [ OPEN_TAG +++ "Maybe ";
    jtext "{'steps':[{'id':9,'title':'Wrong','action':'x','description':'y'}]}";
    CLOSE_TAG +++ "Let me ";
    JsString.drop 7 Scenario.two_step_output ].

Definition planner_provider (model : string) (history : list Agent.Message)
           (w : nat) : nat * Agent.ModelReply :=
  (S w, Agent.Completed (map content_chunk planner_fragments)).

(** A caller of the planner that records what its callbacks are given
    while it listens, and whose callbacks throw once it has stopped. *)
Definition Recorder : Type := (bool * list PlannerStream.PlannerEvent)%type.

Definition record (ev : PlannerStream.PlannerEvent) (k : Recorder)
  : Recorder * completion unit :=
  if fst k then ((true, snd k ++ [ev]), Normal tt)
  else (k, Throw (JsError "nobody listens")).

(** The reasoning callback of a caller who goes away after the first
    fragment. *)
Definition record_once (text : string) (k : Recorder)
  : Recorder * completion unit :=
  if fst k then ((false, snd k ++ [PlannerStream.Reasoning text]), Normal tt)
  else (k, Throw (JsError "nobody listens")).

Definition record_timeline (timeline : Planner.PlannerTimeline)
  : Recorder -> Recorder * completion unit :=
  record (PlannerStream.Timeline timeline).

(** Callbacks that always return. *)
Definition note_reasoning (text : string) (k : nat) : nat * completion unit :=
  (S k, Normal tt).

Definition note_timeline (timeline : Planner.PlannerTimeline) (k : nat)
  : nat * completion unit :=
  (S k, Normal tt).

(** A server that answers every request with a page of 20000 characters. *)
Fixpoint page (n : nat) : string :=
  match n with
  | O => EmptyString
  | S n' => String "a" (page n')
  end.

Definition big_server (request : Http.FetchOptions) (w : nat)
  : nat * completion Http.FetchResponse :=
  (S w, Normal {| Http.ok := true; Http.status := 200;
                  Http.statusText := "OK";
                  Http.text := Normal (page 20000) |}).

Definition get_page : Http.HttpArgs :=
  {| Http.a_url := Some "http://localhost/";
     Http.a_method := None;
     Http.a_headers := None;
     Http.a_body := Some "ignored" |}.

End Situations.

(* ================================================================== *)
(** * Properties *)
(* ================================================================== *)

(** ** Facts about the string primitives *)

Module JsStringFacts.
Import JsString.

Lemma append_nil_r (s : string) : s +++ "" = s.
Proof. induction s as [|c s IH]; simpl; [reflexivity | now rewrite IH]. Qed.

Lemma append_assoc (a b c : string) : (a +++ b) +++ c = a +++ b +++ c.
Proof. induction a as [|x a IH]; simpl; [reflexivity | now rewrite IH]. Qed.

Lemma length_append (a b : string) :
  String.length (a +++ b) = String.length a + String.length b.
Proof. induction a as [|x a IH]; simpl; [reflexivity | now rewrite IH]. Qed.

Lemma toLowerCase_app (a b : string) :
  toLowerCase (a +++ b) = toLowerCase a +++ toLowerCase b.
Proof. induction a as [|x a IH]; simpl; [reflexivity | now rewrite IH]. Qed.

Lemma startsWith_nil (s : string) : startsWith s "" = true.
Proof. destruct s; reflexivity. Qed.

Lemma startsWith_app (k b : string) : startsWith (k +++ b) k = true.
Proof.
  induction k as [|c k IH]; simpl; [reflexivity |].
  now rewrite Ascii.eqb_refl, IH.
Qed.

Lemma indexOf_cons (c : ascii) (s p : string) :
  indexOf (String c s) p =
  if startsWith (String c s) p then Some 0 else option_map S (indexOf s p).
Proof. reflexivity. Qed.

Lemma includes_cons (c : ascii) (s p : string) :
  includes s p = true -> includes (String c s) p = true.
Proof.
  unfold includes. rewrite indexOf_cons.
  destruct (startsWith (String c s) p); [reflexivity |].
  destruct (indexOf s p); simpl; [reflexivity | discriminate].
Qed.

Lemma includes_prefix (k b : string) : includes (k +++ b) k = true.
Proof.
  unfold includes.
  assert (E : indexOf (k +++ b) k = Some 0).
  { destruct (k +++ b) eqn:Hs.
    - destruct k; [reflexivity | discriminate].
    - rewrite indexOf_cons, <- Hs, startsWith_app. reflexivity. }
  now rewrite E.
Qed.

Lemma includes_app (a k b : string) : includes (a +++ k +++ b) k = true.
Proof.
  induction a as [|x a IH]; simpl.
  - apply includes_prefix.
  - now apply includes_cons.
Qed.

(** A text that [trim] leaves alone and that is not empty. *)
Definition solid (k : string) : Prop := trim k = k /\ k <> "".

Lemma trimStart_fixed (k : string) :
  trim k = k -> trimStart k = k.
Proof.
  unfold trim. destruct k as [|c k]; [reflexivity |].
  simpl. destruct (is_ws c) eqn:W; [| reflexivity].
  intros H.
  (* the trimmed text is no longer than [trimStart k], which is no longer
     than [k] *)
  assert (L1 : forall s, String.length (trimStart s) <= String.length s).
  { induction s as [|x s IH]; simpl; [lia |].
    destruct (is_ws x); simpl; lia. }
  assert (L2 : forall s, String.length (trimEnd s) <= String.length s).
  { induction s as [|x s IH]; simpl; [lia |].
    destruct (is_ws x && is_empty (trimEnd s)); simpl; lia. }
  apply (f_equal String.length) in H. simpl in H.
  specialize (L1 k). specialize (L2 (trimStart k)). lia.
Qed.

Lemma trimEnd_fixed (k : string) : trim k = k -> trimEnd k = k.
Proof.
  intros H. pose proof (trimStart_fixed k H) as S.
  unfold trim in H. now rewrite S in H.
Qed.

Lemma trimStart_keeps (a k b : string) :
  trimStart k = k -> k <> "" ->
  exists a', trimStart (a +++ k +++ b) = a' +++ k +++ b.
Proof.
  intros Hk Hne. induction a as [|x a [a' IH]]; simpl.
  - exists "". simpl.
    destruct k as [|c k]; [congruence |].
    simpl in *. destruct (is_ws c) eqn:W; [| reflexivity].
    exfalso.
    assert (L : forall s, String.length (trimStart s) <= String.length s).
    { induction s as [|y s IHs]; simpl; [lia |].
      destruct (is_ws y); simpl; lia. }
    apply (f_equal String.length) in Hk. simpl in Hk.
    specialize (L k). lia.
  - destruct (is_ws x).
    + exists a'. exact IH.
    + exists (String x a). reflexivity.
Qed.

Lemma trimEnd_keeps_prefix (k b : string) :
  trimEnd k = k -> k <> "" ->
  exists b', trimEnd (k +++ b) = k +++ b'.
Proof.
  intros Hk Hne. induction k as [|c k IH]; [congruence |].
  simpl in Hk. simpl.
  destruct k as [|d k].
  - simpl in *. destruct (is_ws c) eqn:W; simpl in Hk; [discriminate |].
    exists (trimEnd b). reflexivity.
  - destruct (is_ws c && is_empty (trimEnd (String d k))) eqn:E;
      [discriminate |].
    injection Hk as Hk'.
    destruct (IH Hk') as [b' Hb']; [discriminate |].
    rewrite Hb'. simpl. rewrite andb_false_r.
    exists b'. reflexivity.
Qed.

Lemma trimEnd_keeps (a k b : string) :
  trimEnd k = k -> k <> "" ->
  exists b', trimEnd (a +++ k +++ b) = a +++ k +++ b'.
Proof.
  intros Hk Hne. induction a as [|x a [b' IH]]; simpl.
  - now apply trimEnd_keeps_prefix.
  - rewrite IH.
    assert (E : is_empty (a +++ k +++ b') = false).
    { destruct a; simpl; [| reflexivity].
      destruct k; [congruence | reflexivity]. }
    rewrite E, andb_false_r. exists b'. reflexivity.
Qed.

Lemma trim_keeps (a k b : string) :
  solid k -> includes (trim (a +++ k +++ b)) k = true.
Proof.
  intros [Hk Hne]. unfold trim.
  destruct (trimStart_keeps a k b (trimStart_fixed k Hk) Hne) as [a' Ha].
  rewrite Ha.
  destruct (trimEnd_keeps a' k b (trimEnd_fixed k Hk) Hne) as [b' Hb].
  rewrite Hb. apply includes_app.
Qed.

Lemma take_app (a b : string) : take (String.length a) (a +++ b) = a.
Proof. induction a as [|x a IH]; simpl; [now destruct b | now rewrite IH]. Qed.

Lemma drop_app (a b : string) : drop (String.length a) (a +++ b) = b.
Proof. induction a as [|x a IH]; simpl; [now destruct b | exact IH]. Qed.

Lemma drop_add (n m : nat) (s : string) : drop (n + m) s = drop m (drop n s).
Proof.
  revert s. induction n as [|n IH]; intros s; simpl; [reflexivity |].
  destruct s as [|c s]; [now destruct m | apply IH].
Qed.

Lemma startsWith_spec (s p : string) :
  startsWith s p = true -> s = p +++ drop (String.length p) s.
Proof.
  revert s. induction p as [|a p IH]; intros s H; simpl in *.
  - reflexivity.
  - destruct s as [|b s]; [discriminate |].
    apply andb_true_iff in H as [E H].
    apply Ascii.eqb_eq in E. subst b.
    simpl. f_equal. now apply IH.
Qed.

(** [indexOf] finds an occurrence: the text is what stands before it, the
    pattern, and what stands after it. *)
Lemma indexOf_spec (s p : string) (i : nat) :
  indexOf s p = Some i ->
  s = take i s +++ p +++ drop (i + String.length p) s.
Proof.
  revert i. induction s as [|c s IH]; intros i H.
  - simpl in H. destruct (startsWith "" p) eqn:E; [| discriminate].
    injection H as <-. simpl. now apply startsWith_spec.
  - rewrite indexOf_cons in H.
    destruct (startsWith (String c s) p) eqn:E.
    + injection H as <-. simpl take. simpl. now apply startsWith_spec.
    + destruct (indexOf s p) as [j|] eqn:J; [| discriminate].
      injection H as <-. simpl. f_equal. now apply IH.
Qed.

(** If a pattern starts a text that begins with [s], then [s] and the
    pattern agree as far as both go. *)
Lemma startsWith_app_compat (s r t : string) :
  startsWith (s +++ r) t = true ->
  startsWith s t || startsWith t s = true.
Proof.
  revert t. induction s as [|c s IH]; intros t H.
  - rewrite startsWith_nil. apply orb_true_r.
  - destruct t as [|d t]; [reflexivity |].
    simpl in *. apply andb_true_iff in H as [E H].
    rewrite E. simpl.
    apply Ascii.eqb_eq in E. subst d. rewrite Ascii.eqb_refl. simpl.
    now apply IH.
Qed.

Lemma indexOf_nil_pattern (p : string) :
  p <> "" -> indexOf "" p = None.
Proof. destruct p; [congruence | reflexivity]. Qed.

End JsStringFacts.

(** ** Router *)

Module RouterFacts.
Import JsString JsStringFacts Router.

Lemma long_running_keywords_solid :
  Forall solid LONG_RUNNING_KEYWORDS.
Proof.
  unfold LONG_RUNNING_KEYWORDS.
  repeat (constructor; [split; [reflexivity | discriminate] |]).
  constructor.
Qed.

(** C6. Whenever the message contains, in any mix of capital and small
    letters, one of the long-running keywords, [classifyIntent] answers
    [LONG_RUNNING], whatever else the message contains: the first check
    wins over the tool, research and question checks. *)
Theorem classifyIntent_long_running_first
        (message pre mid post keyword : string) :
  In keyword LONG_RUNNING_KEYWORDS ->
  message = pre +++ mid +++ post ->
  toLowerCase mid = keyword ->
  classifyIntent message = LONG_RUNNING.
Proof.
  intros Hin Hmsg Hlow.
  assert (Hs : solid keyword).
  { pose proof long_running_keywords_solid as F.
    rewrite Forall_forall in F. now apply F. }
  unfold classifyIntent.
  assert (Hany : any_keyword (trim (toLowerCase message)) LONG_RUNNING_KEYWORDS
                 = true).
  { unfold any_keyword. apply existsb_exists.
    exists keyword. split; [exact Hin |].
    subst message. rewrite !toLowerCase_app, Hlow.
    now apply trim_keeps. }
  now rewrite Hany.
Qed.

Lemma classifyIntent_long_running_first_witness :
  classifyIntent "Every Day, send a message and search the news?" = LONG_RUNNING.
Proof.
  apply (classifyIntent_long_running_first
           "Every Day, send a message and search the news?"
           "" "Every Day" ", send a message and search the news?" "every day").
  - simpl. right. left. reflexivity.
  - reflexivity.
  - reflexivity.
Defined.

End RouterFacts.

(** ** Stream decoder: the inline tags *)

Module DecoderTagFacts.
Import JsString JsStringFacts Decoder.

Lemma reasoning_text_app (a b : list Callback) :
  reasoning_text (a ++ b) = reasoning_text a +++ reasoning_text b.
Proof.
  induction a as [|x a IH]; simpl; [reflexivity |].
  destruct x; simpl; rewrite IH; try reflexivity.
  now rewrite append_assoc.
Qed.

Lemma content_text_app (a b : list Callback) :
  content_text (a ++ b) = content_text a +++ content_text b.
Proof.
  induction a as [|x a IH]; simpl; [reflexivity |].
  destruct x; simpl; rewrite IH; try reflexivity.
  now rewrite append_assoc.
Qed.

Lemma reasoning_text_tool_calls (l : list ToolCall) :
  reasoning_text (map onToolCall l) = "".
Proof. induction l; simpl; auto. Qed.

Lemma content_text_tool_calls (l : list ToolCall) :
  content_text (map onToolCall l) = "".
Proof. induction l; simpl; auto. Qed.

(** *** The two tags *)

Definition is_tag (tag : string) : Prop := tag = OPEN_TAG \/ tag = CLOSE_TAG.

Lemma tag_nonempty (tag : string) : is_tag tag -> tag <> "".
Proof. intros [-> | ->]; discriminate. Qed.

Lemma open_is_tag : is_tag OPEN_TAG. Proof. now left. Qed.
Lemma close_is_tag : is_tag CLOSE_TAG. Proof. now right. Qed.

(** *** Occurrences of a pattern *)

Lemma indexOf_zero (s p : string) :
  indexOf s p = Some 0 -> startsWith s p = true.
Proof.
  destruct s as [|c s]; cbn [indexOf];
    destruct (startsWith _ p); try reflexivity; try discriminate.
  destruct (indexOf s p); discriminate.
Qed.

Lemma indexOf_succ (c : ascii) (s p : string) (j : nat) :
  indexOf (String c s) p = Some (S j) ->
  startsWith (String c s) p = false /\ indexOf s p = Some j.
Proof.
  rewrite indexOf_cons. destruct (startsWith (String c s) p); [discriminate |].
  destruct (indexOf s p) as [k|]; [| discriminate].
  cbn. intros [= ->]. auto.
Qed.

Lemma includes_false_cons (c : ascii) (s p : string) :
  includes (String c s) p = false ->
  startsWith (String c s) p = false /\ includes s p = false.
Proof.
  unfold includes. rewrite indexOf_cons.
  destruct (startsWith (String c s) p); [discriminate |].
  destruct (indexOf s p); [discriminate | auto].
Qed.

Lemma includes_some (s p : string) :
  includes s p = true -> exists j, indexOf s p = Some j.
Proof. unfold includes. destruct (indexOf s p) as [j|]; [eauto | discriminate]. Qed.

Lemma includes_none (s p : string) :
  indexOf s p = None -> includes s p = false.
Proof. unfold includes. now intros ->. Qed.

Lemma includes_drop (n : nat) (s p : string) :
  includes (drop n s) p = true -> includes s p = true.
Proof.
  revert s. induction n as [|n IH]; intros [|c s]; cbn [drop]; auto.
  intros H. apply includes_cons. now apply IH.
Qed.

Lemma startsWith_length (s p : string) :
  startsWith s p = true -> String.length p <= String.length s.
Proof.
  intros H. apply startsWith_spec in H.
  apply (f_equal String.length) in H. rewrite length_append in H. lia.
Qed.

Lemma startsWith_app_l (s r p : string) :
  startsWith s p = true -> startsWith (s +++ r) p = true.
Proof.
  revert s. induction p as [|a p IH]; intros s H; [apply startsWith_nil |].
  destruct s as [|c s]; [discriminate |].
  cbn [String.append startsWith] in *.
  apply andb_true_iff in H as [E H]. rewrite E. cbn [andb]. now apply IH.
Qed.

Lemma endsWith_app (pre s : string) : endsWith (pre +++ s) s = true.
Proof.
  unfold endsWith. rewrite length_append.
  replace (String.length pre + String.length s - String.length s)
    with (String.length pre) by lia.
  rewrite drop_app, String.eqb_refl, andb_true_r.
  apply Nat.leb_le. lia.
Qed.

(** What is missing when a text begins with a pattern only once more text
    is put behind it: the text is a proper beginning of the pattern and
    the text behind it begins with the remainder. *)
Lemma starts_cut (s rest tag : string) :
  s <> "" ->
  startsWith (s +++ rest) tag = true ->
  startsWith s tag = false ->
  0 < String.length s < String.length tag
  /\ s = take (String.length s) tag
  /\ startsWith rest (drop (String.length s) tag) = true.
Proof.
  revert tag. induction s as [|c s IH]; intros tag N H F; [congruence |].
  destruct tag as [|a tag]; [discriminate |].
  cbn [String.append startsWith] in H, F.
  apply andb_true_iff in H as [E H]. rewrite E in F. cbn [andb] in F.
  apply Ascii.eqb_eq in E. subst a.
  destruct s as [|d s].
  - cbn [String.append] in H. destruct tag as [|b tag]; [discriminate |].
    cbn. repeat split; try lia. exact H.
  - destruct (IH tag) as (L & T & R); [discriminate | exact H | exact F |].
    set (n := String.length (String d s)) in *.
    change (String.length (String c (String d s))) with (S n).
    cbn [String.length take drop]. split; [lia |].
    split; [now rewrite <- T | exact R].
Qed.

Lemma cut_false (tag f rest : string) (i : nat) :
  cut tag f rest = false ->
  0 < i < String.length tag ->
  endsWith f (take i tag) = true ->
  startsWith rest (drop i tag) = true ->
  False.
Proof.
  unfold cut. intros C I E S.
  assert (T : existsb (fun i => endsWith f (take i tag)
                                && startsWith rest (drop i tag))
                      (seq 1 (String.length tag - 1)) = true).
  { apply existsb_exists. exists i. split; [apply in_seq; lia |].
    now rewrite E, S. }
  congruence.
Qed.

(** *** The reference scan *)

Lemma ref_skip (s : string) :
  forall (m : bool) (k : nat),
  k <= String.length s ->
  ref_scan m k s = ref_scan m 0 (drop k s)
  /\ ref_mode m k s = ref_mode m 0 (drop k s).
Proof.
  induction s as [|c s IH]; intros m k H.
  - cbn in H. now replace k with 0 by lia.
  - destruct k as [|k]; [auto |].
    cbn [ref_scan ref_mode drop]. apply IH. cbn in H. lia.
Qed.

Lemma ref_no_close (s : string) :
  includes s CLOSE_TAG = false ->
  ref_scan true 0 s = (s, "") /\ ref_mode true 0 s = true.
Proof.
  induction s as [|c s IH]; intros H; [auto |].
  apply includes_false_cons in H as [E H].
  cbn [ref_scan ref_mode]. rewrite E.
  destruct (IH H) as [-> ->]. auto.
Qed.

Lemma ref_no_open (s : string) :
  includes s OPEN_TAG = false ->
  ref_scan false 0 s = ("", s) /\ ref_mode false 0 s = false.
Proof.
  induction s as [|c s IH]; intros H; [auto |].
  apply includes_false_cons in H as [E H].
  cbn [ref_scan ref_mode]. rewrite E.
  destruct (IH H) as [-> ->]. auto.
Qed.

Lemma ref_first_close (s : string) :
  forall j,
  indexOf s CLOSE_TAG = Some j ->
  let tail := drop (j + String.length CLOSE_TAG) s in
  ref_scan true 0 s
  = (take j s +++ fst (ref_scan false 0 tail), snd (ref_scan false 0 tail))
  /\ ref_mode true 0 s = ref_mode false 0 tail.
Proof.
  induction s as [|c s IH]; intros j H; [discriminate |].
  destruct j as [|j].
  - apply indexOf_zero in H. cbn [ref_scan ref_mode]. rewrite H.
    pose proof (startsWith_length _ _ H) as L. cbn in L.
    destruct (ref_skip s false 7) as [R M]; [lia |].
    change (String.length CLOSE_TAG - 1) with 7.
    cbv zeta. change (drop (0 + String.length CLOSE_TAG) (String c s))
      with (drop 7 s).
    rewrite R, M. cbn [take String.append].
    now destruct (ref_scan false 0 (drop 7 s)).
  - apply indexOf_succ in H as [E H].
    cbn [ref_scan ref_mode]. rewrite E.
    destruct (IH j H) as [R M]. cbv zeta in *.
    change (drop (S j + String.length CLOSE_TAG) (String c s))
      with (drop (j + String.length CLOSE_TAG) s).
    rewrite R, M. cbn [take String.append]. auto.
Qed.

Lemma ref_open_first (r : string) :
  ref_scan false 0 (OPEN_TAG +++ r) = ref_scan true 0 r
  /\ ref_mode false 0 (OPEN_TAG +++ r) = ref_mode true 0 r.
Proof. split; reflexivity. Qed.

(** Within a proper beginning of a tag the reference recognises nothing. *)
Lemma ref_mode_prefix (tag : string) (i : nat) (m : bool) :
  is_tag tag -> 0 < i < String.length tag ->
  ref_mode m 0 (take i tag) = m.
Proof.
  intros [-> | ->] I; cbn in I; destruct m;
    do 8 (destruct i as [|i]; [try lia; try reflexivity |]); lia.
Qed.

(** The reference reads a fragment and the rest of the stream one after
    the other, when the tag awaited at the end of the fragment is not cut
    there. *)
Lemma ref_app (f rest : string) (after : bool) :
  cut (awaited after) f rest = false ->
  forall (s pre : string) (m : bool) (k : nat),
  f = pre +++ s ->
  k <= String.length s ->
  ref_mode m k s = after ->
  ref_scan m k (s +++ rest)
  = (fst (ref_scan m k s) +++ fst (ref_scan after 0 rest),
     snd (ref_scan m k s) +++ snd (ref_scan after 0 rest))
  /\ ref_mode m k (s +++ rest) = ref_mode after 0 rest.
Proof.
  intros C. induction s as [|c s IH]; intros pre m k E K A.
  - cbn in K. replace k with 0 in * by lia. cbn in A. subst m.
    cbn. now destruct (ref_scan after 0 rest).
  - assert (E' : f = (pre +++ String c "") +++ s).
    { rewrite E, append_assoc. reflexivity. }
    change (String c s +++ rest) with (String c (s +++ rest)).
    destruct k as [|k].
    + assert (X : startsWith (String c s) (awaited m) = false ->
                  startsWith (String c (s +++ rest)) (awaited m) = true ->
                  ref_mode m 0 (String c s) = after -> False).
      { intros F S A'.
        destruct (starts_cut (String c s) rest (awaited m)) as (L & P & R);
          [discriminate | exact S | exact F |].
        assert (G : is_tag (awaited m)) by (destruct m; [right | left]; reflexivity).
        set (i := String.length (String c s)) in *.
        rewrite P, (ref_mode_prefix (awaited m) i m G L) in A'.
        pose proof C as C'. rewrite <- A' in C'.
        apply (cut_false (awaited m) f rest i C' L); [| exact R].
        rewrite <- P, E. apply endsWith_app. }
      cbn [ref_scan ref_mode] in A |- *. destruct m.
      * destruct (startsWith (String c s) CLOSE_TAG) eqn:F.
        -- pose proof (startsWith_app_l _ rest _ F) as S.
           change (String c s +++ rest) with (String c (s +++ rest)) in S.
           rewrite S.
           apply (IH _ _ _ E'); [| exact A].
           apply startsWith_length in F. cbn in F |- *. lia.
        -- destruct (startsWith (String c (s +++ rest)) CLOSE_TAG) eqn:S.
           ++ exfalso. apply (X F S).
              cbn [ref_mode]. now rewrite F.
           ++ destruct (IH _ true 0 E' (Nat.le_0_l _) A) as [R M].
              rewrite R, M. destruct (ref_scan true 0 s). auto.
      * destruct (startsWith (String c s) OPEN_TAG) eqn:F.
        -- pose proof (startsWith_app_l _ rest _ F) as S.
           change (String c s +++ rest) with (String c (s +++ rest)) in S.
           rewrite S.
           apply (IH _ _ _ E'); [| exact A].
           apply startsWith_length in F. cbn in F |- *. lia.
        -- destruct (startsWith (String c (s +++ rest)) OPEN_TAG) eqn:S.
           ++ exfalso. apply (X F S).
              cbn [ref_mode]. now rewrite F.
           ++ destruct (IH _ false 0 E' (Nat.le_0_l _) A) as [R M].
              rewrite R, M. destruct (ref_scan false 0 s). auto.
    + cbn [ref_scan ref_mode] in A |- *.
      apply (IH _ _ _ E'); [| exact A]. cbn in K. lia.
Qed.

End DecoderTagFacts.

(** ** Stream decoder: routing of reasoning and content *)

Module DecoderTheorems.
Import JsString JsStringFacts Decoder DecoderTagFacts.

Lemma truthy_empty_inv (s : string) : truthy s = false -> s = "".
Proof. destruct s; [reflexivity | discriminate]. Qed.

(** *** Splitting at the closing tag *)

Lemma split_fuel_nonempty (fuel : nat) (s sep : string) :
  split_fuel fuel s sep <> [].
Proof.
  destruct fuel; cbn [split_fuel]; [discriminate |].
  destruct (indexOf s sep); discriminate.
Qed.

Lemma join_cons (a : string) (l : list string) (sep : string) :
  l <> [] -> join (a :: l) sep = a +++ sep +++ join l sep.
Proof. destruct l; [congruence | reflexivity]. Qed.

Lemma join_split_fuel (fuel : nat) (sep : string) :
  forall s, join (split_fuel fuel s sep) sep = s.
Proof.
  induction fuel as [|fuel IH]; intros s; cbn [split_fuel]; [reflexivity |].
  destruct (indexOf s sep) as [i|] eqn:E; [| reflexivity].
  rewrite join_cons by apply split_fuel_nonempty.
  rewrite IH. symmetry. now apply indexOf_spec.
Qed.

(** [parts[0]] and [parts.slice(1).join(sep)] of [text.split(sep)]. *)
Lemma split_parts (text sep : string) (j : nat) :
  sep <> "" ->
  indexOf text sep = Some j ->
  hd "" (split text sep) = take j text
  /\ join (tl (split text sep)) sep = drop (j + String.length sep) text.
Proof.
  intros N E. unfold split.
  destruct text as [|c text];
    [now rewrite (indexOf_nil_pattern sep N) in E |].
  cbn [String.length split_fuel]. rewrite E. cbn [hd tl].
  split; [reflexivity | apply join_split_fuel].
Qed.

(** *** The decoder on one fragment *)

(** The [if (delta.content)] block from the test for the closing tag on,
    for the mode and the text the test for the opening tag has left. *)
Definition settle (st : State) (inside : bool) (text : string)
  : State * list Callback * bool :=
  if includes text CLOSE_TAG then
    let parts := split text CLOSE_TAG in
    let before := hd "" parts in
    let afterThink := join (tl parts) CLOSE_TAG in
    let ev1 := if truthy before then [onReasoning before] else [] in
    let ev2 := if truthy afterThink then [onToken afterThink] else [] in
    ({| fullContent :=
          if truthy afterThink then fullContent st +++ afterThink
          else fullContent st;
        insideThinkTag := false;
        toolCallsMap := toolCallsMap st |},
     ev1 ++ ev2, true)
  else if inside then
    ({| fullContent := fullContent st; insideThinkTag := inside;
        toolCallsMap := toolCallsMap st |},
     [onReasoning text], false)
  else
    ({| fullContent := fullContent st +++ text; insideThinkTag := inside;
        toolCallsMap := toolCallsMap st |},
     [onToken text], false).

Lemma handle_content_settle (st : State) (fragment : string) :
  handle_content st fragment
  = settle st
      (if includes fragment OPEN_TAG then true else insideThinkTag st)
      (if includes fragment OPEN_TAG then replace fragment OPEN_TAG ""
       else fragment).
Proof. reflexivity. Qed.

(** What a fragment is routed to, against the reference read from
    [inside]. *)
Definition routed (st : State) (inside : bool) (f : string)
           (out : State * list Callback * bool) : Prop :=
  let st1 := fst (fst out) in
  let evs := snd (fst out) in
  reasoning_text evs = fst (ref_scan inside 0 f)
  /\ content_text evs = snd (ref_scan inside 0 f)
  /\ insideThinkTag st1 = ref_mode inside 0 f
  /\ fullContent st1 = fullContent st +++ snd (ref_scan inside 0 f)
  /\ toolCallsMap st1 = toolCallsMap st.

(** A text read in reasoning mode whose part after the closing tag holds
    no opening tag. *)
Lemma settle_reasoning (st : State) (text : string) :
  match indexOf text CLOSE_TAG with
  | Some j =>
      includes (drop (j + String.length CLOSE_TAG) text) OPEN_TAG = false
  | None => True
  end ->
  routed st true text (settle st true text).
Proof.
  destruct (indexOf text CLOSE_TAG) as [j|] eqn:E; intros H.
  - assert (Inc : includes text CLOSE_TAG = true)
      by (unfold includes; now rewrite E).
    unfold routed, settle. rewrite Inc. cbv zeta. cbn [fst snd].
    destruct (split_parts text CLOSE_TAG j) as [B A];
      [discriminate | exact E |].
    destruct (ref_first_close text j E) as [R M]. cbv zeta in R, M.
    destruct (ref_no_open _ H) as [R' M'].
    rewrite R, M, R', M', B, A. cbn [fst snd].
    rewrite append_nil_r, reasoning_text_app, content_text_app.
    set (before := take j text).
    set (afterThink := drop (j + String.length CLOSE_TAG) text).
    destruct (truthy before) eqn:Tb; destruct (truthy afterThink) eqn:Ta;
      cbn [reasoning_text content_text String.append];
      rewrite ?append_nil_r;
      try rewrite (truthy_empty_inv _ Tb);
      try rewrite (truthy_empty_inv _ Ta);
      rewrite ?append_nil_r; auto.
  - unfold routed, settle. rewrite (includes_none _ _ E). cbn [fst snd].
    destruct (ref_no_close text (includes_none _ _ E)) as [R M].
    rewrite R, M. cbn. now rewrite !append_nil_r.
Qed.

Lemma handle_content_routed (st : State) (f : string) :
  fits (insideThinkTag st) f = true ->
  routed st (insideThinkTag st) f (handle_content st f).
Proof.
  rewrite handle_content_settle. unfold fits.
  destruct (insideThinkTag st) eqn:M.
  - (* read in reasoning mode: no opening tag *)
    intros H. apply negb_true_iff in H. rewrite H.
    apply settle_reasoning.
    destruct (indexOf f CLOSE_TAG) as [j|]; [| exact I].
    destruct (includes (drop _ f) OPEN_TAG) eqn:D; [| reflexivity].
    apply includes_drop in D. congruence.
  - destruct (indexOf f OPEN_TAG) as [i|] eqn:E.
    + (* read in content mode, beginning with the opening tag *)
      intros H. apply andb_true_iff in H as [Z H].
      apply Nat.eqb_eq in Z. subst i.
      assert (O : includes f OPEN_TAG = true) by (unfold includes; now rewrite E).
      rewrite O. unfold replace. rewrite E.
      change (take 0 f +++ "" +++ drop (0 + String.length OPEN_TAG) f)
        with (take 0 f +++ drop (String.length OPEN_TAG) f).
      replace (take 0 f) with "" by (now destruct f).
      cbn [String.append].
      set (r := drop (String.length OPEN_TAG) f) in *.
      assert (F : f = OPEN_TAG +++ r).
      { apply startsWith_spec. now apply indexOf_zero. }
      assert (S : routed st true r (settle st true r)).
      { apply settle_reasoning.
        destruct (indexOf r CLOSE_TAG) as [j|]; [| exact I].
        now apply negb_true_iff in H. }
      unfold routed in *. cbv zeta in *.
      rewrite F at 1 2 3 4.
      destruct (ref_open_first r) as [-> ->]. exact S.
    + (* read in content mode, without any tag *)
      intros H. apply negb_true_iff in H.
      rewrite (includes_none _ _ E). unfold routed, settle. rewrite H.
      destruct (ref_no_open f (includes_none _ _ E)) as [R M'].
      rewrite R, M'. cbn. now rewrite append_nil_r.
Qed.

Lemma chunk_routed (st : State) (f : string) :
  fits (insideThinkTag st) f = true ->
  let out := process_chunk st (content_chunk f) in
  reasoning_text (snd out) = fst (ref_scan (insideThinkTag st) 0 f)
  /\ content_text (snd out) = snd (ref_scan (insideThinkTag st) 0 f)
  /\ insideThinkTag (fst out) = ref_mode (insideThinkTag st) 0 f
  /\ fullContent (fst out)
     = fullContent st +++ snd (ref_scan (insideThinkTag st) 0 f)
  /\ toolCallsMap (fst out) = toolCallsMap st.
Proof.
  intros H. cbv zeta.
  unfold process_chunk, content_chunk, process_delta.
  cbn [choices delta reasoning content tool_calls opt_truthy].
  destruct (truthy f) eqn:T.
  - pose proof (handle_content_routed st f H) as R. unfold routed in R.
    destruct (handle_content st f) as [[st1 evs] skipped].
    cbn [fst snd] in R. destruct skipped; cbn [fst snd app]; exact R.
  - apply truthy_empty_inv in T. subst f. cbn.
    now rewrite append_nil_r.
Qed.

(** *** Whole streams *)

Lemma decode_fragments (fs : list string) :
  forall st : State,
  tags_whole (insideThinkTag st) fs = true ->
  let out := process_chunks st (map content_chunk fs) in
  let ref := ref_scan (insideThinkTag st) 0 (stream fs) in
  reasoning_text (snd out) = fst ref
  /\ content_text (snd out) = snd ref
  /\ insideThinkTag (fst out) = ref_mode (insideThinkTag st) 0 (stream fs)
  /\ fullContent (fst out) = fullContent st +++ snd ref
  /\ toolCallsMap (fst out) = toolCallsMap st.
Proof.
  induction fs as [|f rest IH]; intros st W.
  - cbn. now rewrite append_nil_r.
  - cbn [tags_whole] in W. cbv zeta in W.
    apply andb_true_iff in W as [W Wrest].
    apply andb_true_iff in W as [Wf Wc]. apply negb_true_iff in Wc.
    cbn [map process_chunks stream].
    pose proof (chunk_routed st f Wf) as C. cbv zeta in C.
    destruct (process_chunk st (content_chunk f)) as [st1 ev1].
    cbn [fst snd] in C. destruct C as (R1 & C1 & M1 & F1 & T1).
    rewrite <- M1 in Wrest.
    specialize (IH st1 Wrest). cbv zeta in IH.
    destruct (process_chunks st1 (map content_chunk rest)) as [st2 ev2].
    cbn [fst snd] in IH |- *. destruct IH as (R2 & C2 & M2 & F2 & T2).
    destruct (ref_app f (stream rest) (ref_mode (insideThinkTag st) 0 f) Wc
                f "" (insideThinkTag st) 0 eq_refl (Nat.le_0_l _) eq_refl)
      as [RA MA].
    rewrite RA, MA. cbn [fst snd].
    rewrite reasoning_text_app, content_text_app, R1, C1, R2, C2, M2, F2, F1,
      T2, T1, M1.
    now rewrite append_assoc.
Qed.

(** C1, as amended.  When every tag of the stream reaches the decoder
    whole and in place -- no tag the reference is waiting for is cut by a
    fragment boundary; a fragment read in reasoning mode holds no opening
    tag; a fragment read in content mode either holds no tag at all, or
    begins with the opening tag and holds no second opening tag after the
    closing tag that follows -- the reasoning events concatenate to the
    text that stands between the tags of the whole stream, the content
    events and the assembled final content to the text outside them, and
    the mode the decoder ends in is the mode the stream ends in: it is
    carried from one fragment to the next. *)
Theorem decode_routes_whole_tags (fs : list string) :
  tags_whole false fs = true ->
  let chunks := map content_chunk fs in
  let evs := decode chunks in
  let ref := ref_split (stream fs) in
  reasoning_text evs = fst ref
  /\ content_text evs = snd ref
  /\ msg_content (snd (run_decoder chunks))
     = (if truthy (snd ref) then Some (snd ref) else None)
  /\ insideThinkTag (fst (process_chunks initial chunks))
     = ref_mode false 0 (stream fs).
Proof.
  intros W.
  pose proof (decode_fragments fs initial W) as H. cbv zeta in H.
  unfold decode, run_decoder, ref_split. cbv zeta.
  destruct (process_chunks initial (map content_chunk fs)) as [st evs0].
  cbn [fst snd initial insideThinkTag fullContent toolCallsMap] in *.
  destruct H as (R & C & M & F & T).
  rewrite T. cbn [build_tool_calls map app].
  rewrite !app_nil_r, reasoning_text_app, content_text_app. cbn.
  rewrite !append_nil_r. unfold final_message. cbn.
  rewrite F. cbn. auto.
Qed.

Lemma decode_routes_whole_tags_witness :
  let fs := [ "<think>is a <"; " b?"; " yes</think>so a <"; " b";
              "<think>and</think>done" ] in
  tags_whole false fs = true
  /\ reasoning_text (decode (map content_chunk fs)) = "is a < b? yesand"
  /\ content_text (decode (map content_chunk fs)) = "so a < bdone".
Proof.
  intros fs. split; [reflexivity |].
  destruct (decode_routes_whole_tags fs eq_refl) as (R & C & _).
  split; [exact R | exact C].
Defined.

(** Streams on which the decoder does not route by the tags.
    (1) The chunk sequence of the specification, whose tags are cut by the
    chunk boundaries: the decoder sees no tag at all and sends every
    fragment, tag characters included, as content.
    (2) Text before an opening tag in the same fragment goes to reasoning.
    (3) The text before a closing tag goes to reasoning in content mode
    too, with no opening tag before it.
    (4) An opening tag that arrives in reasoning mode is dropped or kept
    depending on the chunking: the same stream text, its tags whole both
    times, gives two different reasoning texts.
    (5) An opening tag after the closing tag of the same fragment is not
    seen: the text after it goes to content, and so does the next
    fragment. *)
Lemma decode_split_tags_counterexample :
  (let evs := decode (map content_chunk
                          ["<thi"; "nk>hello"; " world</thi"; "nk>answer"]) in
   reasoning_text evs = ""
   /\ content_text evs = "<think>hello world</think>answer"
   /\ ~ (reasoning_text evs = "hello world" /\ content_text evs = "answer"))
  /\ (let evs := decode (map content_chunk ["so <think>let me see"]) in
      reasoning_text evs = "so let me see" /\ content_text evs = ""
      /\ ref_split "so <think>let me see" = ("let me see", "so "))
  /\ (let evs := decode (map content_chunk ["all done</think>"]) in
      reasoning_text evs = "all done" /\ content_text evs = ""
      /\ ref_split "all done</think>" = ("", "all done</think>"))
  /\ (stream ["<think>a<think>b</think>c"]
      = stream ["<think>a"; "<think>b</think>c"]
      /\ reasoning_text (decode (map content_chunk
                                     ["<think>a<think>b</think>c"]))
         = "a<think>b"
      /\ reasoning_text (decode (map content_chunk
                                     ["<think>a"; "<think>b</think>c"]))
         = "ab")
  /\ (let evs := decode (map content_chunk
                             ["<think>a</think>b<think>c"; "d"]) in
      reasoning_text evs = "a" /\ content_text evs = "b<think>cd"
      /\ ref_split (stream ["<think>a</think>b<think>c"; "d"])
         = ("acd", "b")).
Proof.
  cbv zeta. split; [| split; [| split; [| split]]].
  - split; [reflexivity |]. split; [reflexivity |].
    intros [H _]. vm_compute in H. discriminate.
  - repeat split.
  - repeat split.
  - split; [reflexivity |]. split; reflexivity.
  - repeat split.
Qed.

Lemma includes_nonempty (s p : string) :
  p <> "" -> includes s p = true -> truthy s = true.
Proof.
  intros Hp H. destruct s; [| reflexivity].
  unfold includes in H. now rewrite (indexOf_nil_pattern p Hp) in H.
Qed.

(** C10, as amended.  A content fragment that contains the opening tag, and
    whose text without that tag holds no closing tag, goes to the reasoning
    stream whole: the one event sent for it is a reasoning event with the
    text before the tag followed by the text after it; no content event is
    sent, the assembled content is left as it was, and the decoder is in
    reasoning mode afterwards. *)
Theorem opening_fragment_goes_to_reasoning (st : State) (fragment : string) :
  includes fragment OPEN_TAG = true ->
  includes (replace fragment OPEN_TAG "") CLOSE_TAG = false ->
  exists pre post,
    fragment = pre +++ OPEN_TAG +++ post
    /\ process_chunk st (content_chunk fragment)
       = ({| fullContent := fullContent st; insideThinkTag := true;
             toolCallsMap := toolCallsMap st |},
          [onReasoning (pre +++ post)]).
Proof.
  intros Ho Hc.
  pose proof (includes_nonempty fragment OPEN_TAG
                (tag_nonempty _ open_is_tag) Ho) as T.
  assert (I := Ho). unfold includes in I.
  destruct (indexOf fragment OPEN_TAG) as [i|] eqn:E; [| discriminate].
  exists (take i fragment), (drop (i + String.length OPEN_TAG) fragment).
  split; [now apply indexOf_spec |].
  assert (Rp : replace fragment OPEN_TAG ""
               = take i fragment +++ drop (i + String.length OPEN_TAG) fragment).
  { unfold replace. now rewrite E. }
  rewrite <- Rp.
  unfold process_chunk, content_chunk, process_delta.
  cbn [choices delta reasoning content tool_calls opt_truthy].
  rewrite T. unfold handle_content. rewrite Ho, Hc. reflexivity.
Qed.

Lemma opening_fragment_goes_to_reasoning_witness :
  exists pre post,
    "so <think>let me see" = pre +++ OPEN_TAG +++ post
    /\ process_chunk initial (content_chunk "so <think>let me see")
       = ({| fullContent := ""; insideThinkTag := true; toolCallsMap := [] |},
          [onReasoning (pre +++ post)]).
Proof.
  exact (opening_fragment_goes_to_reasoning
           initial "so <think>let me see" eq_refl eq_refl).
Defined.

(** A fragment with the opening tag and without the closing tag, in which
    taking the opening tag out puts a closing tag together: the decoder
    leaves reasoning mode and sends the rest as content. *)
Lemma opening_fragment_counterexample :
  let fragment := "</thi<think>nk>x" in
  includes fragment OPEN_TAG = true
  /\ includes fragment CLOSE_TAG = false
  /\ process_chunk initial (content_chunk fragment)
     = ({| fullContent := "x"; insideThinkTag := false; toolCallsMap := [] |},
        [onToken "x"])
  /\ snd (process_chunk initial (content_chunk fragment))
     <> [onReasoning (replace fragment OPEN_TAG "")].
Proof. cbv zeta. repeat split. discriminate. Qed.

End DecoderTheorems.

(** ** Stream decoder: assembling the tool calls *)

Module DecoderToolCallFacts.
Import JsString JsStringFacts Decoder.























Lemma handle_content_tools (st : State) (c : string) :
  toolCallsMap (fst (fst (handle_content st c))) = toolCallsMap st.
Proof.
  unfold handle_content.
  destruct (includes c OPEN_TAG);
    repeat match goal with
           | |- context [if ?b then _ else _] => destruct b
           end; reflexivity.
Qed.

Lemma handle_content_skips (st : State) (c : string) :
  snd (handle_content st c)
  = includes (if includes c OPEN_TAG then replace c OPEN_TAG "" else c) CLOSE_TAG.
Proof.
  unfold handle_content.
  destruct (includes c OPEN_TAG);
    repeat match goal with
           | |- context [if ?b then _ else _] => destruct b eqn:?
           end; reflexivity || congruence.
Qed.

Lemma handle_content_reports_none (st : State) (c : string) :
  reported_tool_calls (snd (fst (handle_content st c))) = [].
Proof.
  unfold handle_content.
  destruct (includes c OPEN_TAG);
    repeat match goal with
           | |- context [if ?b then _ else _] => destruct b
           end; reflexivity.
Qed.

Lemma reported_app (a b : list Callback) :
  reported_tool_calls (a ++ b) = reported_tool_calls a ++ reported_tool_calls b.
Proof.
  induction a as [|x a IH]; simpl; [reflexivity |].
  destruct x; simpl; now rewrite IH.
Qed.

Lemma reported_map (l : list ToolCall) :
  reported_tool_calls (map onToolCall l) = l.
Proof. induction l as [|x l IH]; simpl; [reflexivity | now rewrite IH]. Qed.

Lemma process_chunk_reports_none (st : State) (chunk : OpenRouterStreamChunk) :
  reported_tool_calls (snd (process_chunk st chunk)) = [].
Proof.
  unfold process_chunk. destruct (choices chunk) as [|choice rest]; [reflexivity |].
  unfold process_delta.
  destruct (opt_truthy (content (delta choice))) as [c|].
  - pose proof (handle_content_reports_none st c) as H.
    destruct (handle_content st c) as [[st1 evc] skipped]. cbn [fst snd] in H.
    destruct skipped; cbn [snd]; rewrite reported_app, H, app_nil_r;
      destruct (opt_truthy (reasoning (delta choice))); reflexivity.
  - cbn [snd]. rewrite app_nil_r.
    destruct (opt_truthy (reasoning (delta choice))); reflexivity.
Qed.







End DecoderToolCallFacts.

(** ** Capability registry *)

Module RegistryFacts.
Import JsString Js Json Registry.

(** C5. Whatever the registry, the name and the argument text, and whatever
    the executor does, [executeTool] returns a [{success, result}] value and
    throws nothing: an unknown name gives a failed result, an argument text
    that [JSON.parse] rejects gives a failed result, an exception thrown by
    the executor is turned into a failed result carrying its message, and an
    executor that returns has its result passed on. *)
Theorem executeTool_never_throws (Env : Type) (reg : registry Env)
        (name argsJson : string) (env : Env) :
  exists (env' : Env) (r : ToolExecutionResult),
    executeTool reg name argsJson env = (env', Normal r)
    /\ match registry_get reg name with
       | None => env' = env /\ r = failed ("Unknown tool: " +++ name)
       | Some tool =>
           match JSON_parse (or_else argsJson "{}") with
           | Throw _ =>
               env' = env
               /\ r = failed ("Invalid tool arguments JSON: " +++ argsJson)
           | Normal args =>
               env' = fst (executor tool args env)
               /\ match snd (executor tool args env) with
                  | Normal res => r = res
                  | Throw e =>
                      r = failed ("Tool execution error: "
                                  +++ message_or_string e)
                  end
           end
       end.
Proof.
  unfold executeTool.
  destruct (registry_get reg name) as [tool|].
  - destruct (JSON_parse (or_else argsJson "{}")) as [args|e].
    + destruct (executor tool args env) as [env1 [res|e]]; cbn.
      * exists env1, res. auto.
      * eexists env1, _. auto.
    + eexists env, _. auto.
  - eexists env, _. auto.
Qed.

Lemma executeTool_never_throws_witness :
  executeTool Scenario.two_tools "boom" "{}" tt
  = (tt, Normal (failed "Tool execution error: kaput"))
  /\ executeTool Scenario.two_tools "echo" "{" tt
     = (tt, Normal (failed "Invalid tool arguments JSON: {"))
  /\ executeTool Scenario.two_tools "missing" "{}" tt
     = (tt, Normal (failed "Unknown tool: missing")).
Proof.
  split; [| split].
  - destruct (executeTool_never_throws unit Scenario.two_tools "boom" "{}" tt)
      as (env' & r & E & H).
    cbn in H. destruct H as [-> ->]. exact E.
  - destruct (executeTool_never_throws unit Scenario.two_tools "echo" "{" tt)
      as (env' & r & E & H).
    cbn in H. destruct H as [-> ->]. exact E.
  - destruct (executeTool_never_throws unit Scenario.two_tools "missing" "{}" tt)
      as (env' & r & E & H).
    cbn in H. destruct H as [-> ->]. exact E.
Defined.

(** The same fact in the form the loops use. *)
Lemma executeTool_returns (Env : Type) (reg : registry Env)
      (name argsJson : string) (env : Env) :
  exists r, snd (executeTool reg name argsJson env) = Normal r.
Proof.
  unfold executeTool.
  destruct (registry_get reg name) as [tool|]; [| eexists; reflexivity].
  destruct (JSON_parse (or_else argsJson "{}")) as [args|e];
    [| eexists; reflexivity].
  destruct (executor tool args env) as [env1 [res|e]]; eexists; reflexivity.
Qed.

End RegistryFacts.

(** ** Task store and scheduler *)

Module SchedulerFacts.
Import JsString Js Json Db.

Lemma status_eqb_eq (a b : task_status) : status_eqb a b = true <-> a = b.
Proof. destruct a, b; simpl; split; congruence. Qed.

(** C9. A task returned by the due-task query comes from a stored row whose
    status is [active] and whose next run time is not null and, read by
    [datetime], at or before now; so it is never a paused, completed or
    errored task, whatever time that task has stored. *)
Theorem getDueTasks_only_active_and_due
        (datetime : string -> option Z) (datetime_now : Z) (db : Db.t)
        (task : ScheduledTask) :
  In task (getDueTasks datetime datetime_now db) ->
  (exists row, In row (scheduled_tasks db) /\ task = task_of_row row)
  /\ status task = active
  /\ (exists text instant,
        next_run task = Some text
        /\ datetime text = Some instant
        /\ (instant <= datetime_now)%Z)
  /\ status task <> paused /\ status task <> completed /\ status task <> error.
Proof.
  unfold getDueTasks. intros H.
  apply in_map_iff in H as (row & <- & Hin).
  apply filter_In in Hin as [Hin Hdue].
  unfold is_due in Hdue. apply andb_true_iff in Hdue as [Hs Hn].
  apply status_eqb_eq in Hs.
  split; [now exists row |].
  cbn [status next_run task_of_row]. rewrite Hs.
  split; [reflexivity |].
  split.
  - destruct (row_next_run row) as [text|]; [| discriminate].
    destruct (datetime text) as [instant|] eqn:D; [| discriminate].
    exists text, instant. repeat split; auto. now apply Z.leb_le.
  - repeat split; discriminate.
Qed.

Lemma getDueTasks_only_active_and_due_witness :
  let task := task_of_row (Scenario.task_row 1 once active (Some "past")) in
  getDueTasks Scenario.toy_datetime 200 Scenario.four_statuses = [task]
  /\ status task = active
  /\ status task <> paused /\ status task <> completed /\ status task <> error.
Proof.
  intros task. split; [reflexivity |].
  destruct (getDueTasks_only_active_and_due
              Scenario.toy_datetime 200 Scenario.four_statuses task)
    as (_ & A & _ & P).
  - left. reflexivity.
  - split; [exact A | exact P].
Defined.

(** The converse: every stored row that is active and due is returned. *)
Lemma getDueTasks_complete
      (datetime : string -> option Z) (datetime_now : Z) (db : Db.t)
      (row : TaskRow) (text : string) (instant : Z) :
  In row (scheduled_tasks db) ->
  row_status row = active ->
  row_next_run row = Some text ->
  datetime text = Some instant ->
  (instant <= datetime_now)%Z ->
  In (task_of_row row) (getDueTasks datetime datetime_now db).
Proof.
  intros Hin Hs Hn Hd Hle. unfold getDueTasks.
  apply in_map. apply filter_In. split; [exact Hin |].
  unfold is_due. rewrite Hs, Hn, Hd. simpl. now apply Z.leb_le.
Qed.

Section Process.
Variable World : Type.
Variable runAgentLoop :
  string -> string -> World * Db.t -> (World * Db.t) * completion string.
Variable uuidv4 : World -> string.
Variable now : World -> Z * World.
Variable toISOString : Z -> string.
Variable cron_validate : string -> bool.

Let processTask :=
  Scheduler.processTask World runAgentLoop uuidv4 now toISOString cron_validate.

Let the_run := Scheduler.the_run World runAgentLoop uuidv4 now.

Lemma updateTask_rows (db : Db.t) (tid : nat) (u : TaskUpdates) (row : TaskRow) :
  In row (scheduled_tasks (updateTask db tid u)) ->
  row_id row = tid ->
  exists old, In old (scheduled_tasks db) /\ row_id old = tid
              /\ row = apply_updates u old.
Proof.
  unfold updateTask. cbn [scheduled_tasks]. intros Hin Hid.
  apply in_map_iff in Hin as (old & E & Hin).
  destruct (row_id old =? tid) eqn:T.
  - apply Nat.eqb_eq in T. exists old. auto.
  - subst row. apply Nat.eqb_neq in T. contradiction.
Qed.

Lemma updateTask_ids (db : Db.t) (tid : nat) (u : TaskUpdates) :
  map row_id (scheduled_tasks (updateTask db tid u))
  = map row_id (scheduled_tasks db).
Proof.
  unfold updateTask. cbn [scheduled_tasks]. rewrite map_map.
  apply map_ext. intros r. now destruct (row_id r =? tid).
Qed.

(** C3, as amended.  One execution of a [once] task by [processTask].
    When the task still has its row at the end of the run, [processTask]
    returns normally, the store keeps the rows the run left, and every
    row of that task has a null next run time; its status is [completed]
    when the run returned and [error] when the run threw.  When the run
    itself deleted the task, the insert of the run log fails on the
    foreign key: [processTask] throws that error, the store is as the run
    left it and nobody is notified. *)
Theorem once_task_after_one_execution
        (task : ScheduledTask) (e : World * Db.t) :
  schedule_type task = once ->
  let run := the_run task e in
  let out := processTask task e in
  if task_stored (snd (fst run)) (id task) then
    snd out = Normal tt
    /\ map row_id (scheduled_tasks (snd (fst (fst out))))
       = map row_id (scheduled_tasks (snd (fst run)))
    /\ forall row,
         In row (scheduled_tasks (snd (fst (fst out)))) ->
         row_id row = id task ->
         row_next_run row = None
         /\ row_status row = match snd run with
                             | Normal _ => completed
                             | Throw _ => error
                             end
  else
    snd out = Throw FOREIGN_KEY
    /\ snd (fst (fst out)) = snd (fst run)
    /\ snd (fst out) = [].
Proof.
  intros Honce. cbv zeta.
  unfold processTask, Scheduler.processTask.
  unfold the_run, Scheduler.the_run, Scheduler.run_conversation.
  destruct (now (fst e)) as [startTime w0]. cbn [fst snd].
  destruct (runAgentLoop _ (prompt task) (w0, snd e)) as [e1 r].
  cbn [fst snd].
  destruct (now (fst e1)) as [t1 w1]. destruct (now w1) as [t2 w2].
  assert (L : forall status result error,
             Db.logTaskRun (snd e1)
               {| log_task_id := id task; log_run_at := toISOString t2;
                  log_duration_ms := (t1 - startTime)%Z;
                  log_status := status; log_result := result;
                  log_error := error |}
             = if task_stored (snd e1) (id task)
               then Normal {| conversations := conversations (snd e1);
                              messages := messages (snd e1);
                              scheduled_tasks := scheduled_tasks (snd e1);
                              task_run_logs :=
                                task_run_logs (snd e1)
                                ++ [ {| log_task_id := id task;
                                        log_run_at := toISOString t2;
                                        log_duration_ms := (t1 - startTime)%Z;
                                        log_status := status;
                                        log_result := result;
                                        log_error := error |} ] |}
               else Throw FOREIGN_KEY).
  { intros. reflexivity. }
  rewrite Honce.
  destruct r as [res|err]; rewrite L;
    destruct (task_stored (snd e1) (id task)); cbn [fst snd];
    try (destruct (now w2) as [t3 w3]; cbn [fst snd]);
    try (split; [reflexivity |]; split; reflexivity).
  - split; [reflexivity |]. split; [now rewrite updateTask_ids |].
    intros row Hin Hid.
    apply updateTask_rows in Hin as (old & _ & _ & ->); [| exact Hid].
    split; reflexivity.
  - split; [reflexivity |]. split; [now rewrite updateTask_ids |].
    intros row Hin Hid.
    apply updateTask_rows in Hin as (old & _ & _ & ->); [| exact Hid].
    split; reflexivity.
Qed.
End Process.

Lemma once_task_after_one_execution_witness :
  let task := task_of_row (Scenario.task_row 1 once active (Some "past")) in
  let out := Scenario.toy_process Scenario.answering_loop task
               (200%Z, Scenario.four_statuses) in
  snd out = Normal tt
  /\ forall row,
       In row (scheduled_tasks (snd (fst (fst out)))) ->
       row_id row = 1 ->
       row_next_run row = None /\ row_status row = completed.
Proof.
  intros task out.
  pose proof (once_task_after_one_execution
                Z Scenario.answering_loop (fun _ => "fresh-id") Scenario.tick
                (fun _ => "timestamp") (fun _ => true) task
                (200%Z, Scenario.four_statuses) eq_refl) as H.
  cbv zeta in H.
  change (task_stored _ (id task)) with true in H. cbv iota in H.
  destruct H as (R & _ & H).
  split; [exact R | exact H].
Defined.

(** A [once] task whose run throws ends in status [error], not
    [completed]; a [once] task whose run cancelled it has no row
    afterwards, and its execution ends with the foreign-key error of the
    log insert. *)
Lemma once_task_errored_counterexample :
  let task := task_of_row (Scenario.task_row 1 once active (Some "past")) in
  let out := Scenario.toy_process Scenario.failing_loop task
               (200%Z, Scenario.four_statuses) in
  let gone := Scenario.toy_process Scenario.cancelling_loop task
                (200%Z, Scenario.four_statuses) in
  (option_map status (getTask (snd (fst (fst out))) 1) = Some error
   /\ option_map next_run (getTask (snd (fst (fst out))) 1) = Some None
   /\ option_map status (getTask (snd (fst (fst out))) 1) <> Some completed)
  /\ (snd gone = Throw FOREIGN_KEY
      /\ getTask (snd (fst (fst gone))) 1 = None
      /\ option_map status (getTask (snd (fst (fst gone))) 1) <> Some completed).
Proof.
  cbv zeta. split.
  - split; [reflexivity |]. split; [reflexivity | discriminate].
  - split; [reflexivity |]. split; [reflexivity | discriminate].
Qed.

End SchedulerFacts.
(** ** Plan runner *)

Module PipelineFacts.
Import JsString Js Json Agent Pipeline.

Section Runner.
Variable Env : Type.
Variable enqueue_error : exn.
Variable run :
  string -> string -> option StepExecutionOptions -> Env * Controller ->
  (Env * Controller) * completion string.

Let run_step := Pipeline.run_step Env enqueue_error run.
Let run_steps := Pipeline.run_steps Env enqueue_error run.







End Runner.

(** A step executor that fails three times in a row, with the client
    listening: the first step is tried twice and given up, with an error
    event; the second step is still run, fails once and succeeds on its
    retry. *)
Lemma plan_runner_example :
  let out := run_steps nat Scenario.closed_stream_error (Scenario.flaky 3)
                       "c" "hello" None Scenario.two_steps
                       (0, Scenario.open_stream) in
  snd out = Normal tt
  /\ map snd (snd (fst out)) = [[true; true]; [true; false]]
  /\ map etype (enqueued (snd (fst (fst out))))
     = ["step_start"; "error"; "step_start"; "done"]
  /\ map data (firstn 2 (enqueued (snd (fst (fst out)))))
     = ["Search";
        "Step 1 (" +++ String QUOTE ("Search" +++ String QUOTE "")
        +++ ") failed: stream broke. Continuing..."]
  /\ fst (fst (fst out)) = 4.
Proof. cbv zeta. repeat split. Qed.


End PipelineFacts.

(** ** Step executor *)

Module AgentFacts.
Import JsString Js Json Decoder Registry Agent.

Section Loop.
Variable World : Type.
Variable callModel : string -> list Message -> World -> World * ModelReply.
Variable toolRegistry : registry (World * Db.t).
Variable buildSystemPrompt : option StepExecutionOptions -> string.
Variable getModel : string.

Let run_tools := Agent.run_tools World toolRegistry.
Let iteration := Agent.iteration World callModel toolRegistry.
Let while_loop := Agent.while_loop World callModel toolRegistry.
Let run_with_fuel :=
  Agent.run_with_fuel World callModel toolRegistry buildSystemPrompt getModel.
Let runAgentLoopStreaming :=
  Agent.runAgentLoopStreaming World callModel toolRegistry buildSystemPrompt
                              getModel.
Let always_requests := Agent.always_requests World callModel.
Let answered := Agent.answered World.

(** What a pass through the tool calls leaves alone. *)
Lemma run_tools_frame (conversationId : string) (calls : list ToolCall) :
  forall s : LoopState World,
  let out := run_tools conversationId calls s in
  snd out = Normal tt
  /\ loopCount (fst out) = loopCount s
  /\ modelCalls (fst out) = modelCalls s
  /\ finalResponse (fst out) = finalResponse s.
Proof.
  unfold run_tools.
  induction calls as [|toolCall rest IH]; intros s; cbn [Agent.run_tools].
  - cbn. auto.
  - match goal with
    | |- context [@executeTool ?T ?reg ?n ?a ?e] =>
        destruct (RegistryFacts.executeTool_returns T reg n a e) as [res E];
        destruct (@executeTool T reg n a e) as [env1 r]
    end.
    cbn [snd] in E. subst r. cbv beta iota zeta.
    match goal with
    | |- context [Agent.run_tools World toolRegistry conversationId rest ?s4] =>
        specialize (IH s4)
    end.
    cbv zeta in IH. exact IH.
Qed.

(** Each pass of the loop body makes one model call and counts one loop. *)
Lemma iteration_counts (conversationId model : string) (s : LoopState World) :
  loopCount (fst (iteration conversationId model s)) = S (loopCount s)
  /\ modelCalls (fst (iteration conversationId model s)) = S (modelCalls s).
Proof.
  unfold iteration, Agent.iteration. cbn [Agent.messages Agent.env].
  destruct (callModel model (messages s) (fst (env s))) as [w1 reply].
  destruct reply as [chunks | chunks err].
  - destruct (run_decoder chunks) as [cbs assistantMessage].
    destruct (msg_tool_calls assistantMessage) as [[|tc tcs]|];
      [cbn; auto | | cbn; auto].
    cbv beta iota zeta.
    match goal with
    | |- context [Agent.run_tools World toolRegistry conversationId ?cs ?s4] =>
        pose proof (run_tools_frame conversationId cs s4) as F;
        cbv zeta in F; unfold run_tools in F;
        destruct (Agent.run_tools World toolRegistry conversationId cs s4)
          as [s5 r]
    end.
    cbn in *. destruct F as (_ & L & M & _). auto.
  - destruct (process_chunks initial chunks) as [st cbs]. cbn. auto.
Qed.

Lemma while_loop_counts (conversationId model : string) (fuel : nat) :
  forall s : LoopState World,
  loopCount s <= MAX_TOOL_LOOPS ->
  let s' := fst (while_loop fuel conversationId model s) in
  loopCount s' <= MAX_TOOL_LOOPS
  /\ modelCalls s' + loopCount s = modelCalls s + loopCount s'.
Proof.
  unfold while_loop.
  induction fuel as [|fuel IH]; intros s Hle; cbn [Agent.while_loop].
  - cbn. auto.
  - destruct (loopCount s <? MAX_TOOL_LOOPS) eqn:G; [| cbn; auto].
    apply Nat.ltb_lt in G.
    destruct (iteration_counts conversationId model s) as [L M].
    unfold iteration in L, M.
    destruct (Agent.iteration World callModel toolRegistry conversationId
                              model s) as [s1 r].
    cbn [fst] in L, M.
    destruct r as [[|]|e]; cbn [fst].
    + assert (H1 : loopCount s1 <= MAX_TOOL_LOOPS) by lia.
      specialize (IH s1 H1). cbv zeta in IH. lia.
    + lia.
    + lia.
Qed.

(** The loop never needs more fuel than the cap leaves. *)
Lemma while_loop_fuel (conversationId model : string) (fuel : nat) :
  forall s : LoopState World,
  MAX_TOOL_LOOPS - loopCount s <= fuel ->
  while_loop fuel conversationId model s
  = while_loop (MAX_TOOL_LOOPS - loopCount s) conversationId model s.
Proof.
  unfold while_loop.
  induction fuel as [|fuel IH]; intros s Hf.
  - replace (MAX_TOOL_LOOPS - loopCount s) with 0 by lia. reflexivity.
  - destruct (loopCount s <? MAX_TOOL_LOOPS) eqn:G.
    + assert (G' := G). apply Nat.ltb_lt in G'.
      destruct (MAX_TOOL_LOOPS - loopCount s) as [|k] eqn:K; [lia |].
      cbn [Agent.while_loop]. rewrite G.
      destruct (iteration_counts conversationId model s) as [L _].
      unfold iteration in L.
      destruct (Agent.iteration World callModel toolRegistry conversationId
                                model s) as [s1 r].
      cbn [fst] in L.
      destruct r as [[|]|e]; try reflexivity.
      assert (Hk : k = MAX_TOOL_LOOPS - loopCount s1) by lia.
      rewrite Hk. apply IH. lia.
    + assert (G' := G). apply Nat.ltb_ge in G'.
      replace (MAX_TOOL_LOOPS - loopCount s) with 0 by lia.
      cbn [Agent.while_loop]. now rewrite G.
Qed.

Lemma finish_counts (s : LoopState World) :
  modelCalls (finish World s) = modelCalls s.
Proof. unfold finish. destruct (MAX_TOOL_LOOPS <=? loopCount s); reflexivity. Qed.

(** Every run of the step executor makes at most [MAX_TOOL_LOOPS] = 15
    model calls, whatever the provider answers and whatever the tools do. *)
Theorem model_calls_bounded (conversationId userMessage : string)
        (options : option StepExecutionOptions) (e : World * Db.t) :
  modelCalls (fst (runAgentLoopStreaming conversationId userMessage options e))
  <= MAX_TOOL_LOOPS.
Proof.
  unfold runAgentLoopStreaming, Agent.runAgentLoopStreaming, Agent.run_with_fuel.
  pose proof (while_loop_counts conversationId (chosen_model getModel options)
                MAX_TOOL_LOOPS
                (prepare World buildSystemPrompt conversationId userMessage
                         options e)) as H.
  cbv zeta in H. unfold while_loop in H.
  destruct (Agent.while_loop World callModel toolRegistry MAX_TOOL_LOOPS
              conversationId (chosen_model getModel options) _) as [s1 r].
  cbn [fst] in H.
  assert (P : loopCount (prepare World buildSystemPrompt conversationId
                                 userMessage options e) = 0) by reflexivity.
  assert (Q : modelCalls (prepare World buildSystemPrompt conversationId
                                  userMessage options e) = 0) by reflexivity.
  rewrite P, Q in H. specialize (H ltac:(lia)).
  destruct r as [u|ex]; cbn [fst].
  - rewrite finish_counts. lia.
  - lia.
Qed.

(** More fuel than the cap changes nothing: the loop is total. *)
Theorem run_with_fuel_enough (fuel : nat) (conversationId userMessage : string)
        (options : option StepExecutionOptions) (e : World * Db.t) :
  MAX_TOOL_LOOPS <= fuel ->
  run_with_fuel fuel conversationId userMessage options e
  = runAgentLoopStreaming conversationId userMessage options e.
Proof.
  intros H.
  unfold run_with_fuel, runAgentLoopStreaming, Agent.runAgentLoopStreaming,
    Agent.run_with_fuel.
  pose proof (while_loop_fuel conversationId (chosen_model getModel options)
                fuel
                (prepare World buildSystemPrompt conversationId userMessage
                         options e)) as F.
  unfold while_loop in F.
  assert (P : loopCount (prepare World buildSystemPrompt conversationId
                                 userMessage options e) = 0) by reflexivity.
  rewrite P, Nat.sub_0_r in F. rewrite (F H). reflexivity.
Qed.

(** *** A provider that always asks for a capability *)




(** *** A run that ends before the cap *)

Lemma iteration_break (conversationId model : string) (s : LoopState World) :
  snd (iteration conversationId model s) = Normal false ->
  answered (fst (iteration conversationId model s)).
Proof.
  unfold iteration, Agent.iteration. cbn [Agent.messages Agent.env].
  destruct (callModel model (messages s) (fst (env s))) as [w1 reply].
  destruct reply as [chunks | chunks err].
  - destruct (run_decoder chunks) as [cbs assistantMessage].
    destruct (msg_tool_calls assistantMessage) as [[|tc tcs]|] eqn:T.
    + intros _. unfold answered, Agent.answered. cbn.
      exists (msg_content assistantMessage), (Some []).
      rewrite last_last. auto.
    + cbv beta iota zeta.
      match goal with
      | |- context [Agent.run_tools World toolRegistry conversationId ?cs ?s4] =>
          pose proof (run_tools_frame conversationId cs s4) as F;
          cbv zeta in F; unfold run_tools in F;
          destruct (Agent.run_tools World toolRegistry conversationId cs s4)
            as [s5 r]
      end.
      cbn in *. destruct F as (-> & _). cbn. discriminate.
    + intros _. unfold answered, Agent.answered. cbn.
      exists (msg_content assistantMessage), None.
      rewrite last_last. auto.
  - destruct (process_chunks initial chunks) as [st cbs]. cbn. discriminate.
Qed.

Lemma while_loop_break (conversationId model : string) (fuel : nat) :
  forall s : LoopState World,
  MAX_TOOL_LOOPS - loopCount s <= fuel ->
  snd (while_loop fuel conversationId model s) = Normal tt ->
  loopCount (fst (while_loop fuel conversationId model s)) < MAX_TOOL_LOOPS ->
  answered (fst (while_loop fuel conversationId model s)).
Proof.
  unfold while_loop.
  induction fuel as [|fuel IH]; intros s Hf; cbn [Agent.while_loop].
  - cbn. intros _ H. lia.
  - destruct (loopCount s <? MAX_TOOL_LOOPS) eqn:G.
    + apply Nat.ltb_lt in G.
      pose proof (iteration_break conversationId model s) as B.
      destruct (iteration_counts conversationId model s) as [L _].
      unfold iteration in B, L.
      destruct (Agent.iteration World callModel toolRegistry conversationId
                                model s) as [s1 r].
      cbn [fst snd] in *.
      destruct r as [[|]|ex].
      * apply IH. lia.
      * intros _ _. now apply B.
      * cbn. discriminate.
    + apply Nat.ltb_ge in G. cbn. intros _ H. lia.
Qed.

(** A run that returns after fewer than 15 model calls returns exactly the
    content of its last assistant message, which carried no tool call. *)
Theorem answer_before_cap
        (conversationId userMessage : string)
        (options : option StepExecutionOptions) (e : World * Db.t)
        (answer : string) :
  let out := runAgentLoopStreaming conversationId userMessage options e in
  snd out = Normal answer ->
  modelCalls (fst out) < MAX_TOOL_LOOPS ->
  exists (c : option string) (tcs : option (list ToolCall)),
    last (messages (fst out))
         {| role := ""; content := None; tool_calls := None;
            tool_call_id := None |}
    = {| role := "assistant"; content := c; tool_calls := tcs;
         tool_call_id := None |}
    /\ (tcs = None \/ tcs = Some [])
    /\ answer = opt_or c "".
Proof.
  cbv zeta.
  unfold runAgentLoopStreaming, Agent.runAgentLoopStreaming, Agent.run_with_fuel.
  set (s0 := prepare World buildSystemPrompt conversationId userMessage options e).
  pose proof (while_loop_break conversationId (chosen_model getModel options)
                MAX_TOOL_LOOPS s0 ltac:(lia)) as B.
  pose proof (while_loop_counts conversationId (chosen_model getModel options)
                MAX_TOOL_LOOPS s0 ltac:(cbn; lia)) as K.
  cbv zeta in K. unfold while_loop in B, K.
  destruct (Agent.while_loop World callModel toolRegistry MAX_TOOL_LOOPS
              conversationId (chosen_model getModel options) s0) as [s1 r].
  cbn [fst snd] in *. destruct K as [_ K].
  change (loopCount s0) with 0 in K. change (modelCalls s0) with 0 in K.
  destruct r as [[]|ex]; cbn [fst snd]; [| discriminate].
  rewrite finish_counts. intros Ha Hc.
  assert (Hl : loopCount s1 < MAX_TOOL_LOOPS) by lia.
  destruct (B eq_refl Hl) as (c & tcs & Hlast & Ht & Hf).
  exists c, tcs. unfold finish in *.
  assert (G : (MAX_TOOL_LOOPS <=? loopCount s1) = false)
    by (apply Nat.leb_gt; lia).
  rewrite G in *. cbn in *. injection Ha as <-. auto.
Qed.
End Loop.


Lemma answer_before_cap_witness :
  exists (c : option string) (tcs : option (list ToolCall)),
    last (messages (fst (Scenario.scripted_run 13)))
         {| role := ""; content := None; tool_calls := None;
            tool_call_id := None |}
    = {| role := "assistant"; content := c; tool_calls := tcs;
         tool_call_id := None |}
    /\ (tcs = None \/ tcs = Some [])
    /\ "All done." = opt_or c "".
Proof.
  apply (answer_before_cap
           nat (Scenario.scripted 13) Scenario.no_tools
           (fun _ => "You are an assistant.") "some/model"
           "conversation-1" "What is new?" None (0, Scenario.empty_db)
           "All done.").
  - reflexivity.
  - apply Nat.ltb_lt. reflexivity.
Defined.

Lemma run_with_fuel_enough_witness :
  Agent.run_with_fuel nat (Scenario.scripted 3) Scenario.no_tools
    Scenario.system_prompt "some/model" 20
    "conversation-1" "What is new?" None (0, Scenario.empty_db)
  = Agent.runAgentLoopStreaming nat (Scenario.scripted 3) Scenario.no_tools
      Scenario.system_prompt "some/model"
      "conversation-1" "What is new?" None (0, Scenario.empty_db).
Proof.
  apply (run_with_fuel_enough nat (Scenario.scripted 3) Scenario.no_tools
           Scenario.system_prompt "some/model" 20).
  apply Nat.leb_le. reflexivity.
Defined.

(** C2, at the input that shows the defect.  The provider asks for a
    capability on each of its first 14 calls and gives its final answer,
    with no tool call, on the 15th.  No tool call is pending, yet the run
    returns that answer with the truncation notice appended. *)
Theorem notice_appended_to_answer_at_cap :
  snd (Scenario.scripted_run 14)
  = Normal ("All done." +++ LIMIT_NOTICE)
  /\ modelCalls (fst (Scenario.scripted_run 14)) = 15
  /\ last (messages (fst (Scenario.scripted_run 14)))
          {| role := ""; content := None; tool_calls := None;
             tool_call_id := None |}
     = {| role := "assistant"; content := Some "All done.";
          tool_calls := None; tool_call_id := None |}
  /\ snd (Scenario.scripted_run 14) <> Normal "All done.".
Proof.
  split; [vm_compute; reflexivity |].
  split; [vm_compute; reflexivity |].
  split; [vm_compute; reflexivity |].
  vm_compute. discriminate.
Qed.

(** The same provider giving its answer one call earlier: no notice. *)
Lemma answer_on_fourteenth_call :
  snd (Scenario.scripted_run 13) = Normal "All done."
  /\ modelCalls (fst (Scenario.scripted_run 13)) = 14.
Proof. split; vm_compute; reflexivity. Qed.

Lemma model_calls_bounded_example :
  modelCalls (fst (Scenario.scripted_run 40)) = 15
  /\ snd (Scenario.scripted_run 40) = Normal LIMIT_NOTICE.
Proof. split; vm_compute; reflexivity. Qed.

End AgentFacts.

(** ** Planner *)

Module PlannerFacts.
Import JsString Js Json Planner.

(** [parseTimeline] throws nothing: both [try] blocks catch everything. *)
Theorem parseTimeline_never_throws (content : string) :
  exists r, parseTimeline content = Normal r.
Proof.
  unfold parseTimeline.
  destruct (primary content) as [[t|]|e]; cbn;
    try (eexists; reflexivity);
    destruct (fallback content) as [[t'|]|e']; cbn; eexists; reflexivity.
Qed.

Lemma step_is_valid_well_typed (s : json) :
  step_is_valid s = Normal true -> well_typed_step s = true.
Proof.
  unfold step_is_valid, well_typed_step.
  destruct s as [| b | m x | t | items | members]; cbn; try discriminate.
  destruct (typeof_number (lookup members "id")); cbn; [| discriminate].
  destruct (typeof_string (lookup members "title")); cbn; [| discriminate].
  destruct (typeof_string (lookup members "action")); cbn; [| discriminate].
  now intros [= ->].
Qed.

Lemma filter_steps_well_typed (items : list json) :
  forall kept, filter_steps items = Normal kept ->
               forallb well_typed_step kept = true.
Proof.
  induction items as [|s items IH]; intros kept; cbn.
  - now intros [= <-].
  - destruct (step_is_valid s) as [keep|e] eqn:V; cbn; [| discriminate].
    destruct (filter_steps items) as [kept'|e]; cbn; [| discriminate].
    intros [= <-]. specialize (IH kept' eq_refl).
    destruct keep; [| exact IH].
    cbn. now rewrite (step_is_valid_well_typed s V), IH.
Qed.

(** A plan returned by the first [try] block is not empty and every step
    of it has the four fields with their types. *)
Theorem primary_plan_is_validated (content : string) (t : PlannerTimeline) :
  primary content = Normal (Some t) ->
  steps t <> [] /\ forallb well_typed_step (steps t) = true.
Proof.
  unfold primary.
  destruct (regex_match STEPS_RE content) as [jsonMatch|]; [| discriminate].
  destruct (JSON_parse jsonMatch) as [parsed|e]; cbn; [| discriminate].
  destruct (get_prop parsed "steps") as [[[| | | | items |]|]|e]; cbn;
    try discriminate.
  destruct (List.length items); [discriminate |].
  destruct (filter_steps items) as [validSteps|e] eqn:F; cbn; [| discriminate].
  destruct (List.length validSteps) eqn:L; [discriminate |].
  intros [= <-]. cbn. split.
  - intros ->. discriminate.
  - now apply (filter_steps_well_typed items).
Qed.

(** The planner output of the specification parses to its two steps, with
    those fields, in that order. *)
Lemma parseTimeline_two_steps :
  parseTimeline Scenario.two_step_output
  = Normal (Some {| steps := Scenario.two_step_plan |}).
Proof. vm_compute. reflexivity. Qed.

Lemma primary_plan_is_validated_witness :
  Scenario.two_step_plan <> []
  /\ forallb well_typed_step Scenario.two_step_plan = true.
Proof.
  apply (primary_plan_is_validated
           Scenario.two_step_output {| steps := Scenario.two_step_plan |}).
  vm_compute. reflexivity.
Defined.

(** C7, at the input that shows the defect.  The planner output holds no
    object with a [steps] array but a bare array whose one element has a
    text for its id and neither action nor description.  The second [try]
    block returns that array as the plan: the step is not well typed. *)
Theorem fallback_returns_unvalidated_steps :
  let content := jtext "Plan: [{'id':'1','title':'Search'}]" in
  primary content = Normal None
  /\ parseTimeline content
     = Normal (Some {| steps := [ JObj [("id", JStr "1");
                                          ("title", JStr "Search")] ] |})
  /\ forallb well_typed_step
             [ JObj [("id", JStr "1"); ("title", JStr "Search")] ] = false.
Proof. cbv zeta. split; [| split]; vm_compute; reflexivity. Qed.

(** The same through a parse exception: the object with [steps] is
    malformed, the array inside it is not, and the array comes back whole,
    its second element being a number. *)
Lemma fallback_after_parse_exception :
  let content := jtext "{ oops 'steps': [{'id':1,'title':'t'}, 5] }" in
  (exists e, primary content = Throw e)
  /\ parseTimeline content
     = Normal (Some {| steps := [ JObj [("id", JNum 1 0); ("title", JStr "t")];
                                  JNum 5 0 ] |}).
Proof.
  cbv zeta. split.
  - eexists. vm_compute. reflexivity.
  - vm_compute. reflexivity.
Qed.

End PlannerFacts.

(* ================================================================== *)
(** * Further properties *)
(* ================================================================== *)

(** ** Stream decoder: the final message and the events agree *)

Module DecoderInvariantFacts.
Import JsString JsStringFacts Decoder.

Lemma content_text_reasoning_only (o : option string) :
  content_text (match o with Some r => [onReasoning r] | None => [] end) = "".
Proof. now destruct o. Qed.

Lemma handle_content_appends (st : State) (c : string) :
  fullContent (fst (fst (handle_content st c)))
  = fullContent st +++ content_text (snd (fst (handle_content st c))).
Proof.
  unfold handle_content.
  destruct (includes (if includes c OPEN_TAG then replace c OPEN_TAG "" else c)
                     CLOSE_TAG) eqn:C.
  - cbn [fst snd fullContent].
    rewrite DecoderTagFacts.content_text_app.
    destruct (truthy (hd "" _)); destruct (truthy (join _ CLOSE_TAG));
      cbn; now rewrite ?append_nil_r.
  - destruct (if includes c OPEN_TAG then true else insideThinkTag st);
      cbn; now rewrite ?append_nil_r.
Qed.

Lemma process_chunk_appends (st : State) (chunk : OpenRouterStreamChunk) :
  fullContent (fst (process_chunk st chunk))
  = fullContent st +++ content_text (snd (process_chunk st chunk)).
Proof.
  unfold process_chunk.
  destruct (choices chunk) as [|choice rest]; [cbn; now rewrite append_nil_r |].
  unfold process_delta.
  destruct (opt_truthy (content (delta choice))) as [c|].
  - pose proof (handle_content_appends st c) as H.
    destruct (handle_content st c) as [[st1 evc] skipped]. cbn [fst snd] in H.
    destruct skipped; cbn [fst snd fullContent];
      rewrite DecoderTagFacts.content_text_app, content_text_reasoning_only;
      exact H.
  - cbn [fst snd fullContent].
    rewrite DecoderTagFacts.content_text_app, content_text_reasoning_only.
    cbn. now rewrite append_nil_r.
Qed.

Lemma process_chunks_appends (chunks : list OpenRouterStreamChunk) :
  forall st : State,
  fullContent (fst (process_chunks st chunks))
  = fullContent st +++ content_text (snd (process_chunks st chunks)).
Proof.
  induction chunks as [|chunk chunks IH]; intros st.
  - cbn. now rewrite append_nil_r.
  - cbn [process_chunks].
    pose proof (process_chunk_appends st chunk) as H1.
    destruct (process_chunk st chunk) as [st1 ev1]. cbn [fst snd] in H1.
    specialize (IH st1).
    destruct (process_chunks st1 chunks) as [st2 ev2]. cbn [fst snd] in *.
    now rewrite IH, H1, DecoderTagFacts.content_text_app, append_assoc.
Qed.

Lemma process_chunks_reports_none (chunks : list OpenRouterStreamChunk) :
  forall st : State,
  reported_tool_calls (snd (process_chunks st chunks)) = [].
Proof.
  induction chunks as [|chunk chunks IH]; intros st; [reflexivity |].
  cbn [process_chunks].
  pose proof (DecoderToolCallFacts.process_chunk_reports_none st chunk) as H1.
  destruct (process_chunk st chunk) as [st1 ev1]. cbn [snd] in H1.
  specialize (IH st1).
  destruct (process_chunks st1 chunks) as [st2 ev2]. cbn [snd] in *.
  now rewrite DecoderToolCallFacts.reported_app, H1, IH.
Qed.

(** For every chunk sequence, tags or not, the message handed to [onDone]
    agrees with what was streamed: its content is the concatenation of the
    content tokens sent (null when that is empty) and its tool calls are
    exactly the tool calls reported, in the same order (null when there is
    none). *)
Theorem final_message_agrees_with_events (chunks : list OpenRouterStreamChunk) :
  let evs := fst (run_decoder chunks) in
  let message := snd (run_decoder chunks) in
  msg_content message
  = (if truthy (content_text evs) then Some (content_text evs) else None)
  /\ msg_tool_calls message
     = match reported_tool_calls evs with
       | [] => None
       | calls => Some calls
       end.
Proof.
  cbv zeta. unfold run_decoder.
  pose proof (process_chunks_appends chunks initial) as A.
  pose proof (process_chunks_reports_none chunks initial) as R.
  destruct (process_chunks initial chunks) as [st evs]. cbn [fst snd] in *.
  cbn [fullContent initial] in A. cbn [String.append] in A.
  rewrite DecoderTagFacts.content_text_app, DecoderToolCallFacts.reported_app.
  rewrite DecoderTagFacts.content_text_tool_calls, R,
    DecoderToolCallFacts.reported_map, append_nil_r.
  unfold final_message. cbn [msg_content msg_tool_calls app]. rewrite A.
  split; [reflexivity |].
  now destruct (build_tool_calls (toolCallsMap st)).
Qed.

(** A chunk whose content closes a reasoning tag ends its pass through the
    loop body with [continue]: the tool-call fragments the same chunk
    carries are not accumulated, and the decoder is back in content mode. *)
Theorem closing_chunk_skips_tool_calls
        (st : State) (chunk : OpenRouterStreamChunk) :
  closes_think chunk = true ->
  toolCallsMap (fst (process_chunk st chunk)) = toolCallsMap st
  /\ insideThinkTag (fst (process_chunk st chunk)) = false.
Proof.
  unfold process_chunk, closes_think.
  destruct (choices chunk) as [|choice rest]; [discriminate |].
  unfold process_delta.
  destruct (opt_truthy (content (delta choice))) as [c|]; [| discriminate].
  intros H.
  pose proof (DecoderToolCallFacts.handle_content_tools st c) as T.
  pose proof (DecoderToolCallFacts.handle_content_skips st c) as S.
  rewrite H in S.
  assert (I : insideThinkTag (fst (fst (handle_content st c))) = false).
  { unfold handle_content. rewrite H. reflexivity. }
  destruct (handle_content st c) as [[st1 evc] skipped].
  cbn [fst snd] in *. subst skipped. cbn [fst]. auto.
Qed.

Lemma closing_chunk_skips_tool_calls_witness :
  let chunk :=
    {| choices :=
         [ {| delta := {| reasoning := None;
                          content := Some "done thinking</think>Answer";
                          tool_calls := Some [fragment 0 "call_1" "search" "{}"] |};
              finish_reason := None |} ] |} in
  toolCallsMap (fst (process_chunk initial chunk)) = []
  /\ insideThinkTag (fst (process_chunk initial chunk)) = false.
Proof.
  intros chunk.
  exact (closing_chunk_skips_tool_calls initial chunk eq_refl).
Defined.

End DecoderInvariantFacts.

(** ** The record store: messages *)

Module DbMessageFacts.
Import JsString Db.

(** Messages come back in the order they were stored: reading any
    conversation after [addMessage] gives what was there before, followed
    by the new row when it is the conversation written to, and by nothing
    otherwise.  An empty tool-call id is stored as none. *)
Lemma getMessages_after_addMessage
        (db : Db.t) (conversationId other role : string)
        (content : option string)
        (toolCalls : option (list Decoder.ToolCall))
        (toolCallId : option string) :
  getMessages (addMessage db conversationId role content toolCalls toolCallId)
              other
  = getMessages db other
    ++ (if String.eqb other conversationId
        then [ {| m_conversation_id := conversationId; m_role := role;
                  m_content := content; m_tool_calls := toolCalls;
                  m_tool_call_id := Decoder.opt_truthy toolCallId |} ]
        else []).
Proof.
  unfold getMessages, addMessage. cbn [messages]. rewrite !filter_app. cbn.
  rewrite String.eqb_sym. now destruct (String.eqb other conversationId).
Qed.

End DbMessageFacts.

(** ** Step executor: the history sent to the model *)

Module AgentHistoryFacts.
Import JsString Js Json Decoder Registry Agent Views.

Lemma last_n_length {A} (n : nat) (l : list A) :
  List.length (last_n n l) = Nat.min n (List.length l).
Proof. unfold last_n. rewrite length_skipn. lia. Qed.

Lemma last_n_suffix {A} (n : nat) (l : list A) :
  exists older, l = older ++ last_n n l.
Proof.
  unfold last_n. exists (firstn (List.length l - n) l).
  now rewrite firstn_skipn.
Qed.

Lemma last_skipn {A} (k : nat) (l : list A) (d : A) :
  k < List.length l -> last (skipn k l) d = last l d.
Proof.
  revert k. induction l as [|x l IH]; intros k H; [cbn in H; lia |].
  destruct k as [|k]; [reflexivity |].
  cbn [skipn]. cbn in H. rewrite IH by lia.
  destruct l; [cbn in H; lia | reflexivity].
Qed.

Lemma last_n_last {A} (n : nat) (l : list A) (x d : A) :
  0 < n -> last (last_n n (l ++ [x])) d = x.
Proof.
  intros H. unfold last_n. rewrite last_skipn.
  - apply last_last.
  - rewrite length_app. cbn. lia.
Qed.

Lemma last_map {A B} (f : A -> B) (l : list A) (d : A) :
  last (map f l) (f d) = f (last l d).
Proof.
  induction l as [|x l IH]; [reflexivity |].
  destruct l; [reflexivity | exact IH].
Qed.

Lemma last_default {A} (l : list A) (d d' : A) :
  l <> [] -> last l d = last l d'.
Proof.
  induction l as [|x l IH]; [congruence |]. intros _.
  destruct l as [|y l]; [reflexivity |]. cbn [last] in *.
  apply IH. discriminate.
Qed.

(** The last message of a window over rows that end in [row]. *)
Lemma last_window (first d : Message) (rows : list Db.MessageRow)
      (row : Db.MessageRow) :
  last (first :: map message_of_row (last_n 50 (rows ++ [row]))) d
  = message_of_row row.
Proof.
  assert (L : last (last_n 50 (rows ++ [row])) row = row)
    by (apply last_n_last; lia).
  assert (Hne : last_n 50 (rows ++ [row]) <> []).
  { unfold last_n. intros E. apply (f_equal (@List.length _)) in E.
    rewrite length_skipn, length_app in E. cbn in E. lia. }
  destruct (last_n 50 (rows ++ [row])) as [|x w]; [congruence |].
  change (last (first :: map message_of_row (x :: w)) d)
    with (last (map message_of_row (x :: w)) d).
  rewrite (last_default _ d (message_of_row row)) by discriminate.
  now rewrite last_map, L.
Qed.

Section Loop.
Variable World : Type.
Variable buildSystemPrompt : option StepExecutionOptions -> string.

Let prepare := Agent.prepare World buildSystemPrompt.

Let system_message (options : option StepExecutionOptions) : Message :=
  Views.system_message (buildSystemPrompt options).

(** The history the loop starts from is the system prompt followed by
    the 50 most recent stored messages of the conversation, oldest first,
    and by all of them when fewer than 50 are stored: the stored messages
    end with the window, and the window has 50 of them or as many as
    there are.  Outside step mode the user's message has just been stored
    and is the last of them; in step mode the store is left as it was. *)
Theorem history_is_system_prompt_and_recent_messages
        (conversationId userMessage : string)
        (options : option StepExecutionOptions) (e : World * Db.t) :
  let s := prepare conversationId userMessage options e in
  let stored := map message_of_row
                    (Db.getMessages (snd (env s)) conversationId) in
  (exists recent older,
      messages s = system_message options :: recent
      /\ List.length recent = Nat.min 50 (List.length stored)
      /\ stored = older ++ recent)
  /\ (if step_mode options
      then snd (env s) = snd e
      else last (messages s) (system_message options)
           = user_message userMessage).
Proof.
  cbv zeta. unfold prepare, Agent.prepare.
  cbn [messages env snd fst].
  set (db0 := match Db.getConversation (snd e) conversationId with
              | Some _ => snd e
              | None => Db.createConversation (snd e) conversationId
                          (auto_title userMessage)
              end).
  split.
  - set (rows := Db.getMessages _ conversationId).
    destruct (last_n_suffix 50 rows) as [older H].
    exists (map message_of_row (last_n 50 rows)), (map message_of_row older).
    split; [reflexivity |]. split.
    + rewrite !length_map. apply last_n_length.
    + rewrite <- map_app. now rewrite <- H.
  - destruct (step_mode options); [reflexivity |].
    unfold Db.getMessages, Db.addMessage. cbn [Db.messages].
    rewrite filter_app. cbn [filter Db.m_conversation_id].
    rewrite String.eqb_refl. apply last_window.
Qed.
End Loop.

End AgentHistoryFacts.

(** ** Step executor: tool results and the event protocol *)

Module AgentProtocolFacts.
Import JsString Js Json Decoder Registry Agent Views.

Lemma no_done_app (a b : list StreamEvent) :
  no_done (a ++ b) <-> no_done a /\ no_done b.
Proof. unfold no_done. rewrite forallb_app. apply andb_true_iff. Qed.

Lemma no_done_callbacks (cbs : list Callback) :
  no_done (flat_map event_of_callback cbs).
Proof.
  unfold no_done. induction cbs as [|cb cbs IH]; [reflexivity |].
  cbn [flat_map]. rewrite forallb_app, IH, andb_true_r.
  destruct cb; reflexivity.
Qed.

Section Loop.
Variable World : Type.
Variable callModel : string -> list Message -> World -> World * ModelReply.
Variable toolRegistry : registry (World * Db.t).
Variable buildSystemPrompt : option StepExecutionOptions -> string.
Variable getModel : string.

Let run_tools := Agent.run_tools World toolRegistry.
Let iteration := Agent.iteration World callModel toolRegistry.
Let while_loop := Agent.while_loop World callModel toolRegistry.
Let runAgentLoopStreaming :=
  Agent.runAgentLoopStreaming World callModel toolRegistry buildSystemPrompt
                              getModel.

(** The pass through the tool calls appends one tool-result message per
    call, in the order of the calls, each with the id of its call, and
    sends no [done] event. *)
Lemma run_tools_messages (conversationId : string) (calls : list ToolCall) :
  forall s : LoopState World,
  exists results : list string,
    List.length results = List.length calls
    /\ messages (fst (run_tools conversationId calls s))
       = messages s ++ map tool_message (combine calls results)
    /\ (no_done (events s) ->
        no_done (events (fst (run_tools conversationId calls s)))).
Proof.
  unfold run_tools.
  induction calls as [|toolCall rest IH]; intros s; cbn [Agent.run_tools].
  - exists []. cbn. rewrite app_nil_r. auto.
  - match goal with
    | |- context [@executeTool ?T ?reg ?n ?a ?e] =>
        destruct (RegistryFacts.executeTool_returns T reg n a e) as [res E];
        destruct (@executeTool T reg n a e) as [env1 r]
    end.
    cbn [snd] in E. subst r. cbv beta iota zeta.
    match goal with
    | |- context [Agent.run_tools World toolRegistry conversationId rest ?s4] =>
        destruct (IH s4) as (results & L & M & D)
    end.
    exists (result res :: results). split; [cbn; now rewrite L |].
    split.
    + rewrite M. cbn [messages push save emit with_env].
      rewrite <- app_assoc. reflexivity.
    + intros N. apply D. cbn [events push save emit with_env].
      apply no_done_app. split; [exact N | reflexivity].
Qed.

(** After a pass of the loop that goes on, the history has grown by the
    assistant message with its tool calls followed by exactly one
    tool-result message per call, in call order, each carrying the id of
    the call it answers. *)
Theorem tool_results_answer_the_calls
        (conversationId model : string) (s : LoopState World) :
  snd (iteration conversationId model s) = Normal true ->
  exists (c : option string) (calls : list ToolCall) (results : list string),
    calls <> []
    /\ List.length results = List.length calls
    /\ messages (fst (iteration conversationId model s))
       = messages s
         ++ assistant_message c (Some calls)
            :: map tool_message (combine calls results).
Proof.
  unfold iteration, Agent.iteration. cbn [Agent.messages Agent.env].
  destruct (callModel model (messages s) (fst (env s))) as [w1 reply].
  destruct reply as [chunks | chunks err].
  - destruct (run_decoder chunks) as [cbs assistantMessage].
    destruct (msg_tool_calls assistantMessage) as [[|tc tcs]|] eqn:T;
      [cbn; discriminate | | cbn; discriminate].
    cbv beta iota zeta.
    match goal with
    | |- context [Agent.run_tools World toolRegistry conversationId ?cs ?s4] =>
        destruct (run_tools_messages conversationId cs s4)
          as (results & L & M & _);
        unfold run_tools in M;
        destruct (Agent.run_tools World toolRegistry conversationId cs s4)
          as [s5 r]
    end.
    cbn [fst snd] in *. intros _.
    exists (msg_content assistantMessage), (tc :: tcs), results.
    split; [discriminate |]. split; [exact L |].
    rewrite M. cbn [messages push save emit with_env].
    rewrite <- app_assoc. reflexivity.
  - destruct (process_chunks initial chunks) as [st cbs]. cbn. discriminate.
Qed.

Lemma iteration_no_done (conversationId model : string) (s : LoopState World) :
  no_done (events s) ->
  no_done (events (fst (iteration conversationId model s))).
Proof.
  intros N. unfold iteration, Agent.iteration. cbn [Agent.messages Agent.env].
  destruct (callModel model (messages s) (fst (env s))) as [w1 reply].
  destruct reply as [chunks | chunks err].
  - destruct (run_decoder chunks) as [cbs assistantMessage].
    assert (N1 : no_done (events s ++ flat_map event_of_callback cbs)).
    { apply no_done_app. split; [exact N | apply no_done_callbacks]. }
    destruct (msg_tool_calls assistantMessage) as [[|tc tcs]|];
      [exact N1 | | exact N1].
    cbv beta iota zeta.
    match goal with
    | |- context [Agent.run_tools World toolRegistry conversationId ?cs ?s4] =>
        destruct (run_tools_messages conversationId cs s4)
          as (results & _ & _ & D);
        unfold run_tools in D;
        destruct (Agent.run_tools World toolRegistry conversationId cs s4)
          as [s5 r]
    end.
    cbn [fst snd] in *. apply D. exact N1.
  - destruct (process_chunks initial chunks) as [st cbs]. cbn [fst events emit].
    apply no_done_app. split; [exact N | apply no_done_callbacks].
Qed.

Lemma while_loop_no_done (conversationId model : string) (fuel : nat) :
  forall s : LoopState World,
  no_done (events s) ->
  no_done (events (fst (while_loop fuel conversationId model s))).
Proof.
  unfold while_loop.
  induction fuel as [|fuel IH]; intros s N; cbn [Agent.while_loop];
    [exact N |].
  destruct (loopCount s <? MAX_TOOL_LOOPS); [| exact N].
  pose proof (iteration_no_done conversationId model s N) as N1.
  unfold iteration in N1.
  destruct (Agent.iteration World callModel toolRegistry conversationId
                            model s) as [s1 r].
  cbn [fst] in N1.
  destruct r as [[|]|ex]; cbn [fst]; auto.
Qed.

(** The event protocol of a run: when the run returns, the [done] event,
    carrying the answer, is the last event sent and the only [done] event;
    when the run throws, no [done] event has been sent. *)
Theorem done_is_the_last_event
        (conversationId userMessage : string)
        (options : option StepExecutionOptions) (e : World * Db.t) :
  let out := runAgentLoopStreaming conversationId userMessage options e in
  match snd out with
  | Normal answer =>
      exists before,
        events (fst out) = before ++ [event "done" answer]
        /\ no_done before
  | Throw _ => no_done (events (fst out))
  end.
Proof.
  cbv zeta.
  unfold runAgentLoopStreaming, Agent.runAgentLoopStreaming, Agent.run_with_fuel.
  set (s0 := prepare World buildSystemPrompt conversationId userMessage options e).
  pose proof (while_loop_no_done conversationId (chosen_model getModel options)
                MAX_TOOL_LOOPS s0 eq_refl) as N.
  unfold while_loop in N.
  destruct (Agent.while_loop World callModel toolRegistry MAX_TOOL_LOOPS
              conversationId (chosen_model getModel options) s0) as [s1 r].
  cbn [fst snd] in *.
  destruct r as [[]|ex]; cbn [fst snd]; [| exact N].
  unfold finish. destruct (MAX_TOOL_LOOPS <=? loopCount s1).
  - eexists. cbn [events emit finalResponse]. split; [reflexivity |].
    apply no_done_app. split; [exact N | reflexivity].
  - eexists. cbn [events emit finalResponse]. split; [reflexivity | exact N].
Qed.
End Loop.

Lemma tool_results_answer_the_calls_witness :
  let s0 := prepare nat Scenario.system_prompt "conversation-1" "What is new?"
                    None (0, Scenario.empty_db) in
  exists (c : option string) (calls : list ToolCall) (results : list string),
    calls <> []
    /\ List.length results = List.length calls
    /\ messages (fst (Agent.iteration nat (Scenario.scripted 1)
                                      Scenario.no_tools
                                      "conversation-1" "some/model" s0))
       = messages s0
         ++ assistant_message c (Some calls)
            :: map tool_message (combine calls results).
Proof.
  intros s0.
  exact (tool_results_answer_the_calls nat (Scenario.scripted 1)
           Scenario.no_tools "conversation-1" "some/model" s0 eq_refl).
Defined.

End AgentProtocolFacts.

(** ** Capability registry: registration *)

Module ToolIndexFacts.
Import JsString Js Json Registry ToolIndex.

Section WithEnv.
Variable Env : Type.

(** Registering makes the name resolve to the new executor, whether or not
    the name was registered before, and changes no other name. *)
Lemma register_then_get
        (reg : registry Env) (name other : string) (e : ToolExecutor Env) :
  registry_get (register reg name e) other
  = if String.eqb name other
    then Some {| definition_name := name; executor := e |}
    else registry_get reg other.
Proof.
  unfold register.
  induction reg as [|[k w] rest IH]; cbn [registry_get registry_set].
  - reflexivity.
  - destruct (String.eqb k name) eqn:K; cbn [registry_get].
    + apply String.eqb_eq in K. subst k.
      now destruct (String.eqb name other).
    + destruct (String.eqb k other) eqn:O; [| exact IH].
      apply String.eqb_eq in O. subst k.
      rewrite String.eqb_sym, K. reflexivity.
Qed.

Lemma registry_set_keys (reg : registry Env) (name k : string)
      (v : RegisteredTool Env) :
  In k (map fst (registry_set reg name v)) <-> k = name \/ In k (map fst reg).
Proof.
  induction reg as [|[k0 w] rest IH]; cbn [registry_set map fst In].
  - intuition.
  - destruct (String.eqb k0 name) eqn:K; cbn [map fst In].
    + apply String.eqb_eq in K. subst k0. intuition.
    + rewrite IH. intuition.
Qed.

Lemma register_well_keyed (reg : registry Env) (name : string)
      (e : ToolExecutor Env) :
  well_keyed reg -> well_keyed (register reg name e).
Proof.
  unfold well_keyed, register. intros [N F].
  induction reg as [|[k0 w] rest IH]; cbn [registry_set map fst].
  - split; [repeat constructor; auto | repeat constructor].
  - cbn [map fst] in N. inversion N as [|? ? Hk Hrest]; subst.
    inversion F as [|? ? Hd Hf]; subst. cbn [fst snd] in *.
    destruct (String.eqb k0 name) eqn:K; cbn [map fst].
    + apply String.eqb_eq in K. subst k0.
      split; [now constructor | now constructor].
    + destruct (IH Hrest Hf) as [N1 F1].
      split; [| now constructor].
      constructor; [| exact N1].
      intros H. apply registry_set_keys in H as [H | H]; [| contradiction].
      apply String.eqb_neq in K. congruence.
Qed.

Lemma register_all_well_keyed (tools : list (string * ToolExecutor Env)) :
  forall start, well_keyed start -> well_keyed (register_all start tools).
Proof.
  unfold register_all.
  induction tools as [|tool tools IH]; intros start W; cbn [fold_left];
    [exact W |].
  apply IH. now apply register_well_keyed.
Qed.

Lemma register_all_keys (tools : list (string * ToolExecutor Env)) (k : string) :
  forall start,
  In k (map fst (register_all start tools))
  <-> In k (map fst start) \/ In k (map fst tools).
Proof.
  unfold register_all.
  induction tools as [|tool tools IH]; intros start; cbn [fold_left map In].
  - intuition.
  - rewrite IH. unfold register. rewrite registry_set_keys. intuition.
Qed.

Lemma well_keyed_listing (reg : registry Env) :
  well_keyed reg -> getAllToolDefinitions reg = map fst reg.
Proof.
  intros [_ F]. unfold getAllToolDefinitions.
  induction F as [|entry rest E F IH]; [reflexivity |].
  cbn [map]. now rewrite E, IH.
Qed.

Lemma well_keyed_get (reg : registry Env) (name : string) :
  well_keyed reg -> In name (map fst reg) ->
  exists tool, registry_get reg name = Some tool /\ definition_name tool = name.
Proof.
  intros [_ F]. induction F as [|[k w] rest E F IH]; cbn [map fst In];
    [contradiction |].
  cbn [fst snd] in E. intros H. cbn [registry_get].
  destruct (String.eqb k name) eqn:K.
  - apply String.eqb_eq in K. subst k. now exists w.
  - destruct H as [H | H]; [| now apply IH].
    apply String.eqb_neq in K. congruence.
Qed.

(** After the module's registrations, the listing names each registered
    tool exactly once, however often it was registered, lists nothing
    else, and every listed name resolves to a tool of that name. *)
Theorem registered_tools_are_listed_once
        (tools : list (string * ToolExecutor Env)) :
  let reg := register_all [] tools in
  NoDup (getAllToolDefinitions reg)
  /\ (forall name, In name (getAllToolDefinitions reg)
                   <-> In name (map fst tools))
  /\ Forall (fun name =>
               exists tool, registry_get reg name = Some tool
                            /\ definition_name tool = name)
            (getAllToolDefinitions reg).
Proof.
  cbv zeta.
  assert (W : well_keyed (register_all [] tools)).
  { apply register_all_well_keyed. split; constructor. }
  rewrite (well_keyed_listing _ W).
  split; [exact (proj1 W) |]. split.
  - intros name. rewrite register_all_keys. cbn. intuition.
  - apply Forall_forall. intros name H. now apply well_keyed_get.
Qed.
End WithEnv.

End ToolIndexFacts.

(** ** Scheduler: what one execution of a task writes *)

Module SchedulerRunFacts.
Import JsString Js Json Db Scheduler.

Lemma length_take (n : nat) (s : string) : String.length (take n s) <= n.
Proof.
  revert s. induction n as [|n IH]; intros [|c s]; cbn; try lia.
  specialize (IH s). lia.
Qed.

Lemma updateTask_frame (db : Db.t) (tid : nat) (u : TaskUpdates) :
  Forall2 (fun old new =>
             row_id new = row_id old /\ (row_id old <> tid -> new = old))
          (scheduled_tasks db) (scheduled_tasks (updateTask db tid u)).
Proof.
  unfold updateTask. cbn [scheduled_tasks].
  induction (scheduled_tasks db) as [|r rows IH]; cbn [map]; constructor;
    [| exact IH].
  destruct (row_id r =? tid) eqn:T.
  - apply Nat.eqb_eq in T. split; [reflexivity | intros; congruence].
  - split; reflexivity.
Qed.

Lemma Forall2_same_rows (tid : nat) (rows : list TaskRow) :
  Forall2 (fun old new =>
             row_id new = row_id old /\ (row_id old <> tid -> new = old))
          rows rows.
Proof. induction rows; constructor; auto. Qed.

Section Process.
Variable World : Type.
Variable runAgentLoop :
  string -> string -> World * Db.t -> (World * Db.t) * completion string.
Variable uuidv4 : World -> string.
Variable now : World -> Z * World.
Variable toISOString : Z -> string.
Variable cron_validate : string -> bool.

Let processTask :=
  Scheduler.processTask World runAgentLoop uuidv4 now toISOString cron_validate.

Let the_run := Scheduler.the_run World runAgentLoop uuidv4 now.

Let read_after := Scheduler.read_after World now.

(** Takes [processTask] apart, read by read. *)
Ltac open_process :=
  cbv zeta;
  unfold processTask, Scheduler.processTask, the_run, Scheduler.the_run,
    Scheduler.run_conversation, read_after, Scheduler.read_after,
    Scheduler.computeNextCronRun, logTaskRun;
  match goal with
  | e : (World * Db.t)%type |- _ =>
      destruct (now (fst e)) as [? ?]; cbn [fst snd]
  end;
  match goal with
  | |- context [runAgentLoop ?c ?p ?x] =>
      destruct (runAgentLoop c p x) as [? [?|?]]; cbn [fst snd]
  end;
  repeat match goal with
         | |- context [now ?w] => destruct (now w) as [? ?]; cbn [fst snd]
         end;
  cbn [log_task_id];
  match goal with
  | |- context [task_stored ?d ?i] =>
      destruct (task_stored d i); cbn [fst snd]
  end.

(** Whatever the run does, [processTask] touches only the run logs and
    the rows of this task: conversations and messages are as the run left
    them, and every other task row is unchanged.  When the task still has
    its row at the end of the run, exactly one run log is added, whether
    or not [processTask] itself returns: for this task, with the time of
    the second clock read after the run, the duration from the first
    clock read of [processTask] to the first after the run, the outcome
    of the run, a result of at most 5000 characters and the error message
    of a run that threw.  When the run deleted the task, the insert
    fails on the foreign key: [processTask] throws that error, the store
    is as the run left it and nobody is notified. *)
Theorem processTask_logs_the_run_and_keeps_other_rows
        (task : ScheduledTask) (e : World * Db.t) :
  let ran := the_run task e in
  let out := processTask task e in
  let before := snd (fst ran) in
  let after := snd (fst (fst out)) in
  let started := fst (now (fst e)) in
  let reads := read_after (fst (fst ran)) in
  conversations after = conversations before
  /\ messages after = messages before
  /\ Forall2 (fun old new =>
                row_id new = row_id old
                /\ (row_id old <> id task -> new = old))
             (scheduled_tasks before) (scheduled_tasks after)
  /\ if task_stored before (id task) then
       exists log,
         task_run_logs after = task_run_logs before ++ [log]
         /\ log_task_id log = id task
         /\ log_run_at log = toISOString (snd (fst (fst reads)))
         /\ log_duration_ms log = (fst (fst (fst reads)) - started)%Z
         /\ log_status log = match snd ran with
                             | Normal _ => success
                             | Throw _ => failure
                             end
         /\ (exists text, log_result log = Some text
                          /\ String.length text <= 5000)
         /\ log_error log = match snd ran with
                            | Normal _ => None
                            | Throw err => Some (message_or_string err)
                            end
     else
       snd out = Throw FOREIGN_KEY
       /\ after = before
       /\ snd (fst out) = [].
Proof.
  open_process;
    try (destruct (schedule_type task); cbn [bind fst snd];
         repeat match goal with
                | |- context [now ?w] =>
                    destruct (now w) as [? ?]; cbn [fst snd]
                | |- context [cron_validate ?v] =>
                    destruct (cron_validate v); cbn [negb fst snd]
                | |- context [iso_of ?f ?x] =>
                    destruct (iso_of f x) as [?|?]; cbn [bind fst snd]
                end);
    cbn [fst snd conversations messages task_run_logs updateTask];
    (split; [reflexivity |]); (split; [reflexivity |]);
    (split;
     [ first [ match goal with
               | |- Forall2 _ (scheduled_tasks ?d) _ =>
                   apply (updateTask_frame
                            {| conversations := conversations d;
                               messages := messages d;
                               scheduled_tasks := scheduled_tasks d;
                               task_run_logs := task_run_logs d ++ [_] |})
               end
             | apply Forall2_same_rows ]
     | first [ eexists; split; [reflexivity |];
               cbn [log_task_id log_status log_result log_error
                    log_run_at log_duration_ms];
               split; [reflexivity |]; split; [reflexivity |];
               split; [reflexivity |]; split; [reflexivity |];
               split; [eexists; split; [reflexivity | apply length_take]
                      | reflexivity ]
             | split; [reflexivity |]; split; reflexivity ] ]).
Qed.

(** An interval task that still has its row at the end of the run, and
    whose stored value reads as a number of milliseconds, is given on
    every row of the task the time of the third clock read after the run
    as its last run time, and as its next run time the time that many
    milliseconds after the fourth; a run that returned leaves the status
    as it was, a run that threw sets it to [error]. *)
Theorem interval_task_is_rescheduled
        (task : ScheduledTask) (e : World * Db.t) (ms : Z) :
  let ran := the_run task e in
  let out := processTask task e in
  let reads := read_after (fst (fst ran)) in
  schedule_type task = interval ->
  parseInt (schedule_value task) = Some ms ->
  task_stored (snd (fst ran)) (id task) = true ->
  (Z.abs (snd reads + ms) <= MAX_TIME)%Z ->
  snd out = Normal tt
  /\ forall row,
       In row (scheduled_tasks (snd (fst (fst out)))) ->
       row_id row = id task ->
       exists old,
         In old (scheduled_tasks (snd (fst ran)))
         /\ row_id old = id task
         /\ row_last_run row = Some (toISOString (snd (fst reads)))
         /\ row_next_run row = Some (toISOString (snd reads + ms))
         /\ row_status row = match snd ran with
                             | Normal _ => row_status old
                             | Throw _ => error
                             end.
Proof.
  open_process; intros K P S R; try discriminate S;
    rewrite K, P; cbn [option_map]; unfold iso_of;
    repeat match goal with
           | |- context [now ?w] => destruct (now w) as [? ?]; cbn [fst snd]
           end;
    cbn [fst snd] in R; apply Z.leb_le in R; rewrite R; cbn [bind fst snd];
    (split; [reflexivity |]); intros row Hin Hid;
    apply SchedulerFacts.updateTask_rows in Hin as (old & Hold & Ho & ->);
    try exact Hid; exists old; cbn [scheduled_tasks] in Hold;
    repeat split; auto.
Qed.

(** A notification is sent only for a task that asks for it and has a
    conversation, to that conversation, once, and only when [processTask]
    returns. *)
Lemma processTask_notes (task : ScheduledTask) (e : World * Db.t)
      (note : Notification) :
  In note (snd (fst (processTask task e))) ->
  notify task = true
  /\ conversation_id task = Some (fst note)
  /\ fst note <> ""
  /\ snd (fst (processTask task e)) = [note]
  /\ snd (processTask task e) = Normal tt.
Proof.
  assert (T : forall c, Decoder.opt_truthy (conversation_id task) = Some c ->
                        conversation_id task = Some c /\ c <> "").
  { intros c. unfold Decoder.opt_truthy.
    destruct (conversation_id task) as [c0|]; [| discriminate].
    destruct (truthy c0) eqn:Tc; [| discriminate].
    intros [= ->]. split; [reflexivity |]. intros ->. discriminate. }
  revert T. open_process; intros T; try contradiction;
    destruct (schedule_type task); cbn [bind fst snd];
    repeat match goal with
           | |- context [now ?w] => destruct (now w) as [? ?]; cbn [fst snd]
           | |- context [cron_validate ?v] =>
               destruct (cron_validate v); cbn [negb fst snd]
           | |- context [iso_of ?f ?x] =>
               destruct (iso_of f x) as [?|?]; cbn [bind fst snd]
           end;
    try contradiction;
    destruct (notify task); try contradiction;
    destruct (Decoder.opt_truthy (conversation_id task)) as [c|] eqn:C;
    try contradiction;
    (intros [<- | []]; cbn [fst]; destruct (T c eq_refl) as [T1 T2];
     repeat split; auto).
Qed.

Section Tick.
Variable datetime : string -> option Z.
Variable datetime_now : World -> Z.

Let process_all :=
  Scheduler.process_all World runAgentLoop uuidv4 now toISOString cron_validate.
Let schedulerTick :=
  Scheduler.schedulerTick World runAgentLoop uuidv4 now toISOString
                          cron_validate datetime datetime_now.

Lemma process_all_notes (due : list ScheduledTask) (note : Notification) :
  forall e,
  In note (snd (process_all due e)) ->
  exists task, In task due /\ notify task = true
               /\ conversation_id task = Some (fst note).
Proof.
  unfold process_all.
  induction due as [|task rest IH]; intros e; cbn [Scheduler.process_all];
    [intros [] |].
  pose proof (processTask_notes task e note) as P. unfold processTask in P.
  destruct (Scheduler.processTask World runAgentLoop uuidv4 now toISOString
              cron_validate task e) as [[e1 notes] r].
  cbn [fst snd] in P.
  destruct r as [[]|ex].
  - specialize (IH e1).
    destruct (Scheduler.process_all World runAgentLoop uuidv4 now toISOString
                cron_validate rest e1) as [e2 notes2].
    cbn [snd] in *. intros H. apply in_app_or in H as [H | H].
    + exists task. destruct (P H) as (A & B & _). split; [now left | auto].
    + destruct (IH H) as (t & I & A). exists t. split; [now right | exact A].
  - cbn [snd]. intros H. exists task. destruct (P H) as (A & B & _).
    split; [now left | auto].
Qed.

(** A tick notifies only about tasks that were due when it began: every
    notification it sends goes to the conversation of a task the due-task
    query returned at the start of the tick, which asked to be notified;
    and a tick that finds another one running sends none. *)
Theorem tick_notifies_only_about_due_tasks
        (isRunning : bool) (e : World * Db.t) (note : Notification) :
  In note (snd (schedulerTick isRunning e)) ->
  isRunning = false
  /\ exists task,
       In task (getDueTasks datetime (datetime_now (fst e)) (snd e))
       /\ notify task = true
       /\ conversation_id task = Some (fst note).
Proof.
  unfold schedulerTick, Scheduler.schedulerTick.
  destruct isRunning; [intros [] |].
  intros H. split; [reflexivity |].
  now apply process_all_notes in H.
Qed.
End Tick.
End Process.

Lemma interval_task_is_rescheduled_witness :
  let task := task_of_row (Scenario.task_row 2 interval active (Some "past")) in
  let out := Situations.dated_process Scenario.answering_loop task
               (200%Z, Scenario.four_statuses) in
  snd out = Normal tt
  /\ forall row,
       In row (scheduled_tasks (snd (fst (fst out)))) ->
       row_id row = 2 ->
       exists old,
         In old (scheduled_tasks Scenario.four_statuses)
         /\ row_id old = 2
         /\ row_last_run row = Some "203"
         /\ row_next_run row = Some "60204"
         /\ row_status row = row_status old.
Proof.
  intros task out.
  exact (interval_task_is_rescheduled
           Z Scenario.answering_loop (fun _ => "fresh-id") Scenario.tick
           Situations.show_time (fun _ => true) task
           (200%Z, Scenario.four_statuses) 60000%Z eq_refl eq_refl eq_refl
           ltac:(vm_compute; discriminate)).
Defined.

Lemma tick_notifies_only_about_due_tasks_witness :
  let e := (200%Z, Scenario.four_statuses) in
  exists note,
    In note (snd (Situations.toy_tick Scenario.answering_loop false e))
    /\ exists task,
         In task (getDueTasks Scenario.toy_datetime 200 Scenario.four_statuses)
         /\ notify task = true
         /\ conversation_id task = Some (fst note).
Proof.
  intros e. eexists. split; [left; reflexivity |].
  exact (proj2 (tick_notifies_only_about_due_tasks
                  Z Scenario.answering_loop (fun _ => "fresh-id") Scenario.tick
                  (fun _ => "timestamp") (fun _ => true)
                  Scenario.toy_datetime (fun w => w) false e _
                  (or_introl eq_refl))).
Defined.

End SchedulerRunFacts.

(** ** Transport: line framing *)

Module TransportFacts.
Import JsString Js Json Transport.















End TransportFacts.
(** ** Background executor *)

Module AgentTaskFacts.
Import JsString Js Json Decoder Registry Agent.

Lemma find_app_none {A} (f : A -> bool) (l l' : list A) :
  find f l = None -> find f (l ++ l') = find f l'.
Proof.
  induction l as [|x l IH]; cbn [find app]; [reflexivity |].
  destruct (f x); [discriminate | exact IH].
Qed.

Section Loop.
Variable World : Type.
Variable callOpenRouter :
  string -> list Message -> World -> World * completion AssistantMessage.
Variable toolRegistry : registry (World * Db.t).
Variable buildSystemPrompt : option StepExecutionOptions -> string.
Variable getModel : string.

Let run_tools := AgentTask.run_tools World toolRegistry.
Let iteration := AgentTask.iteration World callOpenRouter toolRegistry getModel.
Let while_loop := AgentTask.while_loop World callOpenRouter toolRegistry getModel.
Let run_with_fuel :=
  AgentTask.run_with_fuel World callOpenRouter toolRegistry buildSystemPrompt
                          getModel.
Let runAgentLoop :=
  AgentTask.runAgentLoop World callOpenRouter toolRegistry buildSystemPrompt
                         getModel.
Let always_requests := AgentTask.always_requests World callOpenRouter.
Let keeps_conversation := AgentTask.keeps_conversation World toolRegistry.

(** The conversation has its row in the store of a state. *)
Let present (conversationId : string) (s : AgentTask.TaskState World) : Prop :=
  Db.getConversation (snd (AgentTask.env s)) conversationId <> None.

Lemma save_cases (s : AgentTask.TaskState World) (conversationId r : string)
      (c : option string) (tcs : option (list ToolCall))
      (tcid : option string) :
  match AgentTask.save World s conversationId r c tcs tcid with
  | Normal s2 =>
      present conversationId s /\ present conversationId s2
      /\ AgentTask.finalResponse s2 = AgentTask.finalResponse s
      /\ AgentTask.loopCount s2 = AgentTask.loopCount s
      /\ AgentTask.replies s2 = AgentTask.replies s
  | Throw ex => ex = Db.FOREIGN_KEY /\ ~ present conversationId s
  end.
Proof.
  unfold AgentTask.save, Db.addMessage_checked, present.
  destruct (Db.getConversation (snd (AgentTask.env s)) conversationId)
    as [row|] eqn:G; cbn [bind].
  - cbn. unfold Db.getConversation in *. cbn. rewrite G.
    repeat split; discriminate.
  - split; [reflexivity |]. intros H. now apply H.
Qed.

(** The tool calls of one reply leave the answer, the count of passes and
    the replies as they were; they end with an exception only when an
    insert fails for want of the conversation. *)
Lemma task_run_tools_cases (conversationId : string) (calls : list ToolCall) :
  forall s,
  let out := run_tools conversationId calls s in
  AgentTask.finalResponse (fst out) = AgentTask.finalResponse s
  /\ AgentTask.loopCount (fst out) = AgentTask.loopCount s
  /\ AgentTask.replies (fst out) = AgentTask.replies s
  /\ match snd out with
     | Normal _ => True
     | Throw ex => ex = Db.FOREIGN_KEY /\ ~ present conversationId (fst out)
     end.
Proof.
  unfold run_tools.
  induction calls as [|toolCall rest IH]; intros s; cbv zeta;
    cbn [AgentTask.run_tools]; [cbn; auto |].
  match goal with
  | |- context [@executeTool ?T ?reg ?n ?a ?e] =>
      destruct (RegistryFacts.executeTool_returns T reg n a e) as [res E];
      destruct (@executeTool T reg n a e) as [env1 r]
  end.
  cbn [snd] in E. subst r. cbv beta iota zeta.
  match goal with
  | |- context [AgentTask.save World ?s1 ?c ?r ?x ?y ?z] =>
      pose proof (save_cases s1 c r x y z) as S;
      destruct (AgentTask.save World s1 c r x y z) as [s2|ex]
  end.
  - destruct S as (_ & _ & F & L & R).
    match goal with
    | |- context [AgentTask.run_tools World toolRegistry conversationId rest ?s3] =>
        specialize (IH s3); cbv zeta in IH;
        destruct (AgentTask.run_tools World toolRegistry conversationId rest s3)
          as [s4 r4]
    end.
    cbn [fst snd] in *. destruct IH as (F4 & L4 & R4 & T4).
    rewrite F4, L4, R4. cbn in *. rewrite F, L, R. auto.
  - destruct S as [-> N]. cbn. auto.
Qed.

(** With tools that keep the conversation, the tool calls of a reply
    return. *)
Lemma task_run_tools_returns (conversationId : string) (calls : list ToolCall) :
  keeps_conversation conversationId ->
  forall s,
  present conversationId s ->
  snd (run_tools conversationId calls s) = Normal tt
  /\ present conversationId (fst (run_tools conversationId calls s)).
Proof.
  intros K. unfold run_tools.
  induction calls as [|toolCall rest IH]; intros s P;
    cbn [AgentTask.run_tools]; [auto |].
  pose proof (K (fn_name (tc_function toolCall))
                (fn_arguments (tc_function toolCall)) (AgentTask.env s) P)
    as P1.
  match goal with
  | |- context [@executeTool ?T ?reg ?n ?a ?e] =>
      destruct (RegistryFacts.executeTool_returns T reg n a e) as [res E];
      destruct (@executeTool T reg n a e) as [env1 r]
  end.
  cbn [fst snd] in E, P1. subst r. cbv beta iota zeta.
  match goal with
  | |- context [AgentTask.save World ?s1 ?c ?r ?x ?y ?z] =>
      pose proof (save_cases s1 c r x y z) as S;
      destruct (AgentTask.save World s1 c r x y z) as [s2|ex]
  end.
  - destruct S as (_ & P2 & _). apply IH. exact P2.
  - destruct S as [_ N]. exfalso. apply N. exact P1.
Qed.

(** What a pass of the loop does: it makes one provider call, which is
    added to the replies; it throws what that call threw or the error of
    a failed insert, goes on with the answer unchanged, or stops. *)
Lemma task_iteration_cases (conversationId : string)
      (s : AgentTask.TaskState World) :
  let out := iteration conversationId s in
  let reply := snd (callOpenRouter getModel (AgentTask.messages s)
                                   (fst (AgentTask.env s))) in
  AgentTask.loopCount (fst out) = S (AgentTask.loopCount s)
  /\ AgentTask.replies (fst out) = AgentTask.replies s ++ [reply]
  /\ match snd out with
     | Throw ex =>
         reply = Throw ex
         \/ (ex = Db.FOREIGN_KEY /\ ~ present conversationId (fst out))
     | Normal true =>
         AgentTask.finalResponse (fst out) = AgentTask.finalResponse s
     | Normal false =>
         exists assistantMessage,
           reply = Normal assistantMessage
           /\ (msg_tool_calls assistantMessage = None
               \/ msg_tool_calls assistantMessage = Some [])
     end.
Proof.
  cbv zeta. unfold iteration, AgentTask.iteration.
  destruct (callOpenRouter getModel (AgentTask.messages s)
                           (fst (AgentTask.env s))) as [w1 reply].
  cbn [snd]. destruct reply as [assistantMessage | ex].
  - match goal with
    | |- context [AgentTask.save World ?s1 ?c ?r ?x ?y ?z] =>
        pose proof (save_cases s1 c r x y z) as S;
        destruct (AgentTask.save World s1 c r x y z) as [s2|ex]
    end.
    + destruct S as (_ & _ & F & L & R). cbn in F, L, R.
      destruct (msg_tool_calls assistantMessage) as [[|tc tcs]|] eqn:T.
      * cbn. rewrite L, R. split; [reflexivity |]. split; [reflexivity |].
        exists assistantMessage. auto.
      * cbv beta iota zeta.
        match goal with
        | |- context [AgentTask.run_tools World toolRegistry conversationId
                        ?cs ?s3] =>
            pose proof (task_run_tools_cases conversationId cs s3) as Q;
            cbv zeta in Q; unfold run_tools in Q;
            destruct (AgentTask.run_tools World toolRegistry conversationId
                        cs s3) as [s4 r]
        end.
        cbn [fst snd] in *. destruct Q as (F4 & L4 & R4 & T4).
        rewrite L4, R4. cbn. rewrite L, R.
        split; [reflexivity |]. split; [reflexivity |].
        destruct r as [[]|ex]; cbn [bind].
        -- rewrite F4. cbn. exact F.
        -- right. exact T4.
      * cbn. rewrite L, R. split; [reflexivity |]. split; [reflexivity |].
        exists assistantMessage. auto.
    + destruct S as [-> N]. cbn. split; [reflexivity |].
      split; [reflexivity |]. right. split; [reflexivity |]. exact N.
  - cbn. auto.
Qed.

(** An exception that leaves the loop is the one the last provider call
    of the loop threw, or the error of an insert that failed for want of
    the conversation. *)
Lemma task_while_loop_throws (conversationId : string) (fuel : nat) :
  forall s ex,
  let out := while_loop fuel conversationId s in
  snd out = Throw ex ->
  (exists earlier history w,
      AgentTask.replies (fst out) = earlier ++ [Throw ex]
      /\ snd (callOpenRouter getModel history w) = Throw ex)
  \/ (ex = Db.FOREIGN_KEY /\ ~ present conversationId (fst out)).
Proof.
  unfold while_loop.
  induction fuel as [|fuel IH]; intros s ex; cbv zeta;
    cbn [AgentTask.while_loop]; [discriminate |].
  destruct (AgentTask.loopCount s <? MAX_TOOL_LOOPS); [| discriminate].
  pose proof (task_iteration_cases conversationId s) as (_ & R & P).
  unfold iteration in R, P.
  destruct (AgentTask.iteration World callOpenRouter toolRegistry getModel
                                conversationId s) as [s1 r].
  cbn [fst snd] in R, P.
  destruct r as [[|]|ex']; cbn [fst snd].
  - apply IH.
  - discriminate.
  - intros [= ->]. destruct P as [P | P]; [left | right; exact P].
    exists (AgentTask.replies s), (AgentTask.messages s),
      (fst (AgentTask.env s)).
    rewrite R, P. auto.
Qed.

(** With a provider that always asks for tools, and tools that keep the
    conversation, the loop runs until the cap: the answer is unchanged,
    the count of passes ends at the cap, and each pass made one provider
    call. *)
Lemma task_while_loop_exhausts (conversationId : string) (fuel : nat) :
  always_requests ->
  keeps_conversation conversationId ->
  forall s,
  present conversationId s ->
  AgentTask.loopCount s <= MAX_TOOL_LOOPS ->
  MAX_TOOL_LOOPS - AgentTask.loopCount s <= fuel ->
  let out := while_loop fuel conversationId s in
  snd out = Normal tt
  /\ AgentTask.finalResponse (fst out) = AgentTask.finalResponse s
  /\ AgentTask.loopCount (fst out) = MAX_TOOL_LOOPS
  /\ List.length (AgentTask.replies (fst out))
     = List.length (AgentTask.replies s)
       + (MAX_TOOL_LOOPS - AgentTask.loopCount s).
Proof.
  intros A K. unfold while_loop.
  induction fuel as [|fuel IH]; intros s P B F; cbv zeta;
    cbn [AgentTask.while_loop].
  - cbn [fst snd]. repeat split; lia.
  - destruct (AgentTask.loopCount s <? MAX_TOOL_LOOPS) eqn:L.
    2:{ apply Nat.ltb_ge in L. cbn [fst snd]. repeat split; lia. }
    apply Nat.ltb_lt in L.
    destruct (A getModel (AgentTask.messages s) (fst (AgentTask.env s)))
      as (w' & m & tc & tcs & C & T).
    unfold AgentTask.iteration. rewrite C.
    match goal with
    | |- context [AgentTask.save World ?s1 ?c ?r ?x ?y ?z] =>
        pose proof (save_cases s1 c r x y z) as S;
        destruct (AgentTask.save World s1 c r x y z) as [s2|ex]
    end.
    2:{ destruct S as [_ N]. exfalso. apply N. exact P. }
    destruct S as (_ & P2 & F2 & L2 & R2). cbn in F2, L2, R2.
    rewrite T. cbv beta iota zeta.
    match goal with
    | |- context [AgentTask.run_tools World toolRegistry conversationId
                    ?cs ?s3] =>
        pose proof (task_run_tools_cases conversationId cs s3) as Q;
        pose proof (task_run_tools_returns conversationId cs K s3 P2)
          as [Q1 Q2];
        cbv zeta in Q; unfold run_tools in Q, Q1, Q2;
        destruct (AgentTask.run_tools World toolRegistry conversationId
                    cs s3) as [s4 r]
    end.
    cbn [fst snd] in *. destruct Q as (F4 & L4 & R4 & _). subst r.
    cbn [bind]. cbn in F4, L4, R4.
    destruct (IH s4 Q2) as (I1 & I2 & I3 & I4); [lia | lia |].
    rewrite I1, I2, I3, I4, F4, F2, R4, R2, L4, L2.
    rewrite length_app. cbn [List.length].
    repeat split; lia.
Qed.

Lemma prepare_returns (conversationId prompt : string) (e : World * Db.t) :
  let out := AgentTask.prepare World buildSystemPrompt conversationId prompt e in
  snd out = Normal tt
  /\ present conversationId (fst out)
  /\ AgentTask.finalResponse (fst out) = ""
  /\ AgentTask.loopCount (fst out) = 0
  /\ AgentTask.replies (fst out) = [].
Proof.
  cbv zeta. unfold AgentTask.prepare, Db.addMessage_checked.
  assert (E : Db.getConversation
                (AgentTask.ensure_conversation conversationId prompt (snd e))
                conversationId <> None).
  { unfold AgentTask.ensure_conversation.
    destruct (Db.getConversation (snd e) conversationId) eqn:G;
      [now rewrite G |].
    unfold Db.getConversation, Db.createConversation in *.
    cbn [Db.conversations]. rewrite (find_app_none _ _ _ G). cbn [find fst].
    now rewrite String.eqb_refl. }
  destruct (Db.getConversation
              (AgentTask.ensure_conversation conversationId prompt (snd e))
              conversationId) as [row|] eqn:G; [| congruence].
  cbn [fst snd]. unfold present. cbn.
  unfold Db.getConversation in *. cbn. rewrite G.
  repeat split; discriminate.
Qed.

(** With a provider that always asks for tools, the loop runs out of
    passes with the answer still empty, after as many provider calls as
    the cap allows. *)
Lemma cap_gives_empty_text
      (conversationId prompt : string) (e : World * Db.t) :
  always_requests ->
  keeps_conversation conversationId ->
  let out := run_with_fuel MAX_TOOL_LOOPS conversationId prompt e in
  snd out = Normal ""
  /\ AgentTask.loopCount (fst out) = MAX_TOOL_LOOPS
  /\ List.length (AgentTask.replies (fst out)) = MAX_TOOL_LOOPS.
Proof.
  intros A K. cbv zeta. unfold run_with_fuel, AgentTask.run_with_fuel.
  pose proof (prepare_returns conversationId prompt e) as Q. cbv zeta in Q.
  destruct (AgentTask.prepare World buildSystemPrompt conversationId prompt e)
    as [s0 p].
  cbn [fst snd] in Q. destruct Q as (-> & P & F0 & L0 & R0).
  destruct (task_while_loop_exhausts conversationId MAX_TOOL_LOOPS A K s0 P)
    as (R & Fin & L & N); [lia | lia |].
  unfold while_loop in R, Fin, L, N.
  destruct (AgentTask.while_loop World callOpenRouter toolRegistry getModel
              MAX_TOOL_LOOPS conversationId s0) as [s1 r].
  cbn [fst snd] in *. subst r. cbn [fst snd].
  rewrite Fin, F0, L, N, R0, L0. cbn [List.length]. repeat split; lia.
Qed.

(** The background executor has no limit notice.  With a provider that
    asks for tools on every call, and tools that leave the conversation
    in place, the loop makes exactly 15 provider calls, one in each of
    its 15 passes, gives up, and [runAgentLoop] returns the empty text. *)
Theorem background_run_returns_empty_text_at_cap
        (conversationId prompt : string) (e : World * Db.t) :
  always_requests ->
  keeps_conversation conversationId ->
  let run := run_with_fuel MAX_TOOL_LOOPS conversationId prompt e in
  runAgentLoop conversationId prompt e = (AgentTask.env (fst run), Normal "")
  /\ AgentTask.loopCount (fst run) = 15
  /\ List.length (AgentTask.replies (fst run)) = 15.
Proof.
  intros A K. cbv zeta. unfold runAgentLoop, AgentTask.runAgentLoop.
  pose proof (cap_gives_empty_text conversationId prompt e A K) as R.
  cbv zeta in R. unfold run_with_fuel in *.
  destruct (AgentTask.run_with_fuel World callOpenRouter toolRegistry
              buildSystemPrompt getModel MAX_TOOL_LOOPS conversationId
              prompt e) as [s r].
  cbn [fst snd] in *. destruct R as (-> & L & N). auto.
Qed.

(** Two kinds of exception leave the background executor, whatever the
    tools do: the one thrown by the provider call the run made last, and
    the foreign-key error of a message insert, thrown when the
    conversation has lost its row during the run. *)
Theorem background_run_throws_only_what_the_provider_throws
        (conversationId prompt : string) (e : World * Db.t) (ex : exn) :
  snd (runAgentLoop conversationId prompt e) = Throw ex ->
  let run := run_with_fuel MAX_TOOL_LOOPS conversationId prompt e in
  (exists earlier history w,
      AgentTask.replies (fst run) = earlier ++ [Throw ex]
      /\ snd (callOpenRouter getModel history w) = Throw ex)
  \/ (ex = Db.FOREIGN_KEY
      /\ Db.getConversation (snd (fst (runAgentLoop conversationId prompt e)))
                            conversationId = None).
Proof.
  cbv zeta.
  unfold runAgentLoop, AgentTask.runAgentLoop, run_with_fuel,
    AgentTask.run_with_fuel.
  pose proof (prepare_returns conversationId prompt e) as Q. cbv zeta in Q.
  destruct (AgentTask.prepare World buildSystemPrompt conversationId prompt e)
    as [s0 p].
  cbn [fst snd] in Q. destruct Q as (-> & _).
  pose proof (task_while_loop_throws conversationId MAX_TOOL_LOOPS s0 ex) as P.
  cbv zeta in P. unfold while_loop in P.
  destruct (AgentTask.while_loop World callOpenRouter toolRegistry getModel
              MAX_TOOL_LOOPS conversationId s0) as [s1 r].
  cbn [fst snd] in *. destruct r as [[]|ex']; cbn [fst snd];
    [discriminate |].
  intros [= ->]. destruct (P eq_refl) as [H | [H N]]; [left; exact H |].
  right. split; [exact H |]. unfold present in N.
  destruct (Db.getConversation (snd (AgentTask.env s1)) conversationId);
    [exfalso; apply N; discriminate | reflexivity].
Qed.

Section Scheduled.
Variable uuidv4 : World -> string.
Variable now : World -> Z * World.
Variable toISOString : Z -> string.
Variable cron_validate : string -> bool.

Let processTask :=
  Scheduler.processTask World runAgentLoop uuidv4 now toISOString cron_validate.
Let the_run := Scheduler.the_run World runAgentLoop uuidv4 now.

(** A scheduled run that ends at the cap is recorded as a success with an
    empty result.  With a provider that asks for tools on every call and
    tools that leave conversations in place, and when the task still has
    its row at the end of the run, the run log that [processTask] adds
    has status [success], the empty text as result and no error. *)
Theorem capped_scheduled_run_is_logged_as_success
        (task : Db.ScheduledTask) (e : World * Db.t) :
  always_requests ->
  (forall conversationId, keeps_conversation conversationId) ->
  Db.task_stored (snd (fst (the_run task e))) (Db.id task) = true ->
  let out := processTask task e in
  exists log,
    Db.task_run_logs (snd (fst (fst out)))
    = Db.task_run_logs (snd (fst (the_run task e))) ++ [log]
    /\ Db.log_task_id log = Db.id task
    /\ Db.log_status log = Db.success
    /\ Db.log_result log = Some ""
    /\ Db.log_error log = None.
Proof.
  intros A K. cbv zeta.
  unfold processTask, Scheduler.processTask, the_run, Scheduler.the_run,
    Scheduler.run_conversation, Scheduler.computeNextCronRun, Db.logTaskRun.
  destruct (now (fst e)) as [t0 w0]. cbn [fst snd].
  match goal with
  | |- context [runAgentLoop ?c ?p ?x] =>
      pose proof (cap_gives_empty_text c p x A (K c)) as R;
      cbv zeta in R; destruct R as (R & _);
      unfold runAgentLoop, AgentTask.runAgentLoop;
      unfold run_with_fuel in R;
      destruct (AgentTask.run_with_fuel World callOpenRouter toolRegistry
                  buildSystemPrompt getModel MAX_TOOL_LOOPS c p x) as [s r]
  end.
  cbn [fst snd] in *. subst r. cbv beta iota zeta.
  repeat match goal with
         | |- context [now ?w] => destruct (now w) as [? ?]; cbn [fst snd]
         end.
  cbn [Db.log_task_id]. intros S. rewrite S.
  destruct (Db.schedule_type task); cbn [bind fst snd];
    repeat match goal with
           | |- context [now ?w] => destruct (now w) as [? ?]; cbn [fst snd]
           | |- context [cron_validate ?v] =>
               destruct (cron_validate v); cbn [negb fst snd]
           | |- context [Scheduler.iso_of ?f ?x] =>
               destruct (Scheduler.iso_of f x) as [?|?]; cbn [bind fst snd]
           end;
    cbn [fst snd Db.task_run_logs Db.updateTask];
    eexists; (split; [reflexivity |]); cbn; auto.
Qed.
End Scheduled.
End Loop.

Lemma no_tools_keep_conversations (conversationId : string) :
  AgentTask.keeps_conversation Z Situations.no_tools conversationId.
Proof. intros name args e H. exact H. Qed.

Lemma background_run_returns_empty_text_at_cap_witness :
  let run := AgentTask.run_with_fuel Z Situations.insistent_provider
               Situations.no_tools Scenario.system_prompt "some/model"
               MAX_TOOL_LOOPS "conversation-1" "check the weather"
               (200%Z, Scenario.empty_db) in
  Situations.background_loop Situations.insistent_provider
    "conversation-1" "check the weather" (200%Z, Scenario.empty_db)
  = (AgentTask.env (fst run), Normal "")
  /\ AgentTask.loopCount (fst run) = 15
  /\ List.length (AgentTask.replies (fst run)) = 15.
Proof.
  apply (background_run_returns_empty_text_at_cap
           Z Situations.insistent_provider Situations.no_tools
           Scenario.system_prompt "some/model").
  - intros model history w. do 4 eexists. split; reflexivity.
  - intros name args e H. exact H.
Defined.

Lemma background_run_throws_only_what_the_provider_throws_witness :
  let run := AgentTask.run_with_fuel Z Situations.unreachable_provider
               Situations.no_tools Scenario.system_prompt "some/model"
               MAX_TOOL_LOOPS "conversation-1" "check the weather"
               (200%Z, Scenario.empty_db) in
  (exists earlier history w,
      AgentTask.replies (fst run)
      = earlier ++ [Throw (JsError "OpenRouter API key not configured")]
      /\ snd (Situations.unreachable_provider "some/model" history w)
         = Throw (JsError "OpenRouter API key not configured"))
  \/ (JsError "OpenRouter API key not configured" = Db.FOREIGN_KEY
      /\ Db.getConversation
           (snd (fst (Situations.background_loop
                        Situations.unreachable_provider "conversation-1"
                        "check the weather" (200%Z, Scenario.empty_db))))
           "conversation-1" = None).
Proof.
  exact (background_run_throws_only_what_the_provider_throws
           Z Situations.unreachable_provider Situations.no_tools
           Scenario.system_prompt "some/model"
           "conversation-1" "check the weather" (200%Z, Scenario.empty_db)
           (JsError "OpenRouter API key not configured") eq_refl).
Defined.

Lemma capped_scheduled_run_is_logged_as_success_witness :
  let task := Db.task_of_row
                (Scenario.task_row 1 Db.once Db.active (Some "past")) in
  let out := Scenario.toy_process
               (Situations.background_loop Situations.insistent_provider)
               task (200%Z, Scenario.four_statuses) in
  exists log,
    Db.task_run_logs (snd (fst (fst out))) = [log]
    /\ Db.log_task_id log = 1
    /\ Db.log_status log = Db.success
    /\ Db.log_result log = Some ""
    /\ Db.log_error log = None.
Proof.
  intros task out.
  apply (capped_scheduled_run_is_logged_as_success
           Z Situations.insistent_provider Situations.no_tools
           Scenario.system_prompt "some/model"
           (fun _ => "fresh-id") Scenario.tick (fun _ => "timestamp")
           (fun _ => true) task (200%Z, Scenario.four_statuses)).
  - intros model history w. do 4 eexists. split; reflexivity.
  - intros conversationId name args e H. exact H.
  - reflexivity.
Defined.

End AgentTaskFacts.

(** ** Scheduler tools *)

Module TaskToolsFacts.
Import JsString Js Json Db Registry TaskStore TaskTools.

Lemma max_id_bound (rows : list TaskRow) (r : TaskRow) :
  In r rows -> row_id r <= max_id rows.
Proof.
  induction rows as [|x rows IH]; [intros [] |].
  cbn [max_id fold_right]. fold (max_id rows).
  intros [<- | H]; [lia |]. specialize (IH H). lia.
Qed.

Lemma find_fresh (rows : list TaskRow) (tid : nat) :
  max_id rows < tid -> find (fun r => row_id r =? tid) rows = None.
Proof.
  intros H. destruct (find _ rows) as [r|] eqn:F; [| reflexivity].
  apply find_some in F as [Hin E]. apply Nat.eqb_eq in E.
  pose proof (max_id_bound rows r Hin). lia.
Qed.

Lemma find_app_fresh (rows : list TaskRow) (row : TaskRow) :
  max_id rows < row_id row ->
  find (fun r => row_id r =? row_id row) (rows ++ [row]) = Some row.
Proof.
  intros H. induction rows as [|x rows IH]; cbn [app find].
  - now rewrite Nat.eqb_refl.
  - cbn [max_id fold_right] in H. fold (max_id rows) in H.
    destruct (row_id x =? row_id row) eqn:E.
    + apply Nat.eqb_eq in E. lia.
    + apply IH. lia.
Qed.

Lemma opt_truthy_some (o : option string) (s : string) :
  Decoder.opt_truthy o = Some s -> o = Some s /\ s <> "".
Proof.
  unfold Decoder.opt_truthy. destruct o as [x|]; [| discriminate].
  destruct (truthy x) eqn:T; [| discriminate].
  intros [= ->]. split; [reflexivity |]. intros ->. discriminate.
Qed.

Lemma kind_of_name_inv (name : string) (k : schedule_kind) :
  kind_of_name name = Some k -> name = name_of_kind k.
Proof.
  unfold kind_of_name.
  destruct (String.eqb name "cron") eqn:C;
    [apply String.eqb_eq in C; now intros [= <-] |].
  destruct (String.eqb name "once") eqn:O;
    [apply String.eqb_eq in O; now intros [= <-] |].
  destruct (String.eqb name "interval") eqn:I;
    [apply String.eqb_eq in I; now intros [= <-] | discriminate].
Qed.

Section WithWorld.
Variable World : Type.
Variable now : World -> Z.
Variable toISOString : Z -> string.
Variable date_parse : string -> option Z.
Variable cron_validate : string -> bool.

Let computeNextRun :=
  TaskTools.computeNextRun World now toISOString date_parse cron_validate.
Let scheduleTask :=
  TaskTools.scheduleTask World now toISOString date_parse cron_validate.
Let resumeTask :=
  TaskTools.resumeTask World now toISOString date_parse cron_validate.
Let pauseTask := TaskTools.pauseTask World.
Let cancelTask := TaskTools.cancelTask World.

(** A next run time is computed only from a value that can be read for
    its kind. *)
Lemma computeNextRun_readable (w : World) (k : schedule_kind)
      (value next : string) :
  computeNextRun w (name_of_kind k) value = Normal (Some next) ->
  match k with
  | cron => cron_validate value = true
  | once => exists target, date_parse value = Some target
  | interval => exists ms, Scheduler.parseInt value = Some ms
  end.
Proof.
  unfold computeNextRun, TaskTools.computeNextRun.
  destruct k; cbn.
  - destruct (cron_validate value); [reflexivity | discriminate].
  - destruct (date_parse value) as [target|]; [eauto | discriminate].
  - destruct (Scheduler.parseInt value) as [ms|]; [eauto | discriminate].
Qed.

(** What [scheduleTask] leaves behind.  When it reports success, exactly
    one row has been added, under an id no stored task has; the task is
    active, belongs to no conversation, has a next run time, and its
    schedule value can be read for its kind: a valid cron expression, a
    date, or a number of milliseconds.  In every other case, a failure
    reported or an exception thrown, the store is as it was. *)
Theorem scheduleTask_adds_one_readable_task_or_nothing
        (args : ScheduleArgs) (e : World * Store) :
  let out := scheduleTask args e in
  let before := scheduled_tasks (tables (snd e)) in
  let after := scheduled_tasks (tables (snd (fst out))) in
  match snd out with
  | Normal r =>
      if success r then
        exists row next,
          after = before ++ [row]
          /\ ~ In (row_id row) (map row_id before)
          /\ getTask (tables (snd (fst out))) (row_id row)
             = Some (task_of_row row)
          /\ row_status row = active
          /\ row_conversation_id row = None
          /\ row_next_run row = Some next /\ next <> ""
          /\ a_prompt args = Some (row_prompt row)
          /\ match row_schedule_type row with
             | cron => cron_validate (row_schedule_value row) = true
             | once => exists target,
                 date_parse (row_schedule_value row) = Some target
             | interval => exists ms,
                 Scheduler.parseInt (row_schedule_value row) = Some ms
             end
      else fst out = e
  | Throw _ => fst out = e
  end.
Proof.
  cbv zeta. unfold scheduleTask, TaskTools.scheduleTask.
  destruct (Decoder.opt_truthy (a_prompt args)) as [taskPrompt|] eqn:P;
    [| reflexivity].
  destruct (Decoder.opt_truthy (a_schedule_type args)) as [scheduleType|];
    [| reflexivity].
  destruct (Decoder.opt_truthy (a_schedule_value args)) as [scheduleValue|];
    [| reflexivity].
  destruct (kind_of_name scheduleType) as [kind|] eqn:K; [| reflexivity].
  apply kind_of_name_inv in K. subst scheduleType.
  destruct (String.eqb (name_of_kind kind) "cron"
            && negb (cron_validate scheduleValue)); [reflexivity |].
  pose proof (computeNextRun_readable (fst e) kind scheduleValue) as R.
  unfold computeNextRun in R.
  destruct (TaskTools.computeNextRun World now toISOString date_parse
              cron_validate (fst e) (name_of_kind kind) scheduleValue)
    as [nextRun|ex]; [| reflexivity].
  destruct (Decoder.opt_truthy nextRun) as [next|] eqn:N; [| reflexivity].
  apply opt_truthy_some in N as [-> N]. apply opt_truthy_some in P as [P _].
  unfold createTask. set (newid := S _).
  set (row := {| row_id := newid; row_conversation_id := None |}).
  assert (F : max_id (scheduled_tasks (tables (snd e))) < row_id row).
  { cbn. lia. }
  unfold getTask. cbn [scheduled_tasks]. change newid with (row_id row).
  rewrite (find_app_fresh _ row F). cbn [option_map snd fst success tables
                                         scheduled_tasks].
  exists row, next. split; [reflexivity |]. split.
  { intros H. apply in_map_iff in H as (r & E & Hin).
    pose proof (max_id_bound _ r Hin). lia. }
  rewrite (find_app_fresh _ row F).
  repeat (split; [first [reflexivity | assumption] |]).
  now apply (R next).
Qed.

(** A task scheduled through the tool never notifies the chat: the row it
    adds belongs to no conversation, so whatever the run does, and even
    with [notify] set, [processTask] sends no notification for it. *)
Theorem tool_scheduled_task_sends_no_notification
        (args : ScheduleArgs) (e : World * Store) (r : ToolExecutionResult) :
  snd (scheduleTask args e) = Normal r ->
  success r = true ->
  exists row,
    scheduled_tasks (tables (snd (fst (scheduleTask args e))))
    = scheduled_tasks (tables (snd e)) ++ [row]
    /\ forall (W : Type)
              (runAgentLoop : string -> string -> W * Db.t ->
                              (W * Db.t) * completion string)
              (uuidv4 : W -> string) (clock : W -> Z * W) (iso : Z -> string)
              (validate : string -> bool) (env : W * Db.t),
         snd (fst (Scheduler.processTask W runAgentLoop uuidv4 clock iso
                     validate (task_of_row row) env)) = [].
Proof.
  unfold scheduleTask, TaskTools.scheduleTask.
  destruct (Decoder.opt_truthy (a_prompt args)) as [taskPrompt|];
    [| intros [= <-]; discriminate].
  destruct (Decoder.opt_truthy (a_schedule_type args)) as [scheduleType|];
    [| intros [= <-]; discriminate].
  destruct (Decoder.opt_truthy (a_schedule_value args)) as [scheduleValue|];
    [| intros [= <-]; discriminate].
  destruct (kind_of_name scheduleType) as [kind|];
    [| intros [= <-]; discriminate].
  destruct (String.eqb scheduleType "cron"
            && negb (cron_validate scheduleValue));
    [intros [= <-]; discriminate |].
  destruct (TaskTools.computeNextRun World now toISOString date_parse
              cron_validate (fst e) scheduleType scheduleValue)
    as [nextRun|ex]; [| discriminate].
  destruct (Decoder.opt_truthy nextRun) as [next|];
    [| intros [= <-]; discriminate].
  unfold createTask. set (newid := S _).
  destruct (getTask _ newid) as [task|]; [| discriminate].
  intros _ _. cbn [fst snd tables scheduled_tasks].
  eexists. split; [reflexivity |].
  intros W runAgentLoop uuidv4 clock iso validate env.
  unfold Scheduler.processTask, Scheduler.computeNextCronRun, logTaskRun.
  cbn [task_of_row conversation_id].
  destruct (clock (fst env)) as [t0 w0].
  destruct (runAgentLoop _ _ _) as [e1 res].
  destruct res as [text|err]; cbv beta iota zeta;
    repeat match goal with
           | |- context [clock ?w] =>
               destruct (clock w) as [? ?]; cbn [fst snd]
           end;
    match goal with
    | |- context [task_stored ?d ?i] =>
        destruct (task_stored d i); cbn [fst snd]
    end;
    try reflexivity;
    repeat match goal with
           | |- context [clock ?w] =>
               destruct (clock w) as [? ?]; cbn [fst snd]
           end;
    cbn [schedule_type notify Decoder.opt_truthy];
    match goal with
    | |- context [match ?k with cron => _ | once => _ | interval => _ end] =>
        destruct k
    end; cbn [bind fst snd];
    repeat match goal with
           | |- context [clock ?w] =>
               destruct (clock w) as [? ?]; cbn [fst snd]
           | |- context [validate ?v] =>
               destruct (validate v); cbn [negb fst snd]
           | |- context [Scheduler.iso_of ?f ?x] =>
               destruct (Scheduler.iso_of f x) as [?|?]; cbn [bind fst snd]
           end;
    try reflexivity;
    match goal with
    | |- context [if ?b then _ else _] => destruct b; reflexivity
    | |- _ => idtac
    end.
Qed.

(** After [pauseTask] no task of that id is due, whatever its next run
    time and however the clock stands; no other row has changed; and the
    tool reports success exactly when the task exists. *)
Theorem paused_task_is_not_due
        (taskId : nat) (e : World * Store)
        (datetime : string -> option Z) (datetime_now : Z) :
  let out := pauseTask taskId e in
  let before := tables (snd e) in
  let after := tables (snd (fst out)) in
  (exists r, snd out = Normal r
             /\ success r = match getTask before taskId with
                            | Some _ => true
                            | None => false
                            end)
  /\ Forall (fun task => id task <> taskId)
            (getDueTasks datetime datetime_now after)
  /\ Forall2 (fun old new =>
                row_id new = row_id old
                /\ (row_id old <> taskId -> new = old))
             (scheduled_tasks before) (scheduled_tasks after).
Proof.
  cbv zeta. unfold pauseTask, TaskTools.pauseTask.
  destruct (getTask (tables (snd e)) taskId) as [task|] eqn:G;
    cbn [fst snd tables with_tables].
  - split; [eexists; split; reflexivity |]. split.
    + apply Forall_forall. intros t H Hid.
      unfold getDueTasks in H. apply in_map_iff in H as (row & <- & Hin).
      apply filter_In in Hin as [Hin Hdue]. cbn [id task_of_row] in Hid.
      apply SchedulerFacts.updateTask_rows in Hin as (old & _ & _ & ->);
        [| exact Hid].
      unfold is_due in Hdue. cbn in Hdue. discriminate.
    + apply SchedulerRunFacts.updateTask_frame.
  - split; [eexists; split; reflexivity |]. split.
    + apply Forall_forall. intros t H Hid.
      unfold getDueTasks in H. apply in_map_iff in H as (row & <- & Hin).
      apply filter_In in Hin as [Hin _]. cbn [id task_of_row] in Hid.
      unfold getTask in G.
      destruct (find (fun r => row_id r =? taskId)
                     (scheduled_tasks (tables (snd e)))) eqn:F;
        [discriminate |].
      apply (find_none _ _ F) in Hin. apply Nat.eqb_neq in Hin. contradiction.
    + apply SchedulerRunFacts.Forall2_same_rows.
Qed.

(** After [resumeTask] of a stored task, every row of the task is active;
    its next run time is the newly computed one when there is one, and
    the old one otherwise. *)
Lemma resumed_task_is_active_with_a_next_run_time
        (taskId : nat) (e : World * Store) (task : ScheduledTask)
        (nextRun : option string) :
  getTask (tables (snd e)) taskId = Some task ->
  computeNextRun (fst e) (name_of_kind (schedule_type task))
                 (schedule_value task) = Normal nextRun ->
  let out := resumeTask taskId e in
  (exists r, snd out = Normal r /\ success r = true)
  /\ forall row,
       In row (scheduled_tasks (tables (snd (fst out)))) ->
       row_id row = taskId ->
       exists old,
         In old (scheduled_tasks (tables (snd e)))
         /\ row_id old = taskId
         /\ row_status row = active
         /\ row_next_run row = match Decoder.opt_truthy nextRun with
                               | Some next => Some next
                               | None => row_next_run old
                               end.
Proof.
  intros G C. cbv zeta. unfold resumeTask, TaskTools.resumeTask.
  rewrite G. unfold computeNextRun in C. rewrite C.
  cbn [fst snd tables with_tables].
  split; [eexists; split; reflexivity |].
  intros row Hin Hid.
  apply SchedulerFacts.updateTask_rows in Hin as (old & Hold & Ho & ->);
    [| exact Hid].
  exists old. split; [exact Hold |]. split; [exact Ho |].
  split; [reflexivity |]. cbn [apply_updates row_next_run u_next_run].
  now destruct (Decoder.opt_truthy nextRun).
Qed.

(** [cancelTask] of a stored task removes the task and its run logs and
    nothing else: afterwards the task is not found, no run log names it,
    and the other rows and logs are those that were there, in order.  For
    an id that is not stored, nothing changes and a failure is reported. *)
Theorem cancelTask_removes_the_task_and_its_logs
        (taskId : nat) (e : World * Store) :
  let out := cancelTask taskId e in
  let before := tables (snd e) in
  let after := tables (snd (fst out)) in
  match getTask before taskId with
  | Some _ =>
      (exists r, snd out = Normal r /\ success r = true)
      /\ getTask after taskId = None
      /\ Forall (fun l => log_task_id l <> taskId) (task_run_logs after)
      /\ scheduled_tasks after
         = filter (fun r => negb (row_id r =? taskId)) (scheduled_tasks before)
      /\ task_run_logs after
         = filter (fun l => negb (log_task_id l =? taskId))
                  (task_run_logs before)
      /\ conversations after = conversations before
      /\ messages after = messages before
  | None =>
      fst out = e /\ exists r, snd out = Normal r /\ success r = false
  end.
Proof.
  cbv zeta. unfold cancelTask, TaskTools.cancelTask.
  destruct (getTask (tables (snd e)) taskId) as [task|];
    cbn [fst snd tables with_tables].
  - split; [eexists; split; reflexivity |]. split.
    + unfold getTask, deleteTask. cbn [scheduled_tasks].
      destruct (find _ (filter _ _)) as [r|] eqn:F; [| reflexivity].
      apply find_some in F as [Hin E]. apply filter_In in Hin as [_ N].
      rewrite E in N. discriminate.
    + split.
      * apply Forall_forall. intros l H. unfold deleteTask in H.
        cbn [task_run_logs] in H. apply filter_In in H as [_ N].
        apply negb_true_iff in N. now apply Nat.eqb_neq.
      * repeat split; reflexivity.
  - split; [reflexivity |]. eexists. split; reflexivity.
Qed.
End WithWorld.

Lemma tool_scheduled_task_sends_no_notification_witness :
  let e := (200%Z, Situations.four_statuses_store) in
  exists row,
    scheduled_tasks (tables (snd (fst (Situations.toy_schedule
                                         Situations.remind_me e))))
    = scheduled_tasks Scenario.four_statuses ++ [row]
    /\ snd (fst (Scenario.toy_process Scenario.answering_loop
                   (task_of_row row) (200%Z, Scenario.four_statuses))) = [].
Proof.
  intros e.
  destruct (tool_scheduled_task_sends_no_notification
              Z (fun w => w) (fun _ => "timestamp") Situations.toy_date
              (fun _ => true) Situations.remind_me e
              _ eq_refl eq_refl) as (row & R & N).
  exists row. split; [exact R |]. apply N.
Defined.

End TaskToolsFacts.

(** ** Tasks route *)

Module TasksRouteFacts.
Import JsString Js Json Db TasksRoute.

Lemma updateTask_keeps_schedule (db : Db.t) (tid : nat)
      (lastRun lastResult : option (option string)) :
  Forall2 (fun old new =>
             row_id new = row_id old
             /\ row_status new = row_status old
             /\ row_next_run new = row_next_run old
             /\ row_schedule_type new = row_schedule_type old
             /\ row_schedule_value new = row_schedule_value old)
          (scheduled_tasks db)
          (scheduled_tasks
             (updateTask db tid
                {| u_status := None; u_next_run := None;
                   u_last_run := lastRun; u_last_result := lastResult |})).
Proof.
  unfold updateTask. cbn [scheduled_tasks].
  induction (scheduled_tasks db) as [|r rows IH]; cbn [map]; constructor;
    [| exact IH].
  destruct (row_id r =? tid); repeat split; reflexivity.
Qed.

Section WithWorld.
Variable World : Type.
Variable runAgentLoop :
  string -> string -> World * Db.t -> (World * Db.t) * completion string.
Variable uuidv4 : World -> string.
Variable now : World -> Z * World.
Variable toISOString : Z -> string.

Let PATCH := TasksRoute.PATCH World runAgentLoop uuidv4 now toISOString.

(** Running a task by hand leaves its schedule alone.  The [run] action
    on a stored task changes neither the status nor the next run time of
    any row, whether the run returns or throws: unlike a scheduled
    execution, it does not complete a [once] task and does not mark a
    failed task.  When the task still has its row at the end of the run,
    the handler answers 200 and adds one run log to the store the run
    left; when the run deleted the task, the insert of the run log fails
    on the foreign key, and the handler ends with that exception, the
    store as the run left it. *)
Theorem manual_run_keeps_the_schedule
        (taskId : nat) (task : ScheduledTask) (e : World * Db.t) :
  taskId <> 0 ->
  getTask (snd e) taskId = Some task ->
  let ran := runAgentLoop
               (match Decoder.opt_truthy (conversation_id task) with
                | Some c => c
                | None => uuidv4 (fst e)
                end) (prompt task) (snd (now (fst e)), snd e) in
  let out := PATCH {| b_id := Some taskId; b_action := Some "run" |} e in
  Forall2 (fun old new =>
             row_id new = row_id old
             /\ row_status new = row_status old
             /\ row_next_run new = row_next_run old
             /\ row_schedule_type new = row_schedule_type old
             /\ row_schedule_value new = row_schedule_value old)
          (scheduled_tasks (snd (fst ran)))
          (scheduled_tasks (snd (fst out)))
  /\ if task_stored (snd (fst ran)) taskId then
       (exists response,
           snd out = Normal response /\ http_status response = 200)
       /\ List.length (task_run_logs (snd (fst out)))
          = S (List.length (task_run_logs (snd (fst ran))))
     else
       snd out = Throw FOREIGN_KEY
       /\ snd (fst out) = snd (fst ran).
Proof.
  intros Z G. cbv zeta. unfold PATCH, TasksRoute.PATCH.
  cbn [b_id b_action Decoder.opt_truthy truthy is_empty negb].
  destruct taskId as [|n]; [congruence |].
  rewrite G. cbn [String.eqb Ascii.eqb Bool.eqb orb].
  unfold run_now, logTaskRun.
  destruct (now (fst e)) as [t0 w0]. cbn [fst snd].
  destruct (runAgentLoop _ (prompt task) (w0, snd e)) as [e1 r].
  cbn [fst snd].
  destruct (now (fst e1)) as [t1 w1]. destruct (now w1) as [t2 w2].
  destruct r as [res|err]; cbn [log_task_id];
    destruct (task_stored (snd e1) (S n)); cbn [fst snd];
    try destruct (now w2) as [t3 w3]; cbn [fst snd].
  - split.
    + match goal with
      | |- Forall2 _ _ (scheduled_tasks (updateTask ?d _ _)) =>
          apply (updateTask_keeps_schedule d)
      end.
    + split; [eexists; split; reflexivity |].
      cbn [task_run_logs updateTask]. rewrite length_app. cbn [List.length].
      lia.
  - split; [| split; reflexivity].
    clear. induction (scheduled_tasks (snd e1)); constructor; auto.
  - split.
    + match goal with
      | |- Forall2 _ _ (scheduled_tasks (updateTask ?d _ _)) =>
          apply (updateTask_keeps_schedule d)
      end.
    + split; [eexists; split; reflexivity |].
      cbn [task_run_logs updateTask]. rewrite length_app. cbn [List.length].
      lia.
  - split; [| split; reflexivity].
    clear. induction (scheduled_tasks (snd e1)); constructor; auto.
Qed.
End WithWorld.

Lemma manual_run_keeps_the_schedule_witness :
  let e := (200%Z, Scenario.four_statuses) in
  let out := TasksRoute.PATCH Z Scenario.failing_loop (fun _ => "fresh-id")
               Scenario.tick (fun _ => "timestamp")
               {| b_id := Some 1; b_action := Some "run" |} e in
  Forall2 (fun old new =>
             row_id new = row_id old
             /\ row_status new = row_status old
             /\ row_next_run new = row_next_run old
             /\ row_schedule_type new = row_schedule_type old
             /\ row_schedule_value new = row_schedule_value old)
          (scheduled_tasks Scenario.four_statuses)
          (scheduled_tasks (snd (fst out)))
  /\ (exists response,
         snd out = Normal response /\ http_status response = 200)
  /\ List.length (task_run_logs (snd (fst out))) = 1.
Proof.
  intros e out.
  pose proof (manual_run_keeps_the_schedule
                Z Scenario.failing_loop (fun _ => "fresh-id") Scenario.tick
                (fun _ => "timestamp") 1
                (task_of_row (Scenario.task_row 1 once active (Some "past")))
                e ltac:(discriminate) eq_refl) as H.
  cbv zeta in H.
  change (task_stored _ 1) with true in H. cbv iota in H.
  destruct H as (A & B & C). split; [exact A |]. split; [exact B | exact C].
Defined.

End TasksRouteFacts.
(** ** Planner: streaming *)

Module PlannerStreamFacts.
Import JsString Js Json Decoder Agent Planner PlannerStream.

Lemma parseTimeline_returns (text : string) :
  exists r, parseTimeline text = Normal r.
Proof.
  unfold parseTimeline.
  destruct (primary text) as [[t|]|e]; cbn;
    try (eexists; reflexivity);
    destruct (fallback text) as [[t'|]|e']; cbn; eexists; reflexivity.
Qed.

Lemma reasoning_tokens_app (a b : list Callback) :
  reasoning_tokens (a ++ b) = reasoning_tokens a ++ reasoning_tokens b.
Proof. unfold reasoning_tokens. apply flat_map_app. Qed.

Lemma reasoning_tokens_tool_calls (calls : list ToolCall) :
  reasoning_tokens (map onToolCall calls) = [].
Proof. induction calls; [reflexivity | exact IHcalls]. Qed.

Section WithWorld.
Variable World : Type.
Variable callModel : string -> list Message -> World -> World * ModelReply.
Variable getPlannerModel : string.
Variable PLANNER_SYSTEM_PROMPT : string.
Variable Sink : Type.
Variable notifyReasoning : string -> Sink -> Sink * completion unit.
Variable notifyTimeline : PlannerTimeline -> Sink -> Sink * completion unit.

Let runPlannerStreaming :=
  PlannerStream.runPlannerStreaming World callModel getPlannerModel
    PLANNER_SYSTEM_PROMPT Sink notifyReasoning notifyTimeline.
Let planner_callbacks :=
  PlannerStream.planner_callbacks Sink notifyReasoning.
Let deliver := PlannerStream.deliver Sink notifyReasoning.

(** The callbacks of the decoder, seen from the caller: its reasoning
    callback is handed the reasoning fragments in order until it throws;
    the content gathers meanwhile. *)
Lemma planner_callbacks_spec (cbs : list Callback) :
  forall fullContent k,
  planner_callbacks cbs fullContent k
  = (fst (fst (deliver (reasoning_tokens cbs) k)),
     map Reasoning (snd (fst (deliver (reasoning_tokens cbs) k))),
     match snd (deliver (reasoning_tokens cbs) k) with
     | Some ex => Throw ex
     | None => Normal (fullContent +++ content_text cbs)
     end).
Proof.
  unfold planner_callbacks, deliver.
  induction cbs as [|cb cbs IH]; intros fullContent k;
    cbn [PlannerStream.planner_callbacks reasoning_tokens flat_map
         content_text].
  - cbn. now rewrite JsStringFacts.append_nil_r.
  - fold (reasoning_tokens cbs).
    destruct cb; cbn [app PlannerStream.deliver]; rewrite ?IH;
      rewrite ?JsStringFacts.append_assoc; try reflexivity.
    destruct (notifyReasoning _ k) as [k1 [[]|ex]]; [| reflexivity].
    rewrite IH.
    destruct (PlannerStream.deliver Sink notifyReasoning
                (reasoning_tokens cbs) k1) as [[k2 handed] failure].
    reflexivity.
Qed.

(** What was handed over is a beginning of the fragments, and all of them
    when the callback never threw. *)
Lemma deliver_prefix (tokens : list string) :
  forall k,
  match snd (deliver tokens k) with
  | None => snd (fst (deliver tokens k)) = tokens
  | Some _ => exists rest, tokens = snd (fst (deliver tokens k)) ++ rest
  end.
Proof.
  unfold deliver.
  induction tokens as [|token rest IH]; intros k; cbn [PlannerStream.deliver];
    [reflexivity |].
  destruct (notifyReasoning token k) as [k1 [[]|ex]]; cbn [fst snd].
  - specialize (IH k1).
    destruct (PlannerStream.deliver Sink notifyReasoning rest k1)
      as [[k2 handed] [ex|]]; cbn [fst snd] in *.
    + destruct IH as [more ->]. exists more. reflexivity.
    + now rewrite IH.
  - exists rest. reflexivity.
Qed.

(** The planner hands the reasoning fragments of the stream to the
    caller's reasoning callback, in order.  When that callback throws,
    the stream is given up: nothing more is handed over and the planner
    returns no timeline, as it does for a stream that fails, whatever
    content came before.  Otherwise the timeline is parsed from the
    content alone, tool calls in the stream being ignored, and when
    there is one the caller's timeline callback is called with it, once
    and last; the planner returns that timeline, and throws only what
    this last callback throws. *)
Theorem planner_reports_reasoning_then_the_timeline
        (message : string) (taskType : Router.TaskType) (w : World)
        (k : Sink) :
  let run := runPlannerStreaming message taskType w k in
  let called :=
    callModel getPlannerModel
      [ {| role := "system"; content := Some PLANNER_SYSTEM_PROMPT;
           tool_calls := None; tool_call_id := None |};
        {| role := "user"; content := Some (userPrompt message taskType);
           tool_calls := None; tool_call_id := None |} ] w in
  let cbs := snd (process_chunks initial
                    match snd called with
                    | Completed chunks => chunks
                    | Failed chunks _ => chunks
                    end) in
  let told := deliver (reasoning_tokens cbs) k in
  world run = fst called
  /\ match snd told with
     | None => snd (fst told) = reasoning_tokens cbs
     | Some _ => exists rest, reasoning_tokens cbs = snd (fst told) ++ rest
     end
  /\ match snd told, snd called with
     | None, Completed _ =>
         match parseTimeline (content_text cbs) with
         | Normal (Some timeline) =>
             calls run = map Reasoning (snd (fst told)) ++ [Timeline timeline]
             /\ sink run = fst (notifyTimeline timeline (fst (fst told)))
             /\ outcome run
                = match snd (notifyTimeline timeline (fst (fst told))) with
                  | Normal _ => Normal (Some timeline)
                  | Throw ex => Throw ex
                  end
         | Normal None =>
             calls run = map Reasoning (snd (fst told))
             /\ sink run = fst (fst told)
             /\ outcome run = Normal None
         | Throw _ => False
         end
     | _, _ =>
         calls run = map Reasoning (snd (fst told))
         /\ sink run = fst (fst told)
         /\ outcome run = Normal None
     end.
Proof.
  cbv zeta. unfold runPlannerStreaming, PlannerStream.runPlannerStreaming.
  destruct (callModel getPlannerModel _ w) as [w1 reply]. cbn [fst snd].
  split; [destruct reply as [chunks | chunks err] |].
  - unfold run_decoder.
    destruct (process_chunks initial chunks) as [st cbs].
    pose proof (planner_callbacks_spec
                  (cbs ++ map onToolCall (build_tool_calls (toolCallsMap st)))
                  "" k) as S.
    unfold planner_callbacks in S. rewrite S.
    destruct (match snd (deliver _ k) with Some _ => _ | None => _ end);
      [| reflexivity].
    destruct (parseTimeline _) as [[t|]|ex]; [| reflexivity | reflexivity].
    destruct (notifyTimeline t _). reflexivity.
  - destruct (process_chunks initial chunks) as [st cbs].
    pose proof (planner_callbacks_spec cbs "" k) as S.
    unfold planner_callbacks in S. rewrite S. reflexivity.
  - split; [apply deliver_prefix |].
    destruct reply as [chunks | chunks err].
    + unfold run_decoder.
      destruct (process_chunks initial chunks) as [st cbs]. cbn [snd].
      pose proof (planner_callbacks_spec
                    (cbs ++ map onToolCall (build_tool_calls (toolCallsMap st)))
                    "" k) as S.
      unfold planner_callbacks in S. rewrite S. clear S.
      rewrite reasoning_tokens_app, reasoning_tokens_tool_calls, app_nil_r.
      rewrite DecoderTagFacts.content_text_app,
        DecoderTagFacts.content_text_tool_calls,
        JsStringFacts.append_nil_r.
      cbn [String.append].
      destruct (deliver (reasoning_tokens cbs) k) as [[k1 handed] [ex|]];
        cbn [fst snd]; [auto |].
      destruct (parseTimeline_returns (content_text cbs)) as [r E].
      rewrite E. destruct r as [t|]; [| auto].
      destruct (notifyTimeline t k1) as [k2 [[]|ex]]; cbn [fst snd]; auto.
    + destruct (process_chunks initial chunks) as [st cbs]. cbn [snd].
      pose proof (planner_callbacks_spec cbs "" k) as S.
      unfold planner_callbacks in S. rewrite S. clear S.
      destruct (deliver (reasoning_tokens cbs) k) as [[k1 handed] [ex|]];
        cbn [fst snd]; auto.
Qed.

Lemma deliver_returns (tokens : list string) :
  (forall token k, snd (notifyReasoning token k) = Normal tt) ->
  forall k, snd (deliver tokens k) = None.
Proof.
  intros H. unfold deliver.
  induction tokens as [|token rest IH]; intros k; cbn [PlannerStream.deliver];
    [reflexivity |].
  specialize (H token k).
  destruct (notifyReasoning token k) as [k1 r]. cbn [snd] in H. subst r.
  specialize (IH k1).
  destruct (PlannerStream.deliver Sink notifyReasoning rest k1)
    as [[k2 handed] failure].
  exact IH.
Qed.

(** The plan is read from the answer only.  For a stream that closes and
    carries its think tags whole, and with callbacks that return, the
    timeline returned is what [parseTimeline] finds in the text outside
    the tags: a plan written inside the reasoning is not taken. *)
Theorem planner_plans_from_the_text_outside_think_tags
        (message : string) (taskType : Router.TaskType) (w w1 : World)
        (k : Sink) (fs : list string) :
  tags_whole false fs = true ->
  (forall token k', snd (notifyReasoning token k') = Normal tt) ->
  (forall timeline k', snd (notifyTimeline timeline k') = Normal tt) ->
  callModel getPlannerModel
    [ {| role := "system"; content := Some PLANNER_SYSTEM_PROMPT;
         tool_calls := None; tool_call_id := None |};
      {| role := "user"; content := Some (userPrompt message taskType);
         tool_calls := None; tool_call_id := None |} ] w
  = (w1, Completed (map content_chunk fs)) ->
  outcome (runPlannerStreaming message taskType w k)
  = parseTimeline (snd (ref_split (stream fs))).
Proof.
  intros W R T C. unfold runPlannerStreaming, PlannerStream.runPlannerStreaming.
  rewrite C. unfold run_decoder.
  pose proof (DecoderTheorems.decode_fragments fs initial W) as D.
  cbv zeta in D.
  destruct (process_chunks initial (map content_chunk fs)) as [st cbs].
  cbn [fst snd] in D. destruct D as (_ & D & _ & _).
  pose proof (planner_callbacks_spec
                (cbs ++ map onToolCall (build_tool_calls (toolCallsMap st)))
                "" k) as S.
  unfold planner_callbacks in S. rewrite S. clear S.
  rewrite (deliver_returns _ R). cbn [String.append].
  rewrite DecoderTagFacts.content_text_app,
    DecoderTagFacts.content_text_tool_calls, JsStringFacts.append_nil_r.
  rewrite D. unfold ref_split. cbn [insideThinkTag initial].
  destruct (parseTimeline (snd (ref_scan false 0 (stream fs))))
    as [[t|]|ex]; try reflexivity.
  specialize (T t (fst (fst (deliver
     (reasoning_tokens
        (cbs ++ map onToolCall (build_tool_calls (toolCallsMap st)))) k)))).
  unfold deliver in *.
  destruct (notifyTimeline t _) as [k2 r]. cbn [snd] in T. subst r.
  reflexivity.
Qed.
End WithWorld.

Lemma planner_plans_from_the_text_outside_think_tags_witness :
  outcome (PlannerStream.runPlannerStreaming nat Situations.planner_provider
             "some/model" "You are a planner." nat Situations.note_reasoning
             Situations.note_timeline "find X" Router.RESEARCH_TASK 0 0)
  = Normal (Some {| steps := Scenario.two_step_plan |}).
Proof.
  rewrite (planner_plans_from_the_text_outside_think_tags
             nat Situations.planner_provider "some/model"
             "You are a planner." nat Situations.note_reasoning
             Situations.note_timeline "find X" Router.RESEARCH_TASK 0 1 0
             Situations.planner_fragments);
    try (vm_compute; reflexivity); intros; reflexivity.
Defined.

(** A caller that stops listening after the first reasoning fragment:
    the second is handed over and refused, the answer is never read, and
    the planner returns no timeline. *)
Lemma planner_gives_up_when_the_caller_is_gone :
  let run :=
    PlannerStream.runPlannerStreaming nat Situations.planner_provider
      "some/model" "You are a planner." Situations.Recorder
      Situations.record_once Situations.record_timeline
      "find X" Router.RESEARCH_TASK 0 (true, []) in
  outcome run = Normal None
  /\ List.length (calls run) = 2
  /\ List.length (snd (sink run)) = 1.
Proof. cbv zeta. vm_compute. repeat split. Qed.

End PlannerStreamFacts.

(** ** HTTP tool *)

Module HttpFacts.
Import JsString Js Json Registry Http.

#[local] Set Warnings "-abstract-large-number".

Section WithWorld.
Variable World : Type.
Variable fetch : FetchOptions -> World -> World * completion FetchResponse.
Variable toUpperCase : string -> string.

Let httpRequest := Http.httpRequest World fetch toUpperCase.
Let send := Http.send World fetch.

(** A request that may be sent: it has a URL, and it carries a body only
    when the method is neither GET nor HEAD, and then a non-empty one. *)
Let sendable (request : FetchOptions) : Prop :=
  f_url request <> ""
  /\ match f_body request with
     | Some b => b <> "" /\ f_method request <> "GET"
                 /\ f_method request <> "HEAD"
     | None => True
     end.

Lemma send_returns (url method : string) (headers : json)
      (body : option string) (w : World) :
  url <> "" ->
  exists r request,
    snd (send url method headers body w) = Normal r
    /\ snd (fst (send url method headers body w)) = [request]
    /\ sendable request
    /\ f_method request = method
    /\ (success r = true ->
        exists response,
          snd (fetch request w) = Normal response
          /\ ok response = true
          /\ startsWith (result r) (status_line response) = true
          /\ String.length (result r)
             <= String.length (status_line response) + 10016).
Proof.
  intros U. unfold send, Http.send.
  set (request := {| f_url := url; f_method := method |}).
  assert (S : sendable request).
  { split; [exact U |]. cbn [f_body f_method request].
    destruct (Decoder.opt_truthy body) as [b|] eqn:B; [| exact I].
    destruct (negb (String.eqb method "GET")) eqn:G; cbn [andb]; [| exact I].
    destruct (negb (String.eqb method "HEAD")) eqn:H; [| exact I].
    apply negb_true_iff in G, H. apply String.eqb_neq in G, H.
    split; [| auto]. intros ->. unfold Decoder.opt_truthy in B.
    destruct body as [x|]; [| discriminate].
    destruct (truthy x) eqn:T; [| discriminate].
    injection B as ->. discriminate. }
  destruct (fetch request w) as [w1 fetched] eqn:F. cbn [fst snd].
  destruct fetched as [response|ex]; cbn [bind try_catch].
  - destruct (text response) as [responseText|ex] eqn:T; cbn [bind try_catch].
    + eexists. exists request. split; [reflexivity |]. split; [reflexivity |].
      split; [exact S |]. split; [reflexivity |].
      cbn [success result]. intros K. exists response. rewrite F.
      split; [reflexivity |]. split; [exact K |]. split.
      * apply JsStringFacts.startsWith_app.
      * rewrite JsStringFacts.length_append.
        assert (E : 10016 = 10000 + 16) by (vm_compute; reflexivity).
        rewrite E.
        destruct (10000 <? String.length responseText) eqn:L.
        -- rewrite JsStringFacts.length_append.
           pose proof (SchedulerRunFacts.length_take 10000 responseText).
           cbn [TRUNCATED String.length]. lia.
        -- apply Nat.ltb_ge in L. lia.
    + eexists. exists request. split; [reflexivity |]. split; [reflexivity |].
      split; [exact S |]. split; [reflexivity |]. discriminate.
  - eexists. exists request. split; [reflexivity |]. split; [reflexivity |].
    split; [exact S |]. split; [reflexivity |]. discriminate.
Qed.

(** An absent argument reads as the empty text wherever it is tested. *)
Let given (o : option string) : string :=
  match o with Some s => s | None => "" end.

Lemma opt_truthy_given (o : option string) :
  Decoder.opt_truthy o = if is_empty (given o) then None else Some (given o).
Proof. destruct o as [[|c s]|]; reflexivity. Qed.

Lemma send_request (url method : string) (headers : json)
      (body : option string) (w : World) :
  let request :=
    {| f_url := url; f_method := method; f_headers := headers;
       f_body := if is_empty (given body) || String.eqb method "GET"
                    || String.eqb method "HEAD"
                 then None else Some (given body) |} in
  fst (send url method headers body w) = (fst (fetch request w), [request]).
Proof.
  cbv zeta. unfold send, Http.send. rewrite opt_truthy_given.
  assert (E : (if is_empty (given body) then None
               else if negb (String.eqb method "GET")
                       && negb (String.eqb method "HEAD")
                    then Some (given body) else None)
              = if is_empty (given body) || String.eqb method "GET"
                   || String.eqb method "HEAD"
                then None else Some (given body)).
  { destruct (is_empty (given body)), (String.eqb method "GET"),
      (String.eqb method "HEAD"); reflexivity. }
  match goal with
  | |- context [fetch {| f_url := url; f_method := method;
                         f_headers := headers; f_body := ?b |} w] =>
      replace b with (if is_empty (given body) || String.eqb method "GET"
                         || String.eqb method "HEAD"
                      then None else Some (given body))
        by (symmetry; destruct (is_empty (given body)); exact E)
  end.
  destruct (fetch _ w) as [w1 fetched]. reflexivity.
Qed.

(** [httpRequest] never throws, whatever the network does.  Without a
    URL it sends nothing, leaves the world as it was and reports that the
    URL is required; with headers that are no JSON it sends nothing
    either and reports the headers.  Otherwise it sends exactly one
    request: to the URL of the arguments, with the method of the
    arguments in capitals, GET when none is given, with the parsed
    headers, none when none are given, and with the body of the
    arguments only when there is one and the method is neither GET nor
    HEAD. *)
Theorem httpRequest_never_throws_and_sends_at_most_one_request
        (args : HttpArgs) (w : World) :
  let out := httpRequest args w in
  let url := given (a_url args) in
  let method :=
    toUpperCase (if is_empty (given (a_method args)) then "GET"
                 else given (a_method args)) in
  let headersStr := given (a_headers args) in
  let body := given (a_body args) in
  let request (headers : json) :=
    {| f_url := url; f_method := method; f_headers := headers;
       f_body := if is_empty body || String.eqb method "GET"
                    || String.eqb method "HEAD"
                 then None else Some body |} in
  (exists r, snd out = Normal r)
  /\ if is_empty url then
       out = (w, [], Normal {| success := false;
                               result := "URL is required" |})
     else
       match (if is_empty headersStr then Normal (JObj [])
              else JSON_parse headersStr) with
       | Throw _ =>
           out = (w, [],
                  Normal {| success := false;
                            result := "Invalid headers JSON: "
                                      +++ headersStr |})
       | Normal headers =>
           fst out = (fst (fetch (request headers) w), [request headers])
       end.
Proof.
  cbv zeta. unfold httpRequest, Http.httpRequest.
  rewrite !opt_truthy_given.
  destruct (is_empty (given (a_url args))) eqn:U.
  - split; [eexists; reflexivity | reflexivity].
  - assert (N : given (a_url args) <> "").
    { intros E. rewrite E in U. discriminate. }
    destruct (is_empty (given (a_headers args))).
    + split.
      * destruct (send_returns (given (a_url args))
                    (toUpperCase (if is_empty (given (a_method args))
                                  then "GET" else given (a_method args)))
                    (JObj []) (a_body args) w N) as (r & _ & R & _).
        exists r. unfold send in R.
        destruct (is_empty (given (a_method args))); exact R.
      * pose proof (send_request (given (a_url args))
                      (toUpperCase (if is_empty (given (a_method args))
                                    then "GET" else given (a_method args)))
                      (JObj []) (a_body args) w) as Q.
        cbv zeta in Q. unfold send in Q.
        destruct (is_empty (given (a_method args))); exact Q.
    + destruct (JSON_parse (given (a_headers args))) as [headers|ex].
      * split.
        -- destruct (send_returns (given (a_url args))
                       (toUpperCase (if is_empty (given (a_method args))
                                     then "GET" else given (a_method args)))
                       headers (a_body args) w N) as (r & _ & R & _).
           exists r. unfold send in R.
           destruct (is_empty (given (a_method args))); exact R.
        -- pose proof (send_request (given (a_url args))
                         (toUpperCase (if is_empty (given (a_method args))
                                       then "GET" else given (a_method args)))
                         headers (a_body args) w) as Q.
           cbv zeta in Q. unfold send in Q.
           destruct (is_empty (given (a_method args))); exact Q.
      * split; [eexists; reflexivity | reflexivity].
Qed.

(** A successful result is the status line of the response followed by at
    most 10016 characters: the text of the response, cut to its first
    10000 characters and marked when it is longer. *)
Theorem httpRequest_result_is_bounded
        (args : HttpArgs) (w : World) (r : ToolExecutionResult) :
  snd (httpRequest args w) = Normal r ->
  success r = true ->
  exists request response,
    snd (fst (httpRequest args w)) = [request]
    /\ snd (fetch request w) = Normal response
    /\ ok response = true
    /\ startsWith (result r) (status_line response) = true
    /\ String.length (result r)
       <= String.length (status_line response) + 10016.
Proof.
  unfold httpRequest, Http.httpRequest.
  destruct (Decoder.opt_truthy (a_url args)) as [url|] eqn:U;
    [| intros [= <-]; discriminate].
  assert (N : url <> "").
  { unfold Decoder.opt_truthy in U. destruct (a_url args) as [x|];
      [| discriminate].
    destruct (truthy x) eqn:T; [| discriminate].
    injection U as ->. intros ->. discriminate. }
  destruct (Decoder.opt_truthy (a_headers args)) as [headersStr|].
  - destruct (JSON_parse headersStr) as [headers|ex];
      [| intros [= <-]; discriminate].
    destruct (send_returns url (toUpperCase
                match Decoder.opt_truthy (a_method args) with
                | Some m => m
                | None => "GET"
                end) headers (a_body args) w N)
      as (r0 & request & R & Q & _ & _ & B).
    unfold send in R, Q, B. rewrite R, Q. intros [= <-] K.
    destruct (B K) as (response & F & O & P & L).
    exists request, response. auto.
  - destruct (send_returns url (toUpperCase
                match Decoder.opt_truthy (a_method args) with
                | Some m => m
                | None => "GET"
                end) (JObj []) (a_body args) w N)
      as (r0 & request & R & Q & _ & _ & B).
    unfold send in R, Q, B. rewrite R, Q. intros [= <-] K.
    destruct (B K) as (response & F & O & P & L).
    exists request, response. auto.
Qed.
End WithWorld.

Lemma httpRequest_result_is_bounded_witness :
  exists r request response,
    snd (Http.httpRequest nat Situations.big_server (fun s => s)
           Situations.get_page 0) = Normal r
    /\ f_body request = None
    /\ snd (Situations.big_server request 0) = Normal response
    /\ String.length (result r)
       <= String.length (status_line response) + 10016.
Proof.
  destruct (Http.httpRequest nat Situations.big_server (fun s => s)
              Situations.get_page 0) as [[w1 sent] [r|ex]] eqn:E;
    [| vm_compute in E; discriminate].
  destruct (httpRequest_result_is_bounded
              nat Situations.big_server (fun s => s) Situations.get_page 0 r)
    as (request & response & Q & F & _ & _ & L).
  - now rewrite E.
  - vm_compute in E. injection E as _ _ <-. reflexivity.
  - exists r, request, response. rewrite E in Q. cbn [fst snd] in Q.
    split; [reflexivity |]. split; [| split; [exact F | exact L]].
    vm_compute in E. injection E as _ <- _. injection Q as <-. reflexivity.
Defined.

End HttpFacts.

(** ** Plan runner and step executor together *)

Module PipelineStepFacts.
Import JsString Js Json Decoder Registry Agent Pipeline.

Section Loop.
Variable World : Type.
Variable buildSystemPrompt : option StepExecutionOptions -> string.

Let prepare := Agent.prepare World buildSystemPrompt.

(** A plan step is run in step mode exactly when its description is not
    empty.  Then the step executor stores nothing before it calls the
    model: the user's message, saved once by the route, is not saved
    again.  A step with an empty description is run as an ordinary
    request: its step message is stored as one more user message of the
    conversation. *)
Theorem described_step_stores_no_user_message
        (convId message : string) (executorModel : option string)
        (step : PlannerStep) (e : World * Db.t) :
  let s := prepare convId (stepMessage message step)
                   (Some (step_options executorModel step)) e in
  if truthy (description step)
  then snd (env s) = snd e
  else Db.getMessages (snd (env s)) convId
       = Db.getMessages (snd e) convId
         ++ [ {| Db.m_conversation_id := convId; Db.m_role := "user";
                 Db.m_content := Some (stepMessage message step);
                 Db.m_tool_calls := None; Db.m_tool_call_id := None |} ].
Proof.
  cbv zeta. unfold prepare, Agent.prepare, step_mode, step_options.
  cbn [stepContext opt_truthy env snd fst].
  destruct (truthy (description step)); [reflexivity |].
  unfold Db.getMessages, Db.addMessage. cbn [Db.messages].
  rewrite filter_app. cbn [filter Db.m_conversation_id].
  rewrite String.eqb_refl. f_equal.
  now destruct (Db.getConversation (snd e) convId).
Qed.
End Loop.

End PipelineStepFacts.
